(** * Hoxton SEO platform: enrichment pipeline and request handlers

    A shallow embedding of the serverless handlers of the repository
    (api/enrich/keywords.js, api/enrich/serp.js, api/keywords/batch.js,
    api/keywords/index.js, api/pages/index.js, api/pages/import.js,
    api/competitors/index.js) and of their helpers (lib/auth.js,
    lib/validate.js, lib/errors.js, lib/response.js, lib/dataforseo.js),
    followed by the properties established about them.

    Conventions of the embedding:
    - JavaScript strings are [string], sequences of ASCII characters;
      [toLowerCase], [toUpperCase] and [trim] act on the ASCII letters and
      the ASCII white space.
    - JSON values that the code only tests for truthiness or passes on are
      [jsval]; numbers are rationals ([Qc]), which covers every finite
      double a JSON document can carry. The numbers [parseInt] produces and
      the code adds are doubles ([Num.t]).
    - An async handler is a function from the state of its effects so far to
      a result and the new state ([M]); a [throw] is the left summand.
    - The store, the provider and the URL parser of the runtime are
      external: the handlers see them through the oracles of a [World]. The
      n-th outbound call and the n-th write may each succeed or fail
      independently. *)

From Stdlib Require Import ZArith QArith Qcanon Ascii.
From stdpp Require Import base option numbers strings list gmap pretty.

Local Open Scope string_scope.
Local Open Scope list_scope.

(* ===================================================================== *)
(** ** JavaScript values, strings and plain objects *)
(* ===================================================================== *)

Module JS.

Inductive jsval :=
| JUndefined
| JNull
| JBool (b : bool)
| JNum (q : Qc)
| JStr (s : string).

#[global] Instance jsval_eq_dec : EqDecision jsval.
Proof. solve_decision. Defined.

(** ToBoolean. *)
Definition truthy (v : jsval) : bool :=
  match v with
  | JUndefined | JNull => false
  | JBool b => b
  | JNum q => negb (bool_decide (q = 0%Qc))
  | JStr s => negb (String.eqb s "")
  end.

(** [a || b]. *)
Definition js_or (a b : jsval) : jsval := if truthy a then a else b.

(** Truthiness of a value that is a string, [null] or [undefined]. *)
Definition str_truthy (o : option string) : bool :=
  match o with
  | Some s => negb (String.eqb s "")
  | None => false
  end.

(** [s || d] for such a value. *)
Definition str_or (o : option string) (d : string) : string :=
  match o with
  | Some s => if String.eqb s "" then d else s
  | None => d
  end.

(** *** Strings

    A string is the sequence of its characters, each an ASCII character.
    The case functions map the letters [A-Z] and [a-z] and [trim] removes
    tab, line feed, vertical tab, form feed, carriage return and space,
    which is what the runtime does to a string of ASCII characters. The
    runtime also maps letters and removes white space outside ASCII; that
    part is not modelled, and the theorems that rest on what these functions
    compute are stated for ASCII strings. *)
Definition is_upper (c : ascii) : bool :=
  let n := N_of_ascii c in (65 <=? n)%N && (n <=? 90)%N.
Definition is_lower (c : ascii) : bool :=
  let n := N_of_ascii c in (97 <=? n)%N && (n <=? 122)%N.
Definition is_digit (c : ascii) : bool :=
  let n := N_of_ascii c in (48 <=? n)%N && (n <=? 57)%N.

Definition lower_char (c : ascii) : ascii :=
  if is_upper c then ascii_of_N (N_of_ascii c + 32) else c.
Definition upper_char (c : ascii) : ascii :=
  if is_lower c then ascii_of_N (N_of_ascii c - 32) else c.

Fixpoint map_string (f : ascii -> ascii) (s : string) : string :=
  match s with
  | EmptyString => EmptyString
  | String c r => String (f c) (map_string f r)
  end.

Definition toLowerCase : string -> string := map_string lower_char.
Definition toUpperCase : string -> string := map_string upper_char.

(** The ASCII white space removed by [String.prototype.trim]. *)
Definition is_ws (c : ascii) : bool :=
  let n := N_of_ascii c in ((9 <=? n)%N && (n <=? 13)%N) || (n =? 32)%N.

Fixpoint trimStart (s : string) : string :=
  match s with
  | EmptyString => EmptyString
  | String c r => if is_ws c then trimStart r else s
  end.

Fixpoint trimEnd (s : string) : string :=
  match s with
  | EmptyString => EmptyString
  | String c r =>
      let r' := trimEnd r in
      if is_ws c && String.eqb r' "" then EmptyString else String c r'
  end.

Definition trim (s : string) : string := trimEnd (trimStart s).

(** [s.includes(needle)]. *)
Fixpoint includes (needle s : string) : bool :=
  String.prefix needle s ||
  match s with
  | EmptyString => false
  | String _ r => includes needle r
  end.

Fixpoint drop_string (n : nat) (s : string) : string :=
  match n, s with
  | O, _ => s
  | S n', String _ r => drop_string n' r
  | S _, EmptyString => EmptyString
  end.

(** [allowed.includes(value)] on an array of strings. *)
Definition array_includes (l : list string) (v : string) : bool :=
  existsb (String.eqb v) l.

(** *** Plain objects used as maps

    An object literal [{}] inherits from [Object.prototype]: reading a key
    that is not an own property finds the inherited member when the key is
    one of the names below, and [undefined] otherwise. *)
Definition Object_prototype_keys : list string :=
  [ "constructor"; "__proto__"; "hasOwnProperty"; "isPrototypeOf";
    "propertyIsEnumerable"; "toLocaleString"; "toString"; "valueOf";
    "__defineGetter__"; "__defineSetter__"; "__lookupGetter__";
    "__lookupSetter__" ].

Definition inherited (k : string) : bool := array_includes Object_prototype_keys k.

Fixpoint digits_value (acc : N) (s : string) : option N :=
  match s with
  | EmptyString => Some acc
  | String c r =>
      if is_digit c then digits_value (acc * 10 + (N_of_ascii c - 48)) r
      else None
  end.

(** An array index is the canonical decimal form of an integer below
    [2^32 - 1]; own property keys of that form are enumerated first, in
    ascending numeric order (OrdinaryOwnPropertyKeys). *)
Definition array_index (k : string) : option N :=
  match k with
  | EmptyString => None
  | String c r =>
      if Ascii.eqb c "0" && negb (String.eqb r "") then None
      else match digits_value 0 k with
           | Some n => if (n <? 4294967295)%N then Some n else None
           | None => None
           end
  end.

(** Own properties in creation order. *)
Definition obj (V : Type) : Type := list (string * V).

Fixpoint own_get {V} (o : obj V) (k : string) : option V :=
  match o with
  | [] => None
  | (k', v) :: r => if String.eqb k' k then Some v else own_get r k
  end.

Fixpoint own_set {V} (o : obj V) (k : string) (v : V) : obj V :=
  match o with
  | [] => [(k, v)]
  | (k', v') :: r =>
      if String.eqb k' k then (k', v) :: r else (k', v') :: own_set r k v
  end.

Fixpoint insert_by_index {V} (n : N) (e : string * V)
    (l : list (N * (string * V))) : list (N * (string * V)) :=
  match l with
  | [] => [(n, e)]
  | (m, e') :: r =>
      if (n <? m)%N then (n, e) :: l else (m, e') :: insert_by_index n e r
  end.

Fixpoint index_entries {V} (o : obj V) : list (N * (string * V)) :=
  match o with
  | [] => []
  | (k, v) :: r =>
      match array_index k with
      | Some n => insert_by_index n (k, v) (index_entries r)
      | None => index_entries r
      end
  end.

Definition named_entries {V} (o : obj V) : list (string * V) :=
  List.filter (fun e => negb (bool_decide (is_Some (array_index (fst e))))) o.

(** [Object.entries(o)]. *)
Definition Object_entries {V} (o : obj V) : list (string * V) :=
  List.map snd (index_entries o) ++ named_entries o.

End JS.

(** Result of reading [o[k]] on an object literal. *)
Inductive prop_value (V : Type) :=
| Own (v : V)
| Inherited
| Absent.
Arguments Own {V} v.
Arguments Inherited {V}.
Arguments Absent {V}.

Definition js_get {V} (o : JS.obj V) (k : string) : prop_value V :=
  match JS.own_get o k with
  | Some v => Own v
  | None => if JS.inherited k then Inherited else Absent
  end.

(* ===================================================================== *)
(** ** lib/errors.js *)
(* ===================================================================== *)

Module Errors.

(** The [details] objects the handlers attach to their errors. *)
Inductive Details :=
| DReceivedMaximum (received maximum : nat)
| DMissing (missing : list string)
| DType (field expected received : string)
| DEnum (field : string) (allowed : list string) (received : string)
| DMethod (allowed : list string) (received : string)
| DAllowed (allowed : list string)
| DRequired (required : list string)
| DConstraint (constraint : option string)
| DOriginalError (originalError : string).

(** [class AppError]; [details = None] is [null]. *)
Record AppError := {
  code : string;
  message : string;
  status : Z;
  details : option Details
}.

Definition ValidationError (msg : string) (d : option Details) : AppError :=
  {| code := "VALIDATION_ERROR"; message := msg; status := 400; details := d |}.

Definition NotFoundError (resource : string) : AppError :=
  {| code := "NOT_FOUND"; message := resource +:+ " not found";
     status := 404; details := None |}.

Definition UnauthorizedError : AppError :=
  {| code := "UNAUTHORIZED"; message := "Invalid or missing API key";
     status := 401; details := None |}.

Definition DuplicateError (resource : string) : AppError :=
  {| code := "DUPLICATE_ERROR"; message := resource +:+ " already exists";
     status := 409; details := None |}.

Definition ExternalApiError (service originalError : string) : AppError :=
  {| code := "EXTERNAL_API_ERROR";
     message := service +:+ " API error: " +:+ originalError;
     status := 502; details := None |}.

(** The error object the store client hands back in [{ data, error }]. *)
Record StoreError := {
  se_code : option string;
  se_message : string;
  se_constraint : option string;
  se_column : option string
}.

Definition DatabaseError (operation : string) (originalError : StoreError) : AppError :=
  {| code := "DATABASE_ERROR";
     message := "Database " +:+ operation +:+ " failed";
     status := 500;
     details := Some (DOriginalError (se_message originalError)) |}.

(** A template literal prints a missing property as [undefined]. *)
Definition interpolate (o : option string) : string := default "undefined" o.

Definition mapSupabaseError (error : StoreError) (operation : string) : AppError :=
  if bool_decide (se_code error = Some "23505") then
    DuplicateError "Record"
  else if bool_decide (se_code error = Some "23503") then
    ValidationError "Referenced record does not exist"
                    (Some (DConstraint (se_constraint error)))
  else if bool_decide (se_code error = Some "23502") then
    ValidationError ("Required field is null: " +:+ interpolate (se_column error)) None
  else
    DatabaseError operation error.

(** What a handler can throw: one of the classes above, the raw error object
    of the store, or a runtime [TypeError]. *)
Inductive Thrown :=
| ThrowApp (e : AppError)
| ThrowStore (e : StoreError)
| ThrowTypeError (msg : string).

(** Synchronous code that may throw. *)
#[global] Instance result_bind : MBind (sum Thrown) := fun A B f m =>
  match m with
  | inl e => inl e
  | inr a => f a
  end.

End Errors.

(* ===================================================================== *)
(** ** lib/response.js *)
(* ===================================================================== *)

Module Response.

(** The JSON envelope. The [timestamp] and the human-readable [message] of
    [meta] are left out; [details = None] in a failure is an absent key. *)
Inductive Body (D Mt : Type) :=
| Success (data : D) (meta : Mt)
| Failure (code message : string) (details : option (option Errors.Details)).
Arguments Success {D Mt} data meta.
Arguments Failure {D Mt} code message details.

Record t (D Mt : Type) := { status : Z; body : Body D Mt }.
Arguments status {D Mt} _.
Arguments body {D Mt} _.

Definition success {D Mt} (data : D) (meta : Mt) : t D Mt :=
  {| status := 200; body := Success data meta |}.

Definition created {D Mt} (data : D) (meta : Mt) : t D Mt :=
  {| status := 201; body := Success data meta |}.

Definition error {D Mt} (err : Errors.Thrown) : t D Mt :=
  match err with
  | Errors.ThrowApp e =>
      {| status := Errors.status e;
         body := Failure (Errors.code e) (Errors.message e) (Some (Errors.details e)) |}
  | _ =>
      {| status := 500;
         body := Failure "INTERNAL_ERROR" "An unexpected error occurred" None |}
  end.

End Response.

(* ===================================================================== *)
(** ** Requests, environment, lib/auth.js and lib/validate.js *)
(* ===================================================================== *)

(** [process.env]; [None] is an unset variable. *)
Record Env := {
  API_KEY : option string;
  DATAFORSEO_LOGIN : option string;
  DATAFORSEO_PASSWORD : option string
}.

(** [req]: method, the [x-api-key] header ([None] when absent) and the
    parsed JSON body. *)
Record Request (B : Type) := {
  method : string;
  x_api_key : option string;
  req_body : B
}.
Arguments method {B} _.
Arguments x_api_key {B} _.
Arguments req_body {B} _.

Module Auth.

(** [apiKey === process.env.API_KEY]. *)
Definition verifyApiKey {B} (env : Env) (req : Request B) : bool :=
  bool_decide (x_api_key req = API_KEY env).

End Auth.

Module Validate.
Import Errors.

Definition validateRequired (present : string -> bool) (fields : list string)
  : Thrown + unit :=
  let missing := List.filter (fun f => negb (present f)) fields in
  if (0 <? length missing)%nat then
    inl (ThrowApp (ValidationError
           ("Missing required field(s): " +:+ String.concat ", " missing)
           (Some (DMissing missing))))
  else inr tt.

Definition validateType (actualType name expectedType : string) : Thrown + unit :=
  if negb (String.eqb actualType expectedType) then
    inl (ThrowApp (ValidationError ("Invalid type for " +:+ name)
           (Some (DType name expectedType actualType))))
  else inr tt.

Definition validateEnum (value name : string) (allowedValues : list string)
  : Thrown + unit :=
  if negb (JS.array_includes allowedValues value) then
    inl (ThrowApp (ValidationError ("Invalid value for " +:+ name)
           (Some (DEnum name allowedValues value))))
  else inr tt.

Definition validateMethod {B} (req : Request B) (allowed : string) : Thrown + unit :=
  let methods := [allowed] in
  if negb (JS.array_includes methods (method req)) then
    inl (ThrowApp (ValidationError ("Method " +:+ method req +:+ " not allowed")
           (Some (DMethod methods (method req)))))
  else inr tt.

End Validate.

(* ===================================================================== *)
(** ** Data model: rows, provider records and response entries *)
(* ===================================================================== *)

(** A working-set entry: a row of [keywords] ([id, keyword_text, country]) or
    an inline keyword, whose [id] is [null]. *)
Module Keyword.
Record t := { id : option string; keyword_text : string; country : option string }.
End Keyword.

(** An element of the inline [keywords] array of /enrich/keywords. *)
Module Inline.
Record t := { text : string; country : option string }.
End Inline.

(** A record of the provider's search-volume result. *)
Module MetricsResult.
Record t := {
  keyword : string;
  search_volume : JS.jsval;
  keyword_difficulty : JS.jsval;
  cpc : JS.jsval;
  competition : JS.jsval
}.
End MetricsResult.

(** A row written to [keyword_metrics]. *)
Module KeywordMetric.
Record t := {
  keyword_id : string;
  search_volume : JS.jsval;
  difficulty : JS.jsval;
  cpc : JS.jsval;
  competition : JS.jsval
}.
End KeywordMetric.

(** An entry of the list returned by /enrich/keywords. *)
Module Enriched.
Record t := {
  keyword : string;
  country : string;
  search_volume : JS.jsval;
  difficulty : JS.jsval;
  cpc : JS.jsval;
  competition : JS.jsval
}.
End Enriched.

(** An item of the provider's SERP result, before the organic filter. *)
Module SerpItem.
Record t := {
  type : string;
  rank_absolute : JS.jsval;
  url : string;
  domain : JS.jsval;
  title : JS.jsval
}.
End SerpItem.

(** A row written to [serp_rankings]. *)
Module SerpRanking.
Record t := {
  keyword_id : option string;
  position : JS.jsval;
  url : string;
  domain : string;
  title : JS.jsval;
  is_hoxton : bool
}.
End SerpRanking.

(** A row written to [competitor_rankings]. *)
Module CompetitorRanking.
Record t := {
  keyword_id : option string;
  competitor_id : string;
  position : JS.jsval;
  url : string
}.
End CompetitorRanking.

(** A row of [competitors] as selected by /enrich/serp ([id, domain]). *)
Module Competitor.
Record t := { id : string; domain : string }.
End Competitor.

(** An entry of the list returned by /enrich/serp: the error entry
    [{keyword, error}] or the summary of one keyword. *)
Inductive SerpEntry :=
| SerpFailed (keyword : string) (error : string)
| SerpSummary (keyword : string) (country : option string)
              (results_count : nat) (hoxton_position : JS.jsval).

(* ===================================================================== *)
(** ** The external collaborators and the effects of a handler *)
(* ===================================================================== *)

(** One outbound call to the provider: the keyword texts (or the single
    keyword) and the [location_code] of the payload; [None] is a location
    that is not a number. *)
Inductive ProviderCall :=
| CallSearchVolume (keywords : list string) (location_code : option Z)
| CallSerp (keyword : string) (location_code : option Z).

(** One insert into the store. *)
Inductive Write :=
| WMetric (row : KeywordMetric.t)
| WSerp (rows : list SerpRanking.t)
| WCompetitor (rows : list CompetitorRanking.t).

(** What [await fetch(...)] followed by [await response.json()] gives: a
    rejection with its message, or the parsed document, of which the code
    reads [status_code], [status_message] and the result list reached by
    optional chaining ([None] when that chain ends in [undefined]). *)
Inductive FetchOutcome (T : Type) :=
| Rejected (message : string)
| Resolved (status_code : Z) (status_message : option string) (result : option T).
Arguments Rejected {T} message.
Arguments Resolved {T} status_code status_message result.

Record World := {
  env : Env;
  (** [from('keywords').select(...).in('id', ids)] *)
  select_keywords : list string -> Errors.StoreError + list Keyword.t;
  (** [from('competitors').select('id, domain')]; [None] is [data: null] *)
  select_competitors : option (list Competitor.t);
  (** the n-th outbound call, search-volume endpoint *)
  fetch_search_volume : nat -> list string -> option Z -> FetchOutcome (list MetricsResult.t);
  (** the n-th outbound call, SERP endpoint *)
  fetch_serp : nat -> string -> option Z -> FetchOutcome (list SerpItem.t);
  (** the error, if any, of the n-th insert *)
  insert_error : nat -> Write -> option Errors.StoreError;
  (** the runtime's [new URL(url).hostname]; [None] when the constructor
      throws *)
  URL_hostname : string -> option string
}.

Module Eff.
Import Errors.

(** Effects of a request so far: provider calls, inserts and the lines
    written with [console.error], each in program order. *)
Record St := {
  calls : list ProviderCall;
  writes : list Write;
  log : list (string * StoreError)
}.

Definition init : St := {| calls := []; writes := []; log := [] |}.

Definition M (A : Type) : Type := St -> (Thrown + A) * St.

#[global] Instance M_ret : MRet M := fun A a s => (inr a, s).
#[global] Instance M_bind : MBind M := fun A B f m s =>
  match m s with
  | (inl e, s') => (inl e, s')
  | (inr a, s') => f a s'
  end.

Definition throw {A} (e : Thrown) : M A := fun s => (inl e, s).

Definition lift {A} (r : Thrown + A) : M A := fun s => (r, s).

(** [for (const x of l) { acc = body(acc, x) }], left when the body throws. *)
Fixpoint foldM {A B} (body : B -> A -> M B) (l : list A) (acc : B) : M B :=
  match l with
  | [] => mret acc
  | x :: r => acc' ← body acc x; foldM body r acc'
  end.

(** [const { error } = await supabase.from(t).insert(w);
     if (error) console.error(label, error)]. *)
Definition insert (w : World) (wr : Write) (label : string) : M unit := fun s =>
  let n := length (writes s) in
  let lg := match insert_error w n wr with
            | Some e => log s ++ [(label, e)]
            | None => log s
            end in
  (inr tt, {| calls := calls s; writes := writes s ++ [wr]; log := lg |}).

Definition record_call (c : ProviderCall) : M nat := fun s =>
  (inr (length (calls s)),
   {| calls := calls s ++ [c]; writes := writes s; log := log s |}).

End Eff.

(** Both enrichment handlers carry their own copy of this table. *)
Definition COUNTRY_TO_LOCATION : JS.obj Z :=
  [ ("UK", 2826%Z); ("US", 2840%Z); ("UAE", 2784%Z);
    ("AU", 2036%Z); ("SG", 2702%Z); ("HK", 2344%Z) ].

(** [COUNTRY_TO_LOCATION[country] || 2826]. An inherited member of
    [Object.prototype] is truthy and is not a number. *)
Definition locationCode (country : string) : option Z :=
  match js_get COUNTRY_TO_LOCATION country with
  | Own n => if (n =? 0)%Z then Some 2826%Z else Some n
  | Inherited => None
  | Absent => Some 2826%Z
  end.

(** What [fetchDataForSEO] and [fetchSERP] return: [{ error }] or the list. *)
Module ProviderResponse.
Record t (T : Type) := {
  error : option string;
  results : option T
}.
Arguments error {T} _.
Arguments results {T} _.
End ProviderResponse.

Definition credentials_missing (e : Env) : bool :=
  negb (JS.str_truthy (DATAFORSEO_LOGIN e)) || negb (JS.str_truthy (DATAFORSEO_PASSWORD e)).

(* ===================================================================== *)
(** ** api/enrich/keywords.js *)
(* ===================================================================== *)

Module EnrichKeywords.
Import Errors Eff.

(** [req.body]: [None] is an absent (or [null]) field. *)
Record Body := {
  keyword_ids : option (list string);
  keywords : option (list Inline.t)
}.

(** [meta] of the success envelope. *)
Record Meta := { count : nat }.

Definition fetchDataForSEO (w : World) (keywords : list string)
    (locationCode : option Z) : M (ProviderResponse.t (list MetricsResult.t)) :=
  if credentials_missing (env w) then
    throw (ThrowApp (ValidationError "DataForSEO credentials not configured" None))
  else
    n ← record_call (CallSearchVolume keywords locationCode);
    match fetch_search_volume w n keywords locationCode with
    | Rejected msg => mret {| ProviderResponse.error := Some msg; ProviderResponse.results := None |}
    | Resolved status_code status_message result =>
        if negb (status_code =? 20000)%Z then
          mret {| ProviderResponse.error := Some (JS.str_or status_message "API request failed");
                  ProviderResponse.results := None |}
        else
          mret {| ProviderResponse.error := None;
                  ProviderResponse.results := Some (default [] result) |}
    end.

(** The callback of [keywordsToEnrich.reduce(..., {})]. *)
Definition byCountry_step (acc : JS.obj (list Keyword.t)) (kw : Keyword.t)
  : Thrown + JS.obj (list Keyword.t) :=
  let country := JS.str_or (Keyword.country kw) "UK" in
  match js_get acc country with
  | Own l => inr (JS.own_set acc country (l ++ [kw]))
  | Inherited => inl (ThrowTypeError "acc[country].push is not a function")
  | Absent => inr (JS.own_set acc country [kw])
  end.

Fixpoint reduce (l : list Keyword.t) (acc : JS.obj (list Keyword.t))
  : Thrown + JS.obj (list Keyword.t) :=
  match l with
  | [] => inr acc
  | kw :: r =>
      match byCountry_step acc kw with
      | inl e => inl e
      | inr acc' => reduce r acc'
      end
  end.

Definition byCountry (keywordsToEnrich : list Keyword.t)
  : Thrown + JS.obj (list Keyword.t) :=
  reduce keywordsToEnrich [].

Definition same_text (result : MetricsResult.t) (k : Keyword.t) : bool :=
  String.eqb (JS.toLowerCase (Keyword.keyword_text k))
             (JS.toLowerCase (MetricsResult.keyword result)).

Definition metric_row (keyword_id : string) (result : MetricsResult.t) : KeywordMetric.t :=
  {| KeywordMetric.keyword_id := keyword_id;
     KeywordMetric.search_volume := JS.js_or (MetricsResult.search_volume result) (JS.JNum 0);
     KeywordMetric.difficulty := JS.js_or (MetricsResult.keyword_difficulty result) (JS.JNum 0);
     KeywordMetric.cpc := JS.js_or (MetricsResult.cpc result) (JS.JNum 0);
     KeywordMetric.competition := JS.js_or (MetricsResult.competition result) (JS.JNum 0) |}.

Definition enriched (country : string) (result : MetricsResult.t) : Enriched.t :=
  {| Enriched.keyword := MetricsResult.keyword result;
     Enriched.country := country;
     Enriched.search_volume := JS.js_or (MetricsResult.search_volume result) (JS.JNum 0);
     Enriched.difficulty := JS.js_or (MetricsResult.keyword_difficulty result) (JS.JNum 0);
     Enriched.cpc := JS.js_or (MetricsResult.cpc result) (JS.JNum 0);
     Enriched.competition := JS.js_or (MetricsResult.competition result) (JS.JNum 0) |}.

(** Body of [for (const result of response.results || [])]. *)
Definition process_result (w : World) (country : string) (kws : list Keyword.t)
    (results : list Enriched.t) (result : MetricsResult.t) : M (list Enriched.t) :=
  let keyword := List.find (same_text result) kws in
  (match keyword with
   | Some k =>
       if JS.str_truthy (Keyword.id k) then
         insert w (WMetric (metric_row (default "" (Keyword.id k)) result))
                "Failed to insert metrics:"
       else mret tt
   | None => mret tt
   end);;
  mret (results ++ [enriched country result]).

(** Body of [for (const [country, kws] of Object.entries(byCountry))]. *)
Definition process_group (w : World) (results : list Enriched.t)
    (group : string * list Keyword.t) : M (list Enriched.t) :=
  let '(country, kws) := group in
  let locationCode := locationCode country in
  response ← fetchDataForSEO w (List.map Keyword.keyword_text kws) locationCode;
  if JS.str_truthy (ProviderResponse.error response) then
    throw (ThrowApp (ExternalApiError "DataForSEO"
             (default "" (ProviderResponse.error response))))
  else
    foldM (process_result w country kws)
          (default [] (ProviderResponse.results response)) results.

Definition inline_entry (k : Inline.t) : Keyword.t :=
  {| Keyword.id := None;
     Keyword.keyword_text := Inline.text k;
     Keyword.country := Inline.country k |}.

(** The [try] block of [handler]. *)
Definition run (w : World) (req : Request Body) : M (list Enriched.t) :=
  if negb (Auth.verifyApiKey (env w) req) then throw (ThrowApp UnauthorizedError)
  else
    lift (Validate.validateMethod req "POST");;
    let keyword_ids := keyword_ids (req_body req) in
    let keywords := keywords (req_body req) in
    if negb (bool_decide (is_Some keyword_ids)) && negb (bool_decide (is_Some keywords)) then
      throw (ThrowApp (ValidationError
               "Must provide either keyword_ids or keywords array" None))
    else
      keywordsToEnrich ←
        (match keyword_ids, keywords with
         | Some ids, _ =>
             if (0 <? length ids)%nat then
               match select_keywords w ids with
               | inl dbError => throw (ThrowApp (mapSupabaseError dbError "select"))
               | inr data => mret data
               end
             else
               match keywords with
               | Some ks => if (0 <? length ks)%nat then mret (List.map inline_entry ks)
                            else mret []
               | None => mret []
               end
         | None, Some ks =>
             if (0 <? length ks)%nat then mret (List.map inline_entry ks) else mret []
         | None, None => mret []
         end);
      if (length keywordsToEnrich =? 0)%nat then
        throw (ThrowApp (ValidationError "No keywords found to enrich" None))
      else if (100 <? length keywordsToEnrich)%nat then
        throw (ThrowApp (ValidationError "Maximum 100 keywords per request"
                 (Some (DReceivedMaximum (length keywordsToEnrich) 100))))
      else
        byCountry ← lift (byCountry keywordsToEnrich);
        foldM (process_group w) (JS.Object_entries byCountry) [].

(** [handler]: the [try] block, then [success] or, from [catch], [error]. *)
Definition handler (w : World) (req : Request Body)
  : Response.t (list Enriched.t) Meta * St :=
  match run w req init with
  | (inr results, s) => (Response.success results {| count := length results |}, s)
  | (inl err, s) => (Response.error err, s)
  end.

End EnrichKeywords.

(* ===================================================================== *)
(** ** api/enrich/serp.js *)
(* ===================================================================== *)

(** What is known of the runtime's URL parser, which the handlers reach
    through [URL_hostname] of the world. [fragment_hostname] describes it on
    a fragment of the URL standard only: [http://] or [https://] (any case),
    then a host made of ASCII letters, digits, [-] and [.] that ends at the
    first [/], [\], [?] or [#], with no [xn--] label and a last label that
    starts with a letter; there the host name is that host in lower case.
    [None] means that the URL lies outside the fragment (a port,
    credentials, a numeric host, another scheme, ...), not that the
    constructor throws. [no_colon] recognises strings that hold no scheme, on
    which the constructor does throw. *)
Module Url.

Definition host_char (c : ascii) : bool :=
  JS.is_upper c || JS.is_lower c || JS.is_digit c
  || Ascii.eqb c "-" || Ascii.eqb c ".".

Definition host_end (c : ascii) : bool :=
  Ascii.eqb c "/" || Ascii.eqb c "\" || Ascii.eqb c "?" || Ascii.eqb c "#".

(** The authority: everything before the first terminator. *)
Fixpoint authority (s : string) : string :=
  match s with
  | EmptyString => EmptyString
  | String c r => if host_end c then EmptyString else String c (authority r)
  end.

Fixpoint all_chars (p : ascii -> bool) (s : string) : bool :=
  match s with
  | EmptyString => true
  | String c r => p c && all_chars p r
  end.

(** The labels of a host, split at the dots. *)
Fixpoint labels (cur : string) (s : string) : list string :=
  match s with
  | EmptyString => [cur]
  | String c r =>
      if Ascii.eqb c "." then cur :: labels EmptyString r
      else labels (cur +:+ String c EmptyString) r
  end.

Definition starts_with_letter (l : string) : bool :=
  match l with
  | EmptyString => false
  | String c _ => JS.is_lower c
  end.

Definition host_in_fragment (h : string) : bool :=
  let ls := labels EmptyString h in
  all_chars host_char h
  && forallb (fun l => negb (String.prefix "xn--" l)) ls
  && match last ls with
     | Some l => starts_with_letter l
     | None => false
     end.

Definition after_scheme (url : string) : option string :=
  if String.prefix "http://" (JS.toLowerCase (String.substring 0 7 url)) then
    Some (JS.drop_string 7 url)
  else if String.prefix "https://" (JS.toLowerCase (String.substring 0 8 url)) then
    Some (JS.drop_string 8 url)
  else None.

Definition fragment_hostname (url : string) : option string :=
  match after_scheme url with
  | Some rest =>
      let h := JS.toLowerCase (authority rest) in
      if host_in_fragment h then Some h else None
  | None => None
  end.

Definition no_colon (s : string) : bool :=
  all_chars (fun c => negb (Ascii.eqb c ":")) s.

End Url.

Module EnrichSerp.
Import Errors Eff.

Definition HOXTON_DOMAIN : string := "hoxtonwealth.com".

(** [req.body.keyword_ids]: absent (or [null]), a value that is not an array
    (with its [typeof]), or an array of identifiers. *)
Inductive KeywordIds :=
| Missing
| NotArray (typeof : string)
| Ids (ids : list string).

Record Body := { keyword_ids : KeywordIds }.

Record Meta := {
  keywords_processed : nat;
  serp_records : nat;
  competitor_records : nat
}.

(** An organic item as [fetchSERP] returns it. *)
Record Organic := {
  rank_absolute : JS.jsval;
  url : string;
  domain : JS.jsval;
  title : JS.jsval
}.

Record SerpData := {
  error : option string;
  items : option (list Organic)
}.

Definition organic (item : SerpItem.t) : Organic :=
  {| rank_absolute := SerpItem.rank_absolute item;
     url := SerpItem.url item;
     domain := SerpItem.domain item;
     title := SerpItem.title item |}.

Definition fetchSERP (w : World) (keyword : string) (locationCode : option Z)
  : M SerpData :=
  if credentials_missing (env w) then
    throw (ThrowApp (ValidationError "DataForSEO credentials not configured" None))
  else
    n ← record_call (CallSerp keyword locationCode);
    match fetch_serp w n keyword locationCode with
    | Rejected msg => mret {| error := Some msg; items := None |}
    | Resolved status_code status_message result =>
        if negb (status_code =? 20000)%Z then
          mret {| error := Some (JS.str_or status_message "SERP API request failed");
                  items := None |}
        else
          let items := default [] result in
          let organicResults :=
            List.map organic
              (List.filter (fun item => String.eqb (SerpItem.type item) "organic") items) in
          mret {| error := None; items := Some organicResults |}
    end.

(** [parsed.hostname.replace(/^www\./, '')]. *)
Definition strip_www (hostname : string) : string :=
  if String.prefix "www." hostname then JS.drop_string 4 hostname else hostname.

(** [try { return new URL(url).hostname.replace(...) } catch { return url }]. *)
Definition extractDomain (w : World) (url : string) : string :=
  match URL_hostname w url with
  | Some hostname => strip_www hostname
  | None => url
  end.

(** [new Map((competitors || []).map(c => [c.domain, c.id]))]: a later pair
    with the same domain replaces an earlier one. *)
Definition competitor_map (competitors : option (list Competitor.t))
  : gmap string string :=
  foldl (fun m c => <[Competitor.domain c := Competitor.id c]> m) ∅
        (default [] competitors).

Definition serp_record (w : World) (keyword : Keyword.t) (item : Organic)
  : SerpRanking.t :=
  let domain := extractDomain w (url item) in
  let isHoxton := JS.includes HOXTON_DOMAIN domain in
  {| SerpRanking.keyword_id := Keyword.id keyword;
     SerpRanking.position := rank_absolute item;
     SerpRanking.url := url item;
     SerpRanking.domain := domain;
     SerpRanking.title := title item;
     SerpRanking.is_hoxton := isHoxton |}.

(** Body of [for (const item of serpData.items || [])], on the two arrays
    [serpRecords] and [competitorRecords]. *)
Definition process_item (w : World) (competitorDomains : gmap string string)
    (keyword : Keyword.t)
    (acc : list SerpRanking.t * list CompetitorRanking.t) (item : Organic)
  : list SerpRanking.t * list CompetitorRanking.t :=
  let '(serpRecords, competitorRecords) := acc in
  let domain := extractDomain w (url item) in
  let serpRecords := serpRecords ++ [serp_record w keyword item] in
  let competitorId := competitorDomains !! domain in
  if JS.str_truthy competitorId then
    (serpRecords,
     competitorRecords ++
       [ {| CompetitorRanking.keyword_id := Keyword.id keyword;
            CompetitorRanking.competitor_id := default "" competitorId;
            CompetitorRanking.position := rank_absolute item;
            CompetitorRanking.url := url item |} ])
  else (serpRecords, competitorRecords).

Definition hoxton_position (w : World) (items : option (list Organic)) : JS.jsval :=
  match items with
  | Some l =>
      match List.find (fun i => JS.includes HOXTON_DOMAIN (extractDomain w (url i))) l with
      | Some i => JS.js_or (rank_absolute i) JS.JNull
      | None => JS.JNull
      end
  | None => JS.JNull
  end.

(** The three arrays the loop over the keywords fills. *)
Record Acc := {
  results : list SerpEntry;
  serpRecords : list SerpRanking.t;
  competitorRecords : list CompetitorRanking.t
}.

(** The property key [keyword.country] turns into. *)
Definition country_key (country : option string) : string := default "null" country.

(** Body of [for (const keyword of keywords)]. *)
Definition process_keyword (w : World) (competitorDomains : gmap string string)
    (acc : Acc) (keyword : Keyword.t) : M Acc :=
  let locationCode := locationCode (country_key (Keyword.country keyword)) in
  serpData ← fetchSERP w (Keyword.keyword_text keyword) locationCode;
  if JS.str_truthy (error serpData) then
    mret {| results := results acc ++
              [SerpFailed (Keyword.keyword_text keyword) (default "" (error serpData))];
            serpRecords := serpRecords acc;
            competitorRecords := competitorRecords acc |}
  else
    let '(sr, cr) :=
      fold_left (process_item w competitorDomains keyword)
                (default [] (items serpData))
                (serpRecords acc, competitorRecords acc) in
    mret {| results := results acc ++
              [SerpSummary (Keyword.keyword_text keyword) (Keyword.country keyword)
                 (length (default [] (items serpData)))
                 (hoxton_position w (items serpData))];
            serpRecords := sr;
            competitorRecords := cr |}.

(** [body.keyword_ids !== undefined && body.keyword_ids !== null]. *)
Definition provided (k : KeywordIds) : bool :=
  match k with
  | Missing => false
  | _ => true
  end.

Definition actual_type (k : KeywordIds) : string :=
  match k with
  | Missing => "undefined"
  | NotArray t => t
  | Ids _ => "array"
  end.

(** The [try] block of [handler]. *)
Definition run (w : World) (req : Request Body) : M Acc :=
  if negb (Auth.verifyApiKey (env w) req) then throw (ThrowApp UnauthorizedError)
  else
    lift (Validate.validateMethod req "POST");;
    lift (Validate.validateRequired
            (fun f => String.eqb f "keyword_ids"
                      && provided (keyword_ids (req_body req)))
            ["keyword_ids"]);;
    lift (Validate.validateType (actual_type (keyword_ids (req_body req)))
            "keyword_ids" "array");;
    let keyword_ids := match keyword_ids (req_body req) with Ids l => l | _ => [] end in
    if (length keyword_ids =? 0)%nat then
      throw (ThrowApp (ValidationError "keyword_ids array cannot be empty" None))
    else if (50 <? length keyword_ids)%nat then
      throw (ThrowApp (ValidationError "Maximum 50 keywords per SERP request"
               (Some (DReceivedMaximum (length keyword_ids) 50))))
    else
      match select_keywords w keyword_ids with
      | inl dbError => throw (ThrowApp (mapSupabaseError dbError "select"))
      | inr keywords =>
          if (length keywords =? 0)%nat then
            throw (ThrowApp (ValidationError "No keywords found with provided IDs" None))
          else
            let competitorDomains := competitor_map (select_competitors w) in
            acc ← foldM (process_keyword w competitorDomains) keywords
                    {| results := []; serpRecords := []; competitorRecords := [] |};
            (if (0 <? length (serpRecords acc))%nat then
               insert w (WSerp (serpRecords acc)) "Failed to insert SERP records:"
             else mret tt);;
            (if (0 <? length (competitorRecords acc))%nat then
               insert w (WCompetitor (competitorRecords acc))
                      "Failed to insert competitor records:"
             else mret tt);;
            mret acc
      end.

Definition handler (w : World) (req : Request Body)
  : Response.t (list SerpEntry) Meta * St :=
  match run w req init with
  | (inr acc, s) =>
      (Response.success (results acc)
         {| keywords_processed := length (results acc);
            serp_records := length (serpRecords acc);
            competitor_records := length (competitorRecords acc) |}, s)
  | (inl err, s) => (Response.error err, s)
  end.

End EnrichSerp.

(* ===================================================================== *)
(** ** api/keywords/batch.js *)
(* ===================================================================== *)

(** An element of [preparedKeywords]. *)
Module PreparedKeyword.
Record t := {
  keyword_text : string;
  country : string;
  cluster : option string;
  page_id : option string
}.
Definition key (p : t) : string * string := (keyword_text p, country p).
End PreparedKeyword.

(** A row of [keywords] as [select()] returns it; [id] stands for the
    generated identifier. *)
Module StoredKeyword.
Record t := {
  id : nat;
  keyword_text : string;
  country : string;
  cluster : option string;
  page_id : option string
}.
Definition key (r : t) : string * string := (keyword_text r, country r).
End StoredKeyword.

Module KeywordsBatch.
Import Errors.

Definition VALID_COUNTRIES : list string :=
  ["UK"; "US"; "UAE"; "AU"; "CA"; "SG"; "HK"].

(** [req.body.keywords]. *)
Inductive KeywordsField :=
| Missing
| NotArray (typeof : string)
| Keywords (l : list string).

Record Body := {
  keywords : KeywordsField;
  country : option string;
  cluster : option string;
  page_id : option string
}.

Record Meta := { count : nat }.

Definition provided (k : KeywordsField) : bool :=
  match k with
  | Missing => false
  | _ => true
  end.

Definition actual_type (k : KeywordsField) : string :=
  match k with
  | Missing => "undefined"
  | NotArray t => t
  | Keywords _ => "array"
  end.

Definition prepare (country : string) (cluster page_id : option string) (kw : string)
  : PreparedKeyword.t :=
  {| PreparedKeyword.keyword_text := JS.toLowerCase (JS.trim kw);
     PreparedKeyword.country := JS.toUpperCase country;
     PreparedKeyword.cluster := cluster;
     PreparedKeyword.page_id := page_id |}.

(** The [try] block of [handler]; [upsert] is
    [supabase.from('keywords').upsert(rows, { onConflict:
    'keyword_text,country', ignoreDuplicates: false }).select()]. *)
Definition run
    (upsert : list PreparedKeyword.t -> StoreError + list StoredKeyword.t)
    (env : Env) (req : Request Body) : Thrown + list StoredKeyword.t :=
  if negb (Auth.verifyApiKey env req) then inl (ThrowApp UnauthorizedError)
  else
    _ ← Validate.validateMethod req "POST";
    _ ← Validate.validateRequired
          (fun f => (String.eqb f "keywords" && provided (keywords (req_body req)))
                    || (String.eqb f "country"
                        && bool_decide (is_Some (country (req_body req)))))
          ["keywords"; "country"];
    _ ← Validate.validateType (actual_type (keywords (req_body req))) "keywords" "array";
    let country := default "" (country (req_body req)) in
    _ ← Validate.validateEnum (JS.toUpperCase country) "country" VALID_COUNTRIES;
    let keywords := match keywords (req_body req) with Keywords l => l | _ => [] end in
    let cluster := cluster (req_body req) in
    let page_id := page_id (req_body req) in
    if (length keywords =? 0)%nat then
      inl (ThrowApp (ValidationError "Keywords array cannot be empty" None))
    else if (1000 <? length keywords)%nat then
      inl (ThrowApp (ValidationError "Maximum 1000 keywords per batch"
             (Some (DReceivedMaximum (length keywords) 1000))))
    else
      let preparedKeywords := List.map (prepare country cluster page_id) keywords in
      match upsert preparedKeywords with
      | inl dbError => inl (ThrowApp (mapSupabaseError dbError "upsert"))
      | inr data => inr data
      end.

Definition handler
    (upsert : list PreparedKeyword.t -> StoreError + list StoredKeyword.t)
    (env : Env) (req : Request Body) : Response.t (list StoredKeyword.t) Meta :=
  match run upsert env req with
  | inr data => Response.success data {| count := length data |}
  | inl err => Response.error err
  end.

End KeywordsBatch.

(** Modelled from the spec: the store behind [supabase] (lib/supabase.js and
    the [keywords] table of the database), which is not part of the handler
    sources. The table holds at most one row per (keyword_text, country)
    pair; an upsert is an insert-or-update keyed by the declared conflict
    columns, in which duplicates collapse instead of producing duplicate
    rows; [select()] returns the rows the statement inserted or updated. *)
Module Store.

Definition table : Type := list StoredKeyword.t.

Definition keys (t : table) : list (string * string) := List.map StoredKeyword.key t.

Definition conflicts (p : PreparedKeyword.t) (r : StoredKeyword.t) : bool :=
  bool_decide (StoredKeyword.key r = PreparedKeyword.key p).

Definition update (p : PreparedKeyword.t) (r : StoredKeyword.t) : StoredKeyword.t :=
  if conflicts p r then
    {| StoredKeyword.id := StoredKeyword.id r;
       StoredKeyword.keyword_text := PreparedKeyword.keyword_text p;
       StoredKeyword.country := PreparedKeyword.country p;
       StoredKeyword.cluster := PreparedKeyword.cluster p;
       StoredKeyword.page_id := PreparedKeyword.page_id p |}
  else r.

Definition fresh (p : PreparedKeyword.t) (t : table) : StoredKeyword.t :=
  {| StoredKeyword.id := S (foldr Nat.max 0 (List.map StoredKeyword.id t));
     StoredKeyword.keyword_text := PreparedKeyword.keyword_text p;
     StoredKeyword.country := PreparedKeyword.country p;
     StoredKeyword.cluster := PreparedKeyword.cluster p;
     StoredKeyword.page_id := PreparedKeyword.page_id p |}.

Definition upsert_one (t : table) (p : PreparedKeyword.t) : table :=
  if existsb (conflicts p) t then List.map (update p) t else t ++ [fresh p t].

Definition upsert_all (rows : list PreparedKeyword.t) (t : table) : table :=
  fold_left upsert_one rows t.

Definition touched (rows : list PreparedKeyword.t) (r : StoredKeyword.t) : bool :=
  existsb (fun p => conflicts p r) rows.

(** The [{ data, error }] of the upsert followed by [select()]. *)
Definition upsert (t : table) (rows : list PreparedKeyword.t)
  : Errors.StoreError + list StoredKeyword.t :=
  inr (List.filter (touched rows) (upsert_all rows t)).

End Store.

(* ===================================================================== *)
(** ** api/pages/index.js and api/competitors/index.js *)
(* ===================================================================== *)

(** How the promise of an async handler settles: a response was written, or
    the promise rejected with nothing written. In [handler], the [catch]
    sees what is thrown while the [try] block itself runs; [return
    handleGet(req, res)] hands back the promise of the inner async function
    without awaiting it, so a rejection of that promise bypasses the
    [catch]. *)
Inductive Outcome (D Mt : Type) :=
| Responded (r : Response.t D Mt)
| Unhandled (e : Errors.Thrown).
Arguments Responded {D Mt} r.
Arguments Unhandled {D Mt} e.

Definition settle {D Mt} (r : Errors.Thrown + Response.t D Mt) : Outcome D Mt :=
  match r with
  | inr resp => Responded resp
  | inl e => Unhandled e
  end.

(** Destructuring default [x = d]: used when the property is [undefined]. *)
Definition default_undefined (v d : JS.jsval) : JS.jsval :=
  match v with
  | JS.JUndefined => d
  | _ => v
  end.

Module Pages.
Import Errors.

Record Body := {
  page_name : option string;
  url : option string;
  cluster : option string;
  level : JS.jsval;
  parent_page : JS.jsval;
  sibling_links : JS.jsval;
  cross_cluster_links : JS.jsval;
  content_focus : JS.jsval
}.

Record Query := { q_cluster : option string; q_level : option string }.

Record Req := { query : Query; body : Body }.

(** The object passed to [insert]. *)
Record Row := {
  r_page_name : string;
  r_url : string;
  r_cluster : string;
  r_level : JS.jsval;
  r_parent_page : JS.jsval;
  r_sibling_links : JS.jsval;
  r_cross_cluster_links : JS.jsval;
  r_content_focus : JS.jsval
}.

Record Page := { id : string; row : Row }.

(** The store as this endpoint uses it: the ordered select with the [eq]
    filters that were applied ([level] before [parseInt]), and the insert. *)
Record PagesStore := {
  select_pages : option string -> option string -> StoreError + list Page;
  insert_page : Row -> StoreError + Page
}.

Inductive Data :=
| PageList (l : list Page)
| OnePage (p : Page).

(** [meta]: the [count] of a listing. *)
Definition Meta : Type := option nat.

Definition truthy_filter (o : option string) : option string :=
  if JS.str_truthy o then o else None.

Definition handleGet (st : PagesStore) (req : Request Req)
  : Thrown + Response.t Data Meta :=
  let cluster := q_cluster (query (req_body req)) in
  let level := q_level (query (req_body req)) in
  match select_pages st (truthy_filter cluster) (truthy_filter level) with
  | inl dbError => inl (ThrowStore dbError)
  | inr data => inr (Response.success (PageList data) (Some (length data)))
  end.

Definition handlePost (st : PagesStore) (req : Request Req)
  : Thrown + Response.t Data Meta :=
  let b := body (req_body req) in
  let level := default_undefined (level b) (JS.JNum (Q2Qc 2)) in
  let parent_page := default_undefined (parent_page b) JS.JNull in
  let sibling_links := default_undefined (sibling_links b) JS.JNull in
  let cross_cluster_links := default_undefined (cross_cluster_links b) JS.JNull in
  let content_focus := default_undefined (content_focus b) JS.JNull in
  if negb (JS.str_truthy (page_name b)) || negb (JS.str_truthy (url b))
     || negb (JS.str_truthy (cluster b)) then
    inl (ThrowApp (ValidationError "Missing required fields"
           (Some (DRequired ["page_name"; "url"; "cluster"]))))
  else
    match insert_page st
            {| r_page_name := default "" (page_name b);
               r_url := default "" (url b);
               r_cluster := default "" (cluster b);
               r_level := level;
               r_parent_page := parent_page;
               r_sibling_links := sibling_links;
               r_cross_cluster_links := cross_cluster_links;
               r_content_focus := content_focus |} with
    | inl dbError => inl (ThrowStore dbError)
    | inr data => inr (Response.success (OnePage data) None)
    end.

Definition handler (st : PagesStore) (env : Env) (req : Request Req)
  : Outcome Data Meta :=
  if negb (Auth.verifyApiKey env req) then
    Responded (Response.error (ThrowApp UnauthorizedError))
  else if String.eqb (method req) "GET" then settle (handleGet st req)
  else if String.eqb (method req) "POST" then settle (handlePost st req)
  else
    Responded (Response.error (ThrowApp
      (ValidationError ("Method " +:+ method req +:+ " not allowed")
                       (Some (DAllowed ["GET"; "POST"]))))).

End Pages.

Module Competitors.
Import Errors.

Record Body := {
  domain : option string;
  name : option string;
  notes : JS.jsval
}.

Record Row := { r_domain : string; r_name : string; r_notes : JS.jsval }.

Record Competitor := { id : string; row : Row }.

Record CompetitorsStore := {
  select_competitors_by_name : StoreError + list Competitor;
  insert_competitor : Row -> StoreError + Competitor
}.

Inductive Data :=
| CompetitorList (l : list Competitor)
| OneCompetitor (c : Competitor).

Definition Meta : Type := option nat.

(** [replace(/^https?:\/\//, '')]. *)
Definition strip_protocol (s : string) : string :=
  if String.prefix "http://" s then JS.drop_string 7 s
  else if String.prefix "https://" s then JS.drop_string 8 s
  else s.

(** [replace(/\/+$/, '')]. *)
Fixpoint strip_trailing_slashes (s : string) : string :=
  match s with
  | EmptyString => EmptyString
  | String c r =>
      let r' := strip_trailing_slashes r in
      if Ascii.eqb c "/" && String.eqb r' "" then EmptyString else String c r'
  end.

Definition cleanDomain (domain : string) : string :=
  JS.toLowerCase (strip_trailing_slashes (strip_protocol domain)).

Definition handleGet (st : CompetitorsStore) (req : Request Body)
  : Thrown + Response.t Data Meta :=
  match select_competitors_by_name st with
  | inl dbError => inl (ThrowStore dbError)
  | inr data => inr (Response.success (CompetitorList data) (Some (length data)))
  end.

Definition handlePost (st : CompetitorsStore) (req : Request Body)
  : Thrown + Response.t Data Meta :=
  _ ← Validate.validateRequired
        (fun f => (String.eqb f "domain" && bool_decide (is_Some (domain (req_body req))))
                  || (String.eqb f "name" && bool_decide (is_Some (name (req_body req)))))
        ["domain"; "name"];
  let notes := default_undefined (notes (req_body req)) JS.JNull in
  match insert_competitor st
          {| r_domain := cleanDomain (default "" (domain (req_body req)));
             r_name := default "" (name (req_body req));
             r_notes := notes |} with
  | inl dbError => inl (ThrowApp (mapSupabaseError dbError "insert"))
  | inr data => inr (Response.success (OneCompetitor data) None)
  end.

Definition handler (st : CompetitorsStore) (env : Env) (req : Request Body)
  : Outcome Data Meta :=
  if negb (Auth.verifyApiKey env req) then
    Responded (Response.error (ThrowApp UnauthorizedError))
  else if String.eqb (method req) "GET" then settle (handleGet st req)
  else if String.eqb (method req) "POST" then settle (handlePost st req)
  else
    Responded (Response.error (ThrowApp
      (ValidationError ("Method " +:+ method req +:+ " not allowed")
                       (Some (DAllowed ["GET"; "POST"]))))).

End Competitors.

(* ===================================================================== *)
(** ** api/pages/import.js *)
(* ===================================================================== *)

Module PagesImport.
Import Errors.

(** An element of the [pages] array; every field is whatever JSON value the
    caller sent, [JUndefined] when the key is absent. *)
Record PageInput := {
  page_name : JS.jsval;
  url : JS.jsval;
  cluster : JS.jsval;
  level : JS.jsval;
  parent_page : JS.jsval;
  sibling_links : JS.jsval;
  cross_cluster_links : JS.jsval;
  content_focus : JS.jsval
}.

(** [req.body.pages]. *)
Inductive PagesField :=
| Missing
| NotArray (typeof : string)
| Pages (l : list PageInput).

Record Body := { pages : PagesField }.

Record Meta := { count : nat }.

(** A row as [select()] returns it after the upsert. *)
Record StoredPage := { id : string; row : PageInput }.

Definition provided (k : PagesField) : bool :=
  match k with
  | Missing => false
  | _ => true
  end.

Definition actual_type (k : PagesField) : string :=
  match k with
  | Missing => "undefined"
  | NotArray t => t
  | Pages _ => "array"
  end.

Definition requiredFields : list string := ["page_name"; "url"; "cluster"].

(** [page[field]] for the three required fields. *)
Definition get (page : PageInput) (field : string) : JS.jsval :=
  if String.eqb field "page_name" then page_name page
  else if String.eqb field "url" then url page
  else if String.eqb field "cluster" then cluster page
  else JS.JUndefined.

(** [requiredFields.forEach(field => { if (!page[field]) throw ... })]. *)
Fixpoint check_fields (page : PageInput) (index : nat) (fields : list string)
  : Thrown + unit :=
  match fields with
  | [] => inr tt
  | field :: r =>
      if negb (JS.truthy (get page field)) then
        inl (ThrowApp (ValidationError
               ("Page at index " +:+ pretty index +:+
                " missing required field: " +:+ field) None))
      else check_fields page index r
  end.

(** [pages.forEach((page, index) => ...)], from [index] on. *)
Fixpoint check_pages (index : nat) (pages : list PageInput) : Thrown + unit :=
  match pages with
  | [] => inr tt
  | page :: r =>
      match check_fields page index requiredFields with
      | inl e => inl e
      | inr _ => check_pages (S index) r
      end
  end.

Definition prepare (page : PageInput) : PageInput :=
  {| page_name := page_name page;
     url := url page;
     cluster := cluster page;
     level := JS.js_or (level page) (JS.JNum (Q2Qc 2));
     parent_page := JS.js_or (parent_page page) JS.JNull;
     sibling_links := JS.js_or (sibling_links page) JS.JNull;
     cross_cluster_links := JS.js_or (cross_cluster_links page) JS.JNull;
     content_focus := JS.js_or (content_focus page) JS.JNull |}.

(** The [try] block of [handler]; [upsert] is
    [supabase.from('pages').upsert(rows, { onConflict: 'url' }).select()]. *)
Definition run (upsert : list PageInput -> StoreError + list StoredPage)
    (env : Env) (req : Request Body) : Thrown + list StoredPage :=
  if negb (Auth.verifyApiKey env req) then inl (ThrowApp UnauthorizedError)
  else
    _ ← Validate.validateMethod req "POST";
    _ ← Validate.validateRequired
          (fun f => String.eqb f "pages" && provided (pages (req_body req))) ["pages"];
    _ ← Validate.validateType (actual_type (pages (req_body req))) "pages" "array";
    let pages := match pages (req_body req) with Pages l => l | _ => [] end in
    if (length pages =? 0)%nat then
      inl (ThrowApp (ValidationError "Pages array cannot be empty" None))
    else
      _ ← check_pages 0 pages;
      let preparedPages := List.map prepare pages in
      match upsert preparedPages with
      | inl dbError => inl (ThrowApp (mapSupabaseError dbError "upsert"))
      | inr data => inr data
      end.

Definition handler (upsert : list PageInput -> StoreError + list StoredPage)
    (env : Env) (req : Request Body) : Response.t (list StoredPage) Meta :=
  match run upsert env req with
  | inr data => Response.success data {| count := length data |}
  | inl err => Response.error err
  end.

End PagesImport.

(* ===================================================================== *)
(** ** api/keywords/index.js *)
(* ===================================================================== *)

(** JavaScript numbers as far as [parseInt] and sums of its results reach:
    [NaN], the two infinities, and the integers a double holds. [-0] is
    identified with [0]; neither template strings nor [JSON.stringify] tell
    them apart. *)
Module Num.

Inductive t :=
| NaN
| Infinity (negative : bool)
| Int (z : Z).

(** The largest magnitude up to which every integer is a double, 2^53. *)
Definition exact_bound : Z := 9007199254740992.

(** The double nearest to the integer [n > 2^53], ties to even: [n] keeps
    its 53 leading bits [q], rounded by the remaining bits [r]. *)
Definition round_magnitude (n : Z) : Z :=
  let e := (Z.log2 n - 52)%Z in
  let q := Z.shiftr n e in
  let r := Z.land n (Z.ones e) in
  let half := Z.shiftl 1 (e - 1) in
  let q' := if (half <? r)%Z || ((r =? half)%Z && Z.odd q) then (q + 1)%Z else q in
  Z.shiftl q' e.

(** The number an integer becomes; a magnitude that rounds to 2^1024 or
    more overflows. *)
Definition of_Z (z : Z) : t :=
  if (Z.abs z <=? exact_bound)%Z then Int z
  else
    let m := round_magnitude (Z.abs z) in
    if (Z.shiftl 1 1024 <=? m)%Z then Infinity (z <? 0)%Z
    else Int (Z.sgn z * m)%Z.

(** [a + b]. *)
Definition add (a b : t) : t :=
  match a, b with
  | NaN, _ | _, NaN => NaN
  | Infinity s1, Infinity s2 => if Bool.eqb s1 s2 then Infinity s1 else NaN
  | Infinity s1, Int _ => Infinity s1
  | Int _, Infinity s2 => Infinity s2
  | Int x, Int y => of_Z (x + y)
  end.

End Num.

(** [parseInt(s, 10)] on a string of ASCII characters: leading white space,
    an optional sign, then the longest run of decimal digits, whose value is
    rounded to a double; [NaN] when there is no digit. *)
Module ParseInt.

Fixpoint digits (acc : option N) (s : string) : option N :=
  match s with
  | EmptyString => acc
  | String c r =>
      if JS.is_digit c then
        digits (Some (10 * default 0 acc + (N_of_ascii c - 48))%N) r
      else acc
  end.

Definition number (negative : bool) (d : option N) : Num.t :=
  match d with
  | Some n => Num.of_Z (if negative then - Z.of_N n else Z.of_N n)
  | None => Num.NaN
  end.

Definition parseInt (s : string) : Num.t :=
  match JS.trimStart s with
  | String c r =>
      if Ascii.eqb c "-" then number true (digits None r)
      else if Ascii.eqb c "+" then number false (digits None r)
      else number false (digits None (String c r))
  | EmptyString => Num.NaN
  end.

End ParseInt.

Module KeywordsList.
Import Errors.

(** [req.query]; [None] is an absent parameter. *)
Record Query := {
  country : option string;
  cluster : option string;
  page_id : option string;
  limit : option string;
  offset : option string
}.

(** The query sent to the store: the bounds of [range] and the [eq] filters
    that were applied. *)
Record Select := {
  range_from : Num.t;
  range_to : Num.t;
  eq_country : option string;
  eq_cluster : option string;
  eq_page_id : option string
}.

Record Meta := { count : nat; m_limit : Num.t; m_offset : Num.t }.

(** [parseInt(x, 10)] where [x] defaults to the number [d]. *)
Definition parse_or (x : option string) (d : Z) : Num.t :=
  match x with
  | Some s => ParseInt.parseInt s
  | None => Num.of_Z d
  end.

Definition build (q : Query) : Select :=
  let from := parse_or (offset q) 0 in
  let to := Num.add (Num.add from (parse_or (limit q) 100)) (Num.Int (-1)) in
  {| range_from := from;
     range_to := to;
     eq_country := if JS.str_truthy (country q)
                   then Some (JS.toUpperCase (default "" (country q))) else None;
     eq_cluster := if JS.str_truthy (cluster q) then cluster q else None;
     eq_page_id := if JS.str_truthy (page_id q) then page_id q else None |}.

Definition handler {Row : Type} (select : Select -> StoreError + list Row)
    (env : Env) (req : Request Query) : Response.t (list Row) Meta :=
  if negb (Auth.verifyApiKey env req) then Response.error (ThrowApp UnauthorizedError)
  else if negb (String.eqb (method req) "GET") then
    Response.error (ThrowApp
      (ValidationError ("Method " +:+ method req +:+ " not allowed")
                       (Some (DAllowed ["GET"]))))
  else
    match select (build (req_body req)) with
    | inl dbError => Response.error (ThrowStore dbError)
    | inr data =>
        Response.success data
          {| count := length data;
             m_limit := parse_or (limit (req_body req)) 100;
             m_offset := parse_or (offset (req_body req)) 0 |}
    end.

End KeywordsList.

(* ===================================================================== *)
(** ** lib/dataforseo.js *)
(* ===================================================================== *)

Module DataForSEO.

(** What the library throws: a plain [Error] with its message, or the
    [TypeError] of a property read on [undefined]. *)
Inductive Err :=
| Error (message : string)
| TypeError.

(** An element of [items] in a SERP result. *)
Record Item := {
  type : string;
  rank_absolute : Z;
  url : string;
  domain : string;
  title : string
}.

(** What [getSerpResults] returns for an organic item. *)
Record Organic := {
  o_rank_absolute : Z;
  o_url : string;
  o_domain : string;
  o_title : string
}.

(** An element of [task.result]: a search-volume row, or a SERP page whose
    [items] may be [null]. *)
Inductive ResultRow :=
| MetricsRow (m : MetricsResult.t)
| SerpPage (items : option (list Item)).

Record Task := {
  t_status_code : Z;
  t_status_message : string;
  t_result : option (list ResultRow)
}.

(** The parsed JSON of the provider's reply. *)
Record Reply := {
  status_code : Z;
  status_message : string;
  tasks : option (list Task)
}.

(** The one-element array posted to the provider. *)
Inductive Payload :=
| MetricsPayload (keywords : list string) (location_code : Z) (language_code : string)
| SerpPayload (keyword : string) (location_code : Z) (language_code : string) (depth : Z).

(** The [Authorization] header: [Basic] followed by the base64 encoding of
    [userpass], which is kept symbolic. *)
Record AuthHeader := Basic { userpass : string }.

Definition BASE_URL : string := "https://api.dataforseo.com".

Definition getAuthHeader (env : Env) : Err + AuthHeader :=
  if negb (JS.str_truthy (DATAFORSEO_LOGIN env))
     || negb (JS.str_truthy (DATAFORSEO_PASSWORD env)) then
    inl (Error "DataForSEO credentials not configured")
  else
    inr (Basic (default "" (DATAFORSEO_LOGIN env) +:+ ":" +:+
                default "" (DATAFORSEO_PASSWORD env))).

Section Requests.

(** [fetch(url, { method: 'POST', headers, body })] followed by
    [response.json()]: a rejection, or the parsed reply. *)
Variable fetch : string -> AuthHeader -> Payload -> Err + Reply.
Variable env : Env.

Definition dataforseoRequest (endpoint : string) (data : Payload)
  : Err + list ResultRow :=
  match getAuthHeader env with
  | inl e => inl e
  | inr auth =>
      match fetch (BASE_URL +:+ endpoint) auth data with
      | inl e => inl e
      | inr result =>
          if negb (status_code result =? 20000)%Z then
            inl (Error ("DataForSEO error " +:+ pretty (status_code result) +:+
                        ": " +:+ status_message result))
          else
            (* [result.tasks?.[0]]; [task?.status_code] is [undefined] when
               there is no task, and [task.status_code] then throws. *)
            match head (default [] (tasks result)) with
            | None => inl TypeError
            | Some task =>
                if negb (t_status_code task =? 20000)%Z then
                  inl (Error ("Task error " +:+ pretty (t_status_code task) +:+
                              ": " +:+ t_status_message task))
                else inr (default [] (t_result task))
            end
      end
  end.

Definition getKeywordMetrics (keywords : list string) (locationCode : Z)
  : Err + list ResultRow :=
  dataforseoRequest "/v3/keywords_data/google_ads/search_volume/live"
    (MetricsPayload keywords locationCode "en").




End Requests.

End DataForSEO.

(* ===================================================================== *)
(** * Specification vocabulary *)
(* ===================================================================== *)

Module Spec.
Import Errors Eff.

(** The status [error(res, err)] answers with. *)
Definition thrown_status (e : Thrown) : Z :=
  match e with
  | ThrowApp a => status a
  | _ => 500%Z
  end.

(** [m] throws only values satisfying [P]. *)
Definition throws_only {A} (P : Thrown -> Prop) (m : M A) : Prop :=
  forall s e s', m s = (inl e, s') -> P e.

Definition not_401 (e : Thrown) : Prop := thrown_status e <> 401%Z.

(** The same world with other outcomes for its inserts. *)
Definition with_insert_errors (w : World)
    (ie : nat -> Write -> option StoreError) : World :=
  {| env := env w;
     select_keywords := select_keywords w;
     select_competitors := select_competitors w;
     fetch_search_volume := fetch_search_volume w;
     fetch_serp := fetch_serp w;
     insert_error := ie;
     URL_hostname := URL_hostname w |}.

Definition no_insert_error : nat -> Write -> option StoreError := fun _ _ => None.

(** *** The key check *)

(** The same environment with another [API_KEY], the same request with
    another [x-api-key] header, the same world in another environment. *)
Definition with_api_key (k : option string) (e : Env) : Env :=
  {| API_KEY := k;
     DATAFORSEO_LOGIN := DATAFORSEO_LOGIN e;
     DATAFORSEO_PASSWORD := DATAFORSEO_PASSWORD e |}.

Definition with_header {B} (k : option string) (req : Request B) : Request B :=
  {| method := method req; x_api_key := k; req_body := req_body req |}.

Definition with_env (e : Env) (w : World) : World :=
  {| env := e;
     select_keywords := select_keywords w;
     select_competitors := select_competitors w;
     fetch_search_volume := fetch_search_volume w;
     fetch_serp := fetch_serp w;
     insert_error := insert_error w;
     URL_hostname := URL_hostname w |}.

(** The answer to a request that fails the key check. *)
Definition unauthorized {D Mt} : Response.t D Mt :=
  {| Response.status := 401;
     Response.body :=
       Response.Failure "UNAUTHORIZED" "Invalid or missing API key" (Some None) |}.

(** An endpoint [h] sits behind the key check when it gives the answer
    [refusal], and with it the status 401, to exactly the requests whose
    header differs from the configured key; when it serves a request that
    passes in the same way whatever the key it passed with; and when, in
    particular, a request without header is not refused where no key is
    configured. *)
Definition behind_key_check {B R} (h : Env -> Request B -> R)
    (status_401 : R -> Prop) (refusal : R) : Prop :=
  forall e req,
    (status_401 (h e req) <-> x_api_key req <> API_KEY e)
    /\ (x_api_key req <> API_KEY e -> h e req = refusal)
    /\ (x_api_key req = API_KEY e ->
        forall k, h (with_api_key k e) (with_header k req) = h e req)
    /\ (API_KEY e = None -> x_api_key req = None -> ~ status_401 (h e req)).

(** Two states that agree on everything but the log. *)
Definition same_effects (s1 s2 : St) : Prop :=
  calls s1 = calls s2 /\ writes s1 = writes s2.

(** Two computations that, from such states, produce the same result and
    again such states. *)
Definition insert_blind {A} (m1 m2 : M A) : Prop :=
  forall s1 s2, same_effects s1 s2 ->
    fst (m1 s1) = fst (m2 s2) /\ same_effects (snd (m1 s1)) (snd (m2 s2)).

(** The line [console.error] prints for a failed insert. *)
Definition write_label (wr : Write) : string :=
  match wr with
  | WMetric _ => "Failed to insert metrics:"
  | WSerp _ => "Failed to insert SERP records:"
  | WCompetitor _ => "Failed to insert competitor records:"
  end.

(** The log that holds one line per failed insert, in order. *)
Definition logged (ie : nat -> Write -> option StoreError) (ws : list Write)
  : list (string * StoreError) :=
  omap (fun p => (fun e => (write_label (snd p), e)) <$> ie (fst p) (snd p))
       (imap pair ws).

Definition log_complete (w : World) (s : St) : Prop :=
  log s = logged (insert_error w) (writes s).

Definition keeps_log (w : World) {A} (m : M A) : Prop :=
  forall s, log_complete w s -> log_complete w (snd (m s)).


(** *** /enrich/keywords *)

(** The country an entry is grouped under: [kw.country || 'UK']. *)
Definition effective_country (kw : Keyword.t) : string :=
  JS.str_or (Keyword.country kw) "UK".

(** The distinct elements of a list in the order of their first occurrence. *)
Definition first_seen (l : list string) : list string :=
  fold_left (fun seen c => if bool_decide (c ∈ seen) then seen else seen ++ [c]) l [].

(** The members of a country group, in their original order. *)
Definition members (c : string) (ws : list Keyword.t) : list Keyword.t :=
  List.filter (fun kw => String.eqb (effective_country kw) c) ws.

(** The stable partition of a working set by country. *)
Definition partition_by_country (ws : list Keyword.t) : list (string * list Keyword.t) :=
  List.map (fun c => (c, members c ws)) (first_seen (List.map effective_country ws)).

(** A country code that a plain object treats like any other key: it is not
    an array index and not the name of a member of [Object.prototype]. *)
Definition plain_country (c : string) : bool :=
  negb (bool_decide (is_Some (JS.array_index c))) && negb (JS.inherited c).

(** The one call issued for a group. *)
Definition planned_call (g : string * list Keyword.t) : ProviderCall :=
  CallSearchVolume (List.map Keyword.keyword_text (snd g)) (locationCode (fst g)).

(** The working set a request resolves to: the stored rows of the given
    identifiers, or else the inline keywords as ephemeral entries; [None]
    when neither input is provided or the lookup fails. *)
Definition resolution (w : World) (b : EnrichKeywords.Body) : option (list Keyword.t) :=
  match EnrichKeywords.keyword_ids b, EnrichKeywords.keywords b with
  | None, None => None
  | Some (i :: ids), _ =>
      match select_keywords w (i :: ids) with
      | inr rows => Some rows
      | inl _ => None
      end
  | _, Some ks => Some (List.map EnrichKeywords.inline_entry ks)
  | Some [], None => Some []
  end.

(** The error message of a provider outcome, as [fetchDataForSEO] and
    [fetchSERP] compute it ([fallback] is the default message). *)
Definition outcome_error {T} (fallback : string) (o : FetchOutcome T) : option string :=
  match o with
  | Rejected msg => Some msg
  | Resolved status_code status_message _ =>
      if (status_code =? 20000)%Z then None
      else Some (JS.str_or status_message fallback)
  end.

(** The result list of a provider outcome. *)
Definition outcome_result {T} (o : FetchOutcome (list T)) : list T :=
  match o with
  | Rejected _ => []
  | Resolved status_code _ result =>
      if (status_code =? 20000)%Z then default [] result else []
  end.

(** A provider call that failed: the transport rejected, or the provider
    answered with a status other than 20000. *)
Definition provider_failed {T} (o : FetchOutcome T) : bool :=
  match o with
  | Rejected _ => true
  | Resolved status_code _ _ => negb (status_code =? 20000)%Z
  end.

(** Rejections carry a message, as the errors raised by [fetch] and by
    [response.json()] do. *)
Definition rejection_has_message {T} (o : FetchOutcome T) : bool :=
  match o with
  | Rejected msg => negb (String.eqb msg "")
  | Resolved _ _ _ => true
  end.

(** The outcome of the call issued for the [j]-th group. *)
Definition group_outcome (w : World) (j : nat) (g : string * list Keyword.t)
  : FetchOutcome (list MetricsResult.t) :=
  fetch_search_volume w j (List.map Keyword.keyword_text (snd g)) (locationCode (fst g)).

(** The inserts a returned record gives rise to within its group. *)
Definition record_writes (kws : list Keyword.t) (r : MetricsResult.t) : list Write :=
  match List.find (EnrichKeywords.same_text r) kws with
  | Some k =>
      match Keyword.id k with
      | Some i => if String.eqb i "" then [] else [WMetric (EnrichKeywords.metric_row i r)]
      | None => []
      end
  | None => []
  end.

Definition group_entries (w : World) (j : nat) (g : string * list Keyword.t)
  : list Enriched.t :=
  List.map (EnrichKeywords.enriched (fst g)) (outcome_result (group_outcome w j g)).

Definition group_writes (w : World) (j : nat) (g : string * list Keyword.t)
  : list Write :=
  flat_map (record_writes (snd g)) (outcome_result (group_outcome w j g)).

(** No group's call, numbered from [n], reports an error. *)
Definition all_groups_ok (w : World) (n : nat) (gs : list (string * list Keyword.t)) : bool :=
  forallb (fun b => b)
    (imap (fun j g => negb (JS.str_truthy
             (outcome_error "API request failed" (group_outcome w (n + j) g)))) gs).


(** *** /enrich/serp *)

(** The organic items of a provider outcome, as [fetchSERP] keeps them. *)
Definition organic_items (o : FetchOutcome (list SerpItem.t)) : list EnrichSerp.Organic :=
  List.map EnrichSerp.organic
    (List.filter (fun item => String.eqb (SerpItem.type item) "organic")
                 (outcome_result o)).

(** The one call issued for a keyword, and its outcome when it is the
    [j]-th call of the request. *)
Definition serp_call (kw : Keyword.t) : ProviderCall :=
  CallSerp (Keyword.keyword_text kw)
           (locationCode (EnrichSerp.country_key (Keyword.country kw))).

Definition serp_outcome (w : World) (j : nat) (kw : Keyword.t)
  : FetchOutcome (list SerpItem.t) :=
  fetch_serp w j (Keyword.keyword_text kw)
             (locationCode (EnrichSerp.country_key (Keyword.country kw))).

Definition serp_error (w : World) (j : nat) (kw : Keyword.t) : option string :=
  outcome_error "SERP API request failed" (serp_outcome w j kw).

(** The competitor rows an item gives rise to. *)
Definition competitor_records (w : World) (cd : gmap string string) (kw : Keyword.t)
    (item : EnrichSerp.Organic) : list CompetitorRanking.t :=
  match cd !! EnrichSerp.extractDomain w (EnrichSerp.url item) with
  | Some cid =>
      if String.eqb cid "" then []
      else [ {| CompetitorRanking.keyword_id := Keyword.id kw;
                CompetitorRanking.competitor_id := cid;
                CompetitorRanking.position := EnrichSerp.rank_absolute item;
                CompetitorRanking.url := EnrichSerp.url item |} ]
  | None => []
  end.

(** What the [j]-th keyword contributes to the three arrays of the loop. *)
Definition keyword_entry (w : World) (j : nat) (kw : Keyword.t) : SerpEntry :=
  if JS.str_truthy (serp_error w j kw) then
    SerpFailed (Keyword.keyword_text kw) (default "" (serp_error w j kw))
  else
    SerpSummary (Keyword.keyword_text kw) (Keyword.country kw)
      (length (organic_items (serp_outcome w j kw)))
      (EnrichSerp.hoxton_position w (Some (organic_items (serp_outcome w j kw)))).

Definition keyword_serp_records (w : World) (j : nat) (kw : Keyword.t)
  : list SerpRanking.t :=
  if JS.str_truthy (serp_error w j kw) then []
  else List.map (EnrichSerp.serp_record w kw) (organic_items (serp_outcome w j kw)).

Definition keyword_competitor_records (w : World) (cd : gmap string string)
    (j : nat) (kw : Keyword.t) : list CompetitorRanking.t :=
  if JS.str_truthy (serp_error w j kw) then []
  else flat_map (competitor_records w cd kw) (organic_items (serp_outcome w j kw)).

(** The two batched inserts at the end of the request. *)
Definition final_writes (sr : list SerpRanking.t) (cr : list CompetitorRanking.t)
  : list Write :=
  (if (0 <? length sr)%nat then [WSerp sr] else [])
  ++ (if (0 <? length cr)%nat then [WCompetitor cr] else []).

(** An entry of the SERP response that reports an error. *)
Definition is_error_entry (e : SerpEntry) : bool :=
  match e with
  | SerpFailed _ _ => true
  | SerpSummary _ _ _ _ => false
  end.

(** *** Strings

    The case functions and [trim] of the model act on ASCII characters, as
    the runtime does on a string that holds no other; [is_ascii] marks the
    strings on which the two agree. *)
Definition is_ascii (s : string) : bool :=
  Url.all_chars (fun c => (N_of_ascii c <? 128)%N) s.

Definition no_upper (s : string) : bool :=
  Url.all_chars (fun c => negb (JS.is_upper c)) s.

Definition no_lower (s : string) : bool :=
  Url.all_chars (fun c => negb (JS.is_lower c)) s.

Definition first_not_ws (s : string) : bool :=
  match s with
  | EmptyString => true
  | String c _ => negb (JS.is_ws c)
  end.

Fixpoint last_not_ws (s : string) : bool :=
  match s with
  | EmptyString => true
  | String c r =>
      match r with
      | EmptyString => negb (JS.is_ws c)
      | String _ _ => last_not_ws r
      end
  end.

(** *** The URL parser *)

(** What the theorems on domains assume of the runtime's URL parser: it
    agrees with [Url.fragment_hostname] on the fragment, and it throws on a
    string that holds no colon, hence no scheme. *)
Definition standard_parser (w : World) : Prop :=
  (forall url h, Url.fragment_hostname url = Some h -> URL_hostname w url = Some h)
  /\ (forall s, Url.no_colon s = true -> URL_hostname w s = None).

(** *** /pages/import *)

(** The first of [page_name], [url], [cluster] whose value is falsy. *)
Definition first_missing (p : PagesImport.PageInput) : option string :=
  if negb (JS.truthy (PagesImport.page_name p)) then Some "page_name"
  else if negb (JS.truthy (PagesImport.url p)) then Some "url"
  else if negb (JS.truthy (PagesImport.cluster p)) then Some "cluster"
  else None.

(** [sent] is [given] when that is truthy and the default [d] otherwise. *)
Definition defaulted (d given sent : JS.jsval) : Prop :=
  (JS.truthy given = true -> sent = given)
  /\ (JS.truthy given = false -> sent = d).

(** A value that [x || d] leaves alone. *)
Definition settled (d v : JS.jsval) : Prop := JS.truthy v = true \/ v = d.

End Spec.

(** ** Concrete requests, stores and provider behaviours *)

Module Fixtures.
Import Errors.

(** A URL parser for the worlds below: the URL standard on the fragment of
    [Url.fragment_hostname], and a constructor that throws elsewhere. *)
Definition parser : string -> option string := Url.fragment_hostname.

Definition env_configured : Env :=
  {| API_KEY := Some "hw-seo-abc123xyz";
     DATAFORSEO_LOGIN := Some "login";
     DATAFORSEO_PASSWORD := Some "password" |}.

(** No [API_KEY] in the environment. *)
Definition env_no_key : Env :=
  {| API_KEY := None;
     DATAFORSEO_LOGIN := Some "login";
     DATAFORSEO_PASSWORD := Some "password" |}.

(** The store's answer to a second insert of the same [url]. *)
Definition unique_violation : StoreError :=
  {| se_code := Some "23505";
     se_message := "duplicate key value violates unique constraint";
     se_constraint := Some "pages_url_key";
     se_column := None |}.

Definition pages_store_taken : Pages.PagesStore :=
  {| Pages.select_pages := fun _ _ => inr [];
     Pages.insert_page := fun _ => inl unique_violation |}.

Definition page_body : Pages.Body :=
  {| Pages.page_name := Some "Retirement Calculator";
     Pages.url := Some "/tools/retirement-calculator";
     Pages.cluster := Some "Tools";
     Pages.level := JS.JUndefined;
     Pages.parent_page := JS.JUndefined;
     Pages.sibling_links := JS.JUndefined;
     Pages.cross_cluster_links := JS.JUndefined;
     Pages.content_focus := JS.JUndefined |}.

Definition post_page : Request Pages.Req :=
  {| method := "POST";
     x_api_key := Some "hw-seo-abc123xyz";
     req_body := {| Pages.query := {| Pages.q_cluster := None; Pages.q_level := None |};
                    Pages.body := page_body |} |}.

Definition competitors_store_empty : Competitors.CompetitorsStore :=
  {| Competitors.select_competitors_by_name := inr [];
     Competitors.insert_competitor := fun r =>
       inr {| Competitors.id := "c-1"; Competitors.row := r |} |}.

(** A provider that answers every call with an empty result. *)
Definition world_quiet (e : Env) : World :=
  {| env := e;
     select_keywords := fun ids =>
       inr (List.map (fun i => {| Keyword.id := Some i;
                                  Keyword.keyword_text := "pension advice";
                                  Keyword.country := Some "UK" |}) ids);
     select_competitors := Some [];
     fetch_search_volume := fun _ _ _ => Resolved 20000 None (Some []);
     fetch_serp := fun _ _ _ => Resolved 20000 None (Some []);
     insert_error := fun _ _ => None;
     URL_hostname := parser |}.

(** A keyword stored for Canada, as /keywords/batch accepts it. *)
Definition world_canada : World :=
  {| env := env_configured;
     select_keywords := fun _ =>
       inr [ {| Keyword.id := Some "k-ca";
                Keyword.keyword_text := "pension advice";
                Keyword.country := Some "CA" |} ];
     select_competitors := Some [];
     fetch_search_volume := fun _ _ _ => Resolved 20000 None (Some []);
     fetch_serp := fun _ _ _ => Resolved 20000 None (Some []);
     insert_error := fun _ _ => None;
     URL_hostname := parser |}.

Definition authorized {B} (m : string) (b : B) : Request B :=
  {| method := m; x_api_key := Some "hw-seo-abc123xyz"; req_body := b |}.

(** Requests that carry no [x-api-key] header. *)
Definition anonymous {B} (m : string) (b : B) : Request B :=
  {| method := m; x_api_key := None; req_body := b |}.

Definition enrich_ids (ids : list string) : EnrichKeywords.Body :=
  {| EnrichKeywords.keyword_ids := Some ids; EnrichKeywords.keywords := None |}.

Definition batch_body : KeywordsBatch.Body :=
  {| KeywordsBatch.keywords := KeywordsBatch.Keywords ["Retirement Planning"];
     KeywordsBatch.country := Some "uk";
     KeywordsBatch.cluster := None;
     KeywordsBatch.page_id := None |}.

Definition competitor_body : Competitors.Body :=
  {| Competitors.domain := Some "https://MoneySupermarket.com/";
     Competitors.name := Some "MoneySupermarket";
     Competitors.notes := JS.JUndefined |}.

(** Inline keywords and a provider that answers with one record per
    keyword, in upper case, leaving out the difficulty. *)
Definition inline (t c : string) : Inline.t :=
  {| Inline.text := t; Inline.country := Some c |}.

Definition inline_body (ks : list Inline.t) : EnrichKeywords.Body :=
  {| EnrichKeywords.keyword_ids := None; EnrichKeywords.keywords := Some ks |}.

Definition three_inline : list Inline.t :=
  [ inline "pension advice" "UK"; inline "retirement planning" "US";
    inline "isa allowance" "UK" ].

Definition volume (k : string) : MetricsResult.t :=
  {| MetricsResult.keyword := JS.toUpperCase k;
     MetricsResult.search_volume := JS.JNum (Q2Qc 1900);
     MetricsResult.keyword_difficulty := JS.JUndefined;
     MetricsResult.cpc := JS.JNum (Q2Qc (5 # 2));
     MetricsResult.competition := JS.JNull |}.

Definition stored (i : string) : Keyword.t :=
  {| Keyword.id := Some i;
     Keyword.keyword_text := "keyword " +:+ i;
     Keyword.country := Some (if String.eqb i "k-2" then "US" else "UK") |}.

Definition world_metrics : World :=
  {| env := env_configured;
     select_keywords := fun ids => inr (List.map stored ids);
     select_competitors :=
       Some [ {| Competitor.id := "c-1"; Competitor.domain := "example.com" |} ];
     fetch_search_volume := fun _ kws _ =>
       Resolved 20000 (Some "Ok.") (Some (List.map volume kws));
     fetch_serp := fun _ _ _ => Resolved 20000 (Some "Ok.") (Some []);
     insert_error := fun n _ => if (n =? 0)%nat then Some unique_violation else None;
     URL_hostname := parser |}.

(** The same provider, unreachable for its second call. *)
Definition world_second_call_down : World :=
  {| env := env_configured;
     select_keywords := fun ids => inr (List.map stored ids);
     select_competitors :=
       Some [ {| Competitor.id := "c-1"; Competitor.domain := "example.com" |} ];
     fetch_search_volume := fun n kws _ =>
       if (n =? 1)%nat then Rejected "fetch failed"
       else Resolved 20000 (Some "Ok.") (Some (List.map volume kws));
     fetch_serp := fun n _ _ =>
       if (n =? 1)%nat then Rejected "fetch failed"
       else Resolved 20000 (Some "Ok.")
              (Some [ {| SerpItem.type := "organic";
                         SerpItem.rank_absolute := JS.JNum (Q2Qc 1);
                         SerpItem.url := "https://www.Example.com/";
                         SerpItem.domain := JS.JStr "www.example.com";
                         SerpItem.title := JS.JStr "Example" |};
                      {| SerpItem.type := "paid";
                         SerpItem.rank_absolute := JS.JNum (Q2Qc 2);
                         SerpItem.url := "https://ads.example.org/";
                         SerpItem.domain := JS.JStr "ads.example.org";
                         SerpItem.title := JS.JStr "Ad" |};
                      {| SerpItem.type := "organic";
                         SerpItem.rank_absolute := JS.JNum (Q2Qc 3);
                         SerpItem.url := "https://www.hoxtonwealth.com/pensions";
                         SerpItem.domain := JS.JStr "www.hoxtonwealth.com";
                         SerpItem.title := JS.JStr "Pensions" |} ]);
     insert_error := fun _ _ => None;
     URL_hostname := parser |}.

(** Pages of an import. *)
Definition import_page : PagesImport.PageInput :=
  {| PagesImport.page_name := JS.JStr "Retirement Calculator";
     PagesImport.url := JS.JStr "/tools/retirement-calculator";
     PagesImport.cluster := JS.JStr "Tools";
     PagesImport.level := JS.JNum (Q2Qc 3);
     PagesImport.parent_page := JS.JStr "/tools";
     PagesImport.sibling_links := JS.JUndefined;
     PagesImport.cross_cluster_links := JS.JStr "";
     PagesImport.content_focus := JS.JUndefined |}.

Definition import_page_no_url : PagesImport.PageInput :=
  {| PagesImport.page_name := JS.JStr "Pension Transfer";
     PagesImport.url := JS.JStr "";
     PagesImport.cluster := JS.JNull;
     PagesImport.level := JS.JUndefined;
     PagesImport.parent_page := JS.JUndefined;
     PagesImport.sibling_links := JS.JUndefined;
     PagesImport.cross_cluster_links := JS.JUndefined;
     PagesImport.content_focus := JS.JUndefined |}.

Definition import_page_no_name : PagesImport.PageInput :=
  {| PagesImport.page_name := JS.JUndefined;
     PagesImport.url := JS.JStr "/about";
     PagesImport.cluster := JS.JStr "Company";
     PagesImport.level := JS.JUndefined;
     PagesImport.parent_page := JS.JUndefined;
     PagesImport.sibling_links := JS.JUndefined;
     PagesImport.cross_cluster_links := JS.JUndefined;
     PagesImport.content_focus := JS.JUndefined |}.

(** A page whose level is written as [0]. *)
Definition import_page_level_zero : PagesImport.PageInput :=
  {| PagesImport.page_name := JS.JStr "Pension Transfer";
     PagesImport.url := JS.JStr "/pensions/transfer";
     PagesImport.cluster := JS.JStr "Pensions";
     PagesImport.level := JS.JNum (Q2Qc 0);
     PagesImport.parent_page := JS.JUndefined;
     PagesImport.sibling_links := JS.JUndefined;
     PagesImport.cross_cluster_links := JS.JUndefined;
     PagesImport.content_focus := JS.JUndefined |}.

(** Replies of the provider. *)
Definition env_no_password : Env :=
  {| API_KEY := Some "hw-seo-abc123xyz";
     DATAFORSEO_LOGIN := Some "login";
     DATAFORSEO_PASSWORD := Some "" |}.

Definition reply_no_tasks : DataForSEO.Reply :=
  {| DataForSEO.status_code := 20000;
     DataForSEO.status_message := "Ok.";
     DataForSEO.tasks := Some [] |}.

Definition reply_null_result : DataForSEO.Reply :=
  {| DataForSEO.status_code := 20000;
     DataForSEO.status_message := "Ok.";
     DataForSEO.tasks :=
       Some [ {| DataForSEO.t_status_code := 20000;
                 DataForSEO.t_status_message := "Ok.";
                 DataForSEO.t_result := None |} ] |}.

Definition serp_payload : DataForSEO.Payload :=
  DataForSEO.SerpPayload "pension transfer" 2826 "en" 100.

End Fixtures.

(* ===================================================================== *)
(** * Properties *)
(* ===================================================================== *)

Import Spec.

Set Warnings "-clear-no-such-hyp".

(** ** Reasoning about handler computations *)

Section MonadFacts.
Import Errors Eff.

Lemma error_status {D Mt} (e : Thrown) :
  Response.status (@Response.error D Mt e) = thrown_status e.
Proof. by destruct e. Qed.

Lemma throws_only_ret {A} P (a : A) : throws_only P (mret a).
Proof. intros s e s' H. inversion H. Qed.

Lemma throws_only_throw {A} (P : Thrown -> Prop) e : P e -> throws_only P (@throw A e).
Proof. intros HP s e' s' H. inversion H. by subst. Qed.

Lemma throws_only_lift {A} (P : Thrown -> Prop) (r : Thrown + A) :
  (forall e, r = inl e -> P e) -> throws_only P (lift r).
Proof. intros HP s e s' H. inversion H. by apply HP. Qed.

Lemma throws_only_bind {A B} P (m : M A) (f : A -> M B) :
  throws_only P m -> (forall a, throws_only P (f a)) -> throws_only P (m ≫= f).
Proof.
  intros Hm Hf s e s' H. unfold mbind, M_bind in H.
  destruct (m s) as [[e1|a] s1] eqn:Em.
  - inversion H; subst. eapply Hm, Em.
  - eapply Hf, H.
Qed.

Lemma throws_only_foldM {A B} P (body : B -> A -> M B) l acc :
  (forall b a, throws_only P (body b a)) -> throws_only P (foldM body l acc).
Proof.
  intros Hb. revert acc. induction l as [|x l IH]; intros acc; simpl.
  - apply throws_only_ret.
  - apply throws_only_bind; [apply Hb | intros; apply IH].
Qed.

Lemma throws_only_insert P w wr label : throws_only P (insert w wr label).
Proof. intros s e s' H. inversion H. Qed.

Lemma throws_only_record_call P c : throws_only P (record_call c).
Proof. intros s e s' H. inversion H. Qed.

(** The error classes other than [UnauthorizedError] never carry 401. *)
Lemma mapSupabaseError_status e op :
  status (mapSupabaseError e op) = 409%Z \/
  status (mapSupabaseError e op) = 400%Z \/
  status (mapSupabaseError e op) = 500%Z.
Proof. unfold mapSupabaseError. repeat case_bool_decide; simpl; auto. Qed.

Lemma mapSupabaseError_not_401 e op : status (mapSupabaseError e op) <> 401%Z.
Proof. destruct (mapSupabaseError_status e op) as [H|[H|H]]; rewrite H; lia. Qed.

Lemma validateMethod_not_401 {B} (req : Request B) allowed e :
  Validate.validateMethod req allowed = inl e -> not_401 e.
Proof.
  unfold Validate.validateMethod. case_match; intros Hr; inversion Hr.
  unfold not_401; simpl; lia.
Qed.

Lemma validateRequired_not_401 present fields e :
  Validate.validateRequired present fields = inl e -> not_401 e.
Proof.
  unfold Validate.validateRequired. case_match; intros Hr; inversion Hr.
  unfold not_401; simpl; lia.
Qed.

Lemma validateType_not_401 a n x e :
  Validate.validateType a n x = inl e -> not_401 e.
Proof.
  unfold Validate.validateType. case_match; intros Hr; inversion Hr.
  unfold not_401; simpl; lia.
Qed.

Lemma validateEnum_not_401 v n l e :
  Validate.validateEnum v n l = inl e -> not_401 e.
Proof.
  unfold Validate.validateEnum. case_match; intros Hr; inversion Hr.
  unfold not_401; simpl; lia.
Qed.

Lemma reduce_not_401 l acc e : EnrichKeywords.reduce l acc = inl e -> not_401 e.
Proof.
  revert acc. induction l as [|kw l IH]; intros acc; simpl; [done|].
  unfold EnrichKeywords.byCountry_step.
  destruct (js_get acc _); eauto.
  intros H; inversion H. unfold not_401; simpl; lia.
Qed.

End MonadFacts.

Ltac throws_not_401 :=
  repeat first
    [ apply throws_only_ret
    | apply throws_only_insert
    | apply throws_only_record_call
    | apply throws_only_throw; unfold not_401; simpl;
      first [lia | apply mapSupabaseError_not_401]
    | apply throws_only_lift; intros ? ?;
      first [ eapply validateMethod_not_401; eassumption
            | eapply validateRequired_not_401; eassumption
            | eapply validateType_not_401; eassumption
            | eapply validateEnum_not_401; eassumption
            | eapply reduce_not_401; eassumption ]
    | apply throws_only_bind; [| intros ?]
    | apply throws_only_foldM; intros ? ?
    | case_match ].

(** ** Authentication *)

Section Authentication.
Import Errors Eff.

Lemma verifyApiKey_spec {B} (e : Env) (req : Request B) :
  Auth.verifyApiKey e req = true <-> x_api_key req = API_KEY e.
Proof. unfold Auth.verifyApiKey. by rewrite bool_decide_eq_true. Qed.

Lemma EnrichKeywords_run_not_401 w req :
  Auth.verifyApiKey (env w) req = true ->
  throws_only not_401 (EnrichKeywords.run w req).
Proof.
  intros Hauth. unfold EnrichKeywords.run. rewrite Hauth. simpl.
  unfold EnrichKeywords.process_group, EnrichKeywords.process_result,
    EnrichKeywords.fetchDataForSEO, EnrichKeywords.byCountry.
  throws_not_401.
Qed.

Lemma EnrichSerp_run_not_401 w req :
  Auth.verifyApiKey (env w) req = true ->
  throws_only not_401 (EnrichSerp.run w req).
Proof.
  intros Hauth. unfold EnrichSerp.run. rewrite Hauth. simpl.
  unfold EnrichSerp.process_keyword, EnrichSerp.fetchSERP.
  throws_not_401.
Qed.

Lemma EnrichKeywords_authorized_not_401 w req :
  Auth.verifyApiKey (env w) req = true ->
  Response.status (fst (EnrichKeywords.handler w req)) <> 401%Z.
Proof.
  intros Hauth. unfold EnrichKeywords.handler.
  destruct (EnrichKeywords.run w req init) as [[e|r] s] eqn:E; simpl; [|lia].
  rewrite error_status. eapply EnrichKeywords_run_not_401; eauto.
Qed.

Lemma EnrichSerp_authorized_not_401 w req :
  Auth.verifyApiKey (env w) req = true ->
  Response.status (fst (EnrichSerp.handler w req)) <> 401%Z.
Proof.
  intros Hauth. unfold EnrichSerp.handler.
  destruct (EnrichSerp.run w req init) as [[e|r] s] eqn:E; simpl; [|lia].
  rewrite error_status. eapply EnrichSerp_run_not_401; eauto.
Qed.

Lemma KeywordsBatch_authorized_not_401 upsert e req :
  Auth.verifyApiKey e req = true ->
  Response.status (KeywordsBatch.handler upsert e req) <> 401%Z.
Proof.
  intros Hauth. unfold KeywordsBatch.handler.
  destruct (KeywordsBatch.run upsert e req) as [err|data] eqn:E; simpl; [|lia].
  rewrite error_status. revert E. unfold KeywordsBatch.run. rewrite Hauth. simpl.
  unfold mbind, result_bind.
  repeat case_match; intros E; simplify_eq;
    first [ eapply validateMethod_not_401; eassumption
          | eapply validateRequired_not_401; eassumption
          | eapply validateType_not_401; eassumption
          | eapply validateEnum_not_401; eassumption
          | apply mapSupabaseError_not_401
          | unfold not_401; simpl; lia ].
Qed.

Lemma Pages_authorized_not_401 st e req r :
  Auth.verifyApiKey e req = true ->
  Pages.handler st e req = Responded r -> Response.status r <> 401%Z.
Proof.
  intros Hauth. unfold Pages.handler. rewrite Hauth. simpl.
  unfold Pages.handleGet, Pages.handlePost, settle.
  repeat case_match; intros E; simplify_eq; simpl; lia.
Qed.

Lemma Competitors_authorized_not_401 st e req r :
  Auth.verifyApiKey e req = true ->
  Competitors.handler st e req = Responded r -> Response.status r <> 401%Z.
Proof.
  intros Hauth. unfold Competitors.handler. rewrite Hauth. simpl.
  unfold Competitors.handleGet, Competitors.handlePost, settle.
  unfold mbind, result_bind.
  repeat case_match; intros E; simplify_eq; simpl; lia.
Qed.

Lemma check_fields_not_401 p i fields e :
  PagesImport.check_fields p i fields = inl e -> not_401 e.
Proof.
  induction fields as [|f fields IH]; [done|]. cbn [PagesImport.check_fields].
  destruct (negb _); [|exact IH]. intros [= <-]. unfold not_401. simpl. lia.
Qed.

Lemma check_pages_not_401 l : forall i e,
  PagesImport.check_pages i l = inl e -> not_401 e.
Proof.
  induction l as [|p l IH]; intros i e; [done|]. cbn [PagesImport.check_pages].
  destruct (PagesImport.check_fields p i _) as [e'|] eqn:E.
  - intros [= <-]. by eapply check_fields_not_401.
  - apply IH.
Qed.

Lemma PagesImport_authorized_not_401 upsert e req :
  Auth.verifyApiKey e req = true ->
  Response.status (PagesImport.handler upsert e req) <> 401%Z.
Proof.
  intros Hauth. unfold PagesImport.handler.
  destruct (PagesImport.run upsert e req) as [err|data] eqn:E; simpl; [|lia].
  rewrite error_status. revert E. unfold PagesImport.run. rewrite Hauth. simpl.
  unfold mbind, result_bind.
  repeat case_match; intros E; simplify_eq;
    first [ eapply validateMethod_not_401; eassumption
          | eapply validateRequired_not_401; eassumption
          | eapply validateType_not_401; eassumption
          | eapply check_pages_not_401; eassumption
          | apply mapSupabaseError_not_401
          | unfold not_401; simpl; lia ].
Qed.

Lemma KeywordsList_authorized_not_401 {Row}
    (select : KeywordsList.Select -> StoreError + list Row) e req :
  Auth.verifyApiKey e req = true ->
  Response.status (KeywordsList.handler select e req) <> 401%Z.
Proof.
  intros Hauth. unfold KeywordsList.handler. rewrite Hauth. cbn [negb].
  destruct (negb _); [simpl; lia|].
  destruct (select _); simpl; lia.
Qed.

Lemma verifyApiKey_false {B} (e : Env) (req : Request B) :
  Auth.verifyApiKey e req = false <-> x_api_key req <> API_KEY e.
Proof. unfold Auth.verifyApiKey. by rewrite bool_decide_eq_false. Qed.

Lemma verifyApiKey_same_key {B} k (e : Env) (req : Request B) :
  Auth.verifyApiKey (with_api_key k e) (with_header k req) = true.
Proof. by apply verifyApiKey_spec. Qed.

Lemma behind_key_check_intro {B R} (h : Env -> Request B -> R)
    (status_401 : R -> Prop) (refusal : R) :
  status_401 refusal ->
  (forall e req, Auth.verifyApiKey e req = false -> h e req = refusal) ->
  (forall e req, Auth.verifyApiKey e req = true -> ~ status_401 (h e req)) ->
  (forall e req k, Auth.verifyApiKey e req = true ->
     h (with_api_key k e) (with_header k req) = h e req) ->
  behind_key_check h status_401 refusal.
Proof.
  intros Hr Hfalse Htrue Hsame e req.
  destruct (Auth.verifyApiKey e req) eqn:Hv.
  - pose proof (proj1 (verifyApiKey_spec e req) Hv) as Heq.
    split; [|split; [|split]].
    + split; [intros H; by destruct (Htrue e req Hv)|done].
    + done.
    + intros _ k. by apply Hsame.
    + intros _ _. by apply Htrue.
  - pose proof (proj1 (verifyApiKey_false e req) Hv) as Hne.
    split; [|split; [|split]].
    + split; [done|]. intros _. by rewrite (Hfalse e req Hv).
    + intros _. by apply Hfalse.
    + done.
    + intros H1 H2. destruct Hne. congruence.
Qed.

(** C10. [verifyApiKey] authorizes a request exactly when its [x-api-key]
    header is strictly equal to the [API_KEY] of the environment; when the
    variable is unset and the request carries no header, both sides are
    [undefined] and the equality holds. Each of the seven handlers that call
    it (enrich/keywords, enrich/serp, keywords/batch, pages, competitors,
    pages/import, keywords) sits behind that check: it answers with the 401
    of [UnauthorizedError], before any effect, exactly when header and key
    differ; a request that passes is served as it would be with any other
    matching pair of header and key; so a request without header, where no
    key is configured, is served and not rejected with 401. *)
Theorem verifyApiKey_strict_equality :
  (forall B (e : Env) (req : Request B),
      Auth.verifyApiKey e req = true <-> x_api_key req = API_KEY e)
  /\ (forall B (e : Env) (req : Request B),
        API_KEY e = None -> x_api_key req = None -> Auth.verifyApiKey e req = true)
  /\ (forall w,
        behind_key_check (fun e req => EnrichKeywords.handler (with_env e w) req)
          (fun r => Response.status (fst r) = 401%Z) (unauthorized, init))
  /\ (forall w,
        behind_key_check (fun e req => EnrichSerp.handler (with_env e w) req)
          (fun r => Response.status (fst r) = 401%Z) (unauthorized, init))
  /\ (forall upsert,
        behind_key_check (KeywordsBatch.handler upsert)
          (fun r => Response.status r = 401%Z) unauthorized)
  /\ (forall st,
        behind_key_check (Pages.handler st)
          (fun o => exists r, o = Responded r /\ Response.status r = 401%Z)
          (Responded unauthorized))
  /\ (forall st,
        behind_key_check (Competitors.handler st)
          (fun o => exists r, o = Responded r /\ Response.status r = 401%Z)
          (Responded unauthorized))
  /\ (forall upsert,
        behind_key_check (PagesImport.handler upsert)
          (fun r => Response.status r = 401%Z) unauthorized)
  /\ (forall Row (select : KeywordsList.Select -> StoreError + list Row),
        behind_key_check (KeywordsList.handler select)
          (fun r => Response.status r = 401%Z) unauthorized).
Proof.
  split; [intros; apply verifyApiKey_spec|].
  split; [intros B e req He Hr; apply verifyApiKey_spec; congruence|].
  split; [|split; [|split; [|split; [|split; [|split]]]]].
  - intros w. apply behind_key_check_intro.
    + reflexivity.
    + intros e req Hv. unfold EnrichKeywords.handler, EnrichKeywords.run.
      cbn [env with_env]. by rewrite Hv.
    + intros e req Hv. by apply EnrichKeywords_authorized_not_401.
    + intros e req k Hv. unfold EnrichKeywords.handler, EnrichKeywords.run.
      cbn [env with_env]. rewrite verifyApiKey_same_key, Hv. reflexivity.
  - intros w. apply behind_key_check_intro.
    + reflexivity.
    + intros e req Hv. unfold EnrichSerp.handler, EnrichSerp.run.
      cbn [env with_env]. by rewrite Hv.
    + intros e req Hv. by apply EnrichSerp_authorized_not_401.
    + intros e req k Hv. unfold EnrichSerp.handler, EnrichSerp.run.
      cbn [env with_env]. rewrite verifyApiKey_same_key, Hv. reflexivity.
  - intros upsert. apply behind_key_check_intro.
    + reflexivity.
    + intros e req Hv. unfold KeywordsBatch.handler, KeywordsBatch.run. by rewrite Hv.
    + intros e req Hv. by apply KeywordsBatch_authorized_not_401.
    + intros e req k Hv. unfold KeywordsBatch.handler, KeywordsBatch.run.
      rewrite verifyApiKey_same_key, Hv. reflexivity.
  - intros st. apply behind_key_check_intro.
    + by eexists.
    + intros e req Hv. unfold Pages.handler. by rewrite Hv.
    + intros e req Hv (r & Hr & H401). by eapply Pages_authorized_not_401.
    + intros e req k Hv. unfold Pages.handler.
      rewrite verifyApiKey_same_key, Hv. reflexivity.
  - intros st. apply behind_key_check_intro.
    + by eexists.
    + intros e req Hv. unfold Competitors.handler. by rewrite Hv.
    + intros e req Hv (r & Hr & H401). by eapply Competitors_authorized_not_401.
    + intros e req k Hv. unfold Competitors.handler.
      rewrite verifyApiKey_same_key, Hv. reflexivity.
  - intros upsert. apply behind_key_check_intro.
    + reflexivity.
    + intros e req Hv. unfold PagesImport.handler, PagesImport.run. by rewrite Hv.
    + intros e req Hv. by apply PagesImport_authorized_not_401.
    + intros e req k Hv. unfold PagesImport.handler, PagesImport.run.
      rewrite verifyApiKey_same_key, Hv. reflexivity.
  - intros Row select. apply behind_key_check_intro.
    + reflexivity.
    + intros e req Hv. unfold KeywordsList.handler. by rewrite Hv.
    + intros e req Hv. by apply KeywordsList_authorized_not_401.
    + intros e req k Hv. unfold KeywordsList.handler.
      rewrite verifyApiKey_same_key, Hv. reflexivity.
Qed.

Lemma verifyApiKey_strict_equality_witness :
  Auth.verifyApiKey Fixtures.env_no_key
    (Fixtures.anonymous "POST" (Fixtures.enrich_ids ["k-1"])) = true
  /\ Response.status
       (fst (EnrichKeywords.handler (Fixtures.world_quiet Fixtures.env_no_key)
               (Fixtures.anonymous "POST" (Fixtures.enrich_ids ["k-1"])))) <> 401%Z
  /\ KeywordsList.handler (Row := unit) (fun _ => inr [tt; tt]) Fixtures.env_no_key
       (Fixtures.anonymous "GET"
          {| KeywordsList.country := None; KeywordsList.cluster := None;
             KeywordsList.page_id := None; KeywordsList.limit := None;
             KeywordsList.offset := None |}) =
     KeywordsList.handler (Row := unit) (fun _ => inr [tt; tt]) Fixtures.env_configured
       (Fixtures.authorized "GET"
          {| KeywordsList.country := None; KeywordsList.cluster := None;
             KeywordsList.page_id := None; KeywordsList.limit := None;
             KeywordsList.offset := None |})
  /\ PagesImport.handler (fun _ => inr []) Fixtures.env_configured
       (Fixtures.anonymous "POST" {| PagesImport.pages := PagesImport.Missing |}) =
     unauthorized.
Proof.
  destruct verifyApiKey_strict_equality
    as (_ & Hnone & Hk & _ & _ & _ & _ & Hi & Hl).
  split; [|split; [|split]].
  - apply Hnone; reflexivity.
  - destruct (Hk (Fixtures.world_quiet Fixtures.env_no_key) Fixtures.env_no_key
                (Fixtures.anonymous "POST" (Fixtures.enrich_ids ["k-1"])))
      as (_ & _ & _ & H).
    apply H; reflexivity.
  - destruct (Hl unit (fun _ => inr [tt; tt]) Fixtures.env_no_key
                (Fixtures.anonymous "GET"
                   {| KeywordsList.country := None; KeywordsList.cluster := None;
                      KeywordsList.page_id := None; KeywordsList.limit := None;
                      KeywordsList.offset := None |}))
      as (_ & _ & H & _).
    symmetry. exact (H eq_refl (Some "hw-seo-abc123xyz")).
  - destruct (Hi (fun _ => inr []) Fixtures.env_configured
                (Fixtures.anonymous "POST" {| PagesImport.pages := PagesImport.Missing |}))
      as (_ & H & _).
    apply H. discriminate.
Defined.

End Authentication.

(** ** Store errors and the error taxonomy *)

Section StoreErrors.
Import Errors.

Lemma mapSupabaseError_taxonomy (e : StoreError) (op : string) :
  (se_code e = Some "23505" ->
     mapSupabaseError e op = DuplicateError "Record"
     /\ status (mapSupabaseError e op) = 409%Z)
  /\ (se_code e = Some "23503" ->
        mapSupabaseError e op =
          ValidationError "Referenced record does not exist"
                          (Some (DConstraint (se_constraint e)))
        /\ status (mapSupabaseError e op) = 400%Z)
  /\ (se_code e = Some "23502" ->
        mapSupabaseError e op =
          ValidationError ("Required field is null: " +:+ interpolate (se_column e)) None
        /\ status (mapSupabaseError e op) = 400%Z)
  /\ (se_code e <> Some "23505" -> se_code e <> Some "23503" ->
      se_code e <> Some "23502" ->
        mapSupabaseError e op = DatabaseError op e
        /\ status (mapSupabaseError e op) = 500%Z
        /\ details (mapSupabaseError e op) = Some (DOriginalError (se_message e))).
Proof.
  unfold mapSupabaseError.
  repeat split; intros; repeat case_bool_decide; simplify_eq; done.
Qed.

(** What /pages can answer: the store's error is never turned into one of
    the classes of the taxonomy. *)
Lemma Pages_handler_statuses st e req r :
  Pages.handler st e req = Responded r ->
  Response.status r = 200%Z \/ Response.status r = 400%Z \/ Response.status r = 401%Z.
Proof.
  unfold Pages.handler, Pages.handleGet, Pages.handlePost, settle.
  repeat case_match; intros E; simplify_eq; simpl; auto.
Qed.

Lemma Pages_post_store_error st e req err :
  Auth.verifyApiKey e req = true ->
  method req = "POST" ->
  Pages.handlePost st req = inl (ThrowStore err) ->
  Pages.handler st e req = Unhandled (ThrowStore err).
Proof.
  intros Hauth Hm Hp. unfold Pages.handler. rewrite Hauth, Hm, Hp. done.
Qed.

(** C9 (the code departs from the claim). For POST /pages with a [url] that
    is already stored, the store reports the unique violation 23505;
    [handlePost] throws that error object as it is, the promise of the
    handler rejects with it and no 409 DuplicateError is written, although
    [mapSupabaseError] would map the same error to DuplicateError (409), as
    the sibling handlers do. Had the [catch] of the handler seen the error,
    it would have answered with the generic 500. *)
Theorem pages_post_unique_violation_not_mapped :
  Pages.handler Fixtures.pages_store_taken Fixtures.env_configured Fixtures.post_page
    = Unhandled (ThrowStore Fixtures.unique_violation)
  /\ thrown_status (ThrowStore Fixtures.unique_violation) = 500%Z
  /\ mapSupabaseError Fixtures.unique_violation "insert" = DuplicateError "Record"
  /\ status (DuplicateError "Record") = 409%Z.
Proof. repeat split. Qed.

End StoreErrors.

(** ** Persistence failures *)

Section Persistence.
Import Errors Eff.

Lemma same_effects_refl s : same_effects s s.
Proof. by split. Qed.

Lemma blind_ret {A} (a : A) : insert_blind (mret a) (mret a).
Proof. by intros s1 s2 H. Qed.

Lemma blind_throw {A} e : insert_blind (@throw A e) (throw e).
Proof. by intros s1 s2 H. Qed.

Lemma blind_lift {A} (r : Thrown + A) : insert_blind (lift r) (lift r).
Proof. by intros s1 s2 H. Qed.

Lemma blind_bind {A B} (m1 m2 : M A) (f1 f2 : A -> M B) :
  insert_blind m1 m2 -> (forall a, insert_blind (f1 a) (f2 a)) ->
  insert_blind (m1 ≫= f1) (m2 ≫= f2).
Proof.
  intros Hm Hf s1 s2 Hs. unfold mbind, M_bind.
  destruct (Hm s1 s2 Hs) as [Hr Hs'].
  destruct (m1 s1) as [[e1|a1] t1], (m2 s2) as [[e2|a2] t2]; simpl in *;
    simplify_eq; [done|].
  by apply Hf.
Qed.

Lemma blind_foldM {A B} (body1 body2 : B -> A -> M B) l acc :
  (forall b a, insert_blind (body1 b a) (body2 b a)) ->
  insert_blind (foldM body1 l acc) (foldM body2 l acc).
Proof.
  intros Hb. revert acc. induction l as [|x l IH]; intros acc; simpl.
  - apply blind_ret.
  - apply blind_bind; [apply Hb | intros; apply IH].
Qed.

Lemma blind_insert w1 w2 wr label :
  insert_blind (insert w1 wr label) (insert w2 wr label).
Proof.
  intros s1 s2 [Hc Hw]. unfold insert; simpl. split; [done|].
  split; simpl; congruence.
Qed.

Lemma blind_record_call c : insert_blind (record_call c) (record_call c).
Proof.
  intros s1 s2 [Hc Hw]. unfold record_call; simpl. rewrite Hc. split; [done|].
  split; simpl; congruence.
Qed.

Lemma logged_snoc ie ws wr :
  logged ie (ws ++ [wr]) =
  logged ie ws ++ match ie (length ws) wr with
                  | Some e => [(write_label wr, e)]
                  | None => []
                  end.
Proof.
  unfold logged. rewrite imap_app, omap_app. f_equal. simpl.
  rewrite Nat.add_0_r. by destruct (ie (length ws) wr).
Qed.

Lemma keeps_log_ret w {A} (a : A) : keeps_log w (mret a).
Proof. by intros s H. Qed.

Lemma keeps_log_throw w {A} e : keeps_log w (@throw A e).
Proof. by intros s H. Qed.

Lemma keeps_log_lift w {A} (r : Thrown + A) : keeps_log w (lift r).
Proof. by intros s H. Qed.

Lemma keeps_log_bind w {A B} (m : M A) (f : A -> M B) :
  keeps_log w m -> (forall a, keeps_log w (f a)) -> keeps_log w (m ≫= f).
Proof.
  intros Hm Hf s Hs. unfold mbind, M_bind.
  specialize (Hm s Hs). destruct (m s) as [[e|a] t]; simpl in *; [done|].
  by apply Hf.
Qed.

Lemma keeps_log_foldM w {A B} (body : B -> A -> M B) l acc :
  (forall b a, keeps_log w (body b a)) -> keeps_log w (foldM body l acc).
Proof.
  intros Hb. revert acc. induction l as [|x l IH]; intros acc; simpl.
  - apply keeps_log_ret.
  - apply keeps_log_bind; [apply Hb | intros; apply IH].
Qed.

Lemma keeps_log_insert w wr : keeps_log w (insert w wr (write_label wr)).
Proof.
  intros s Hs. unfold log_complete, insert in *; simpl.
  rewrite logged_snoc, Hs.
  destruct (insert_error w (length (writes s)) wr); [done|by rewrite app_nil_r].
Qed.

Lemma keeps_log_record_call w c : keeps_log w (record_call c).
Proof. by intros s Hs. Qed.

End Persistence.

Ltac insert_blindness :=
  repeat first
    [ apply blind_ret
    | apply blind_throw
    | apply blind_lift
    | apply blind_insert
    | apply blind_record_call
    | apply blind_bind; [| intros ?]
    | apply blind_foldM; intros ? ?
    | case_match ].

Ltac log_keeping :=
  repeat first
    [ apply keeps_log_ret
    | apply keeps_log_throw
    | apply keeps_log_lift
    | apply (keeps_log_insert _ (WMetric _))
    | apply (keeps_log_insert _ (WSerp _))
    | apply (keeps_log_insert _ (WCompetitor _))
    | apply keeps_log_record_call
    | apply keeps_log_bind; [| intros ?]
    | apply keeps_log_foldM; intros ? ?
    | case_match ].

Section PersistenceHandlers.
Import Errors Eff.

Lemma EnrichKeywords_run_blind w ie1 ie2 req :
  insert_blind (EnrichKeywords.run (with_insert_errors w ie1) req)
               (EnrichKeywords.run (with_insert_errors w ie2) req).
Proof.
  unfold EnrichKeywords.run, EnrichKeywords.process_group,
    EnrichKeywords.process_result, EnrichKeywords.fetchDataForSEO. simpl.
  insert_blindness.
Qed.

Lemma EnrichSerp_run_blind w ie1 ie2 req :
  insert_blind (EnrichSerp.run (with_insert_errors w ie1) req)
               (EnrichSerp.run (with_insert_errors w ie2) req).
Proof.
  unfold EnrichSerp.run, EnrichSerp.process_keyword, EnrichSerp.fetchSERP,
    EnrichSerp.process_item, EnrichSerp.hoxton_position, EnrichSerp.serp_record,
    EnrichSerp.extractDomain. simpl.
  insert_blindness.
Qed.

Lemma EnrichKeywords_run_log w req : keeps_log w (EnrichKeywords.run w req).
Proof.
  unfold EnrichKeywords.run, EnrichKeywords.process_group,
    EnrichKeywords.process_result, EnrichKeywords.fetchDataForSEO.
  log_keeping.
Qed.

Lemma EnrichSerp_run_log w req : keeps_log w (EnrichSerp.run w req).
Proof.
  unfold EnrichSerp.run, EnrichSerp.process_keyword, EnrichSerp.fetchSERP.
  log_keeping.
Qed.

End PersistenceHandlers.

Section PersistenceTheorem.
Import Errors Eff.

(** C2. Whatever the outcome of the inserts of KeywordMetric, SerpRanking
    and CompetitorRanking rows, both enrichment handlers answer exactly as
    they do when every insert succeeds: same status (200 when the request
    is otherwise successful), same body with every entry present and
    unchanged. The same provider calls and the same inserts are issued, and
    each failed insert leaves one line in the log. *)
Theorem persistence_failures_are_swallowed
    (w : World) (ie : nat -> Write -> option StoreError)
    (rk : Request EnrichKeywords.Body) (rs : Request EnrichSerp.Body) :
  let k := EnrichKeywords.handler (with_insert_errors w ie) rk in
  let k0 := EnrichKeywords.handler (with_insert_errors w no_insert_error) rk in
  let s := EnrichSerp.handler (with_insert_errors w ie) rs in
  let s0 := EnrichSerp.handler (with_insert_errors w no_insert_error) rs in
  (fst k = fst k0 /\ calls (snd k) = calls (snd k0) /\ writes (snd k) = writes (snd k0)
   /\ log (snd k) = logged ie (writes (snd k)))
  /\ (fst s = fst s0 /\ calls (snd s) = calls (snd s0) /\ writes (snd s) = writes (snd s0)
      /\ log (snd s) = logged ie (writes (snd s))).
Proof.
  simpl. split.
  - destruct (EnrichKeywords_run_blind w ie no_insert_error rk init init
                (same_effects_refl init)) as [Hr [Hc Hw]].
    pose proof (EnrichKeywords_run_log (with_insert_errors w ie) rk init eq_refl) as Hl.
    unfold EnrichKeywords.handler.
    destruct (EnrichKeywords.run (with_insert_errors w ie) rk init) as [[e1|r1] t1],
             (EnrichKeywords.run (with_insert_errors w no_insert_error) rk init)
               as [[e2|r2] t2]; simpl in *; simplify_eq; done.
  - destruct (EnrichSerp_run_blind w ie no_insert_error rs init init
                (same_effects_refl init)) as [Hr [Hc Hw]].
    pose proof (EnrichSerp_run_log (with_insert_errors w ie) rs init eq_refl) as Hl.
    unfold EnrichSerp.handler.
    destruct (EnrichSerp.run (with_insert_errors w ie) rs init) as [[e1|r1] t1],
             (EnrichSerp.run (with_insert_errors w no_insert_error) rs init)
               as [[e2|r2] t2]; simpl in *; simplify_eq; done.
Qed.

End PersistenceTheorem.

(** ** Country codes and provider locations *)

Section Locations.

Lemma locationCode_fallback (c : string) :
  JS.own_get COUNTRY_TO_LOCATION c = None -> JS.inherited c = false ->
  locationCode c = Some 2826%Z.
Proof. unfold locationCode, js_get. by intros -> ->. Qed.

Lemma locationCode_mapped (c : string) (n : Z) :
  JS.own_get COUNTRY_TO_LOCATION c = Some n -> locationCode c = Some n.
Proof.
  unfold locationCode, js_get. intros H. rewrite H.
  assert (Hn : (n =? 0)%Z = false); [|by rewrite Hn].
  revert H. unfold COUNTRY_TO_LOCATION. cbn [JS.own_get].
  repeat (destruct (String.eqb _ c); [intros H; by inversion H|]).
  done.
Qed.

Theorem CA_falls_back_to_UK_location :
  In "CA" KeywordsBatch.VALID_COUNTRIES
  /\ Validate.validateEnum (JS.toUpperCase "ca") "country"
       KeywordsBatch.VALID_COUNTRIES = inr tt
  /\ JS.own_get COUNTRY_TO_LOCATION "CA" = None
  /\ locationCode "CA" = Some 2826%Z
  /\ locationCode "CA" = locationCode "UK"
  /\ List.map locationCode KeywordsBatch.VALID_COUNTRIES =
       [Some 2826; Some 2840; Some 2784; Some 2036; Some 2826; Some 2702; Some 2344]%Z
  /\ Eff.calls (snd (EnrichSerp.handler Fixtures.world_canada
                       (Fixtures.authorized "POST"
                          {| EnrichSerp.keyword_ids := EnrichSerp.Ids ["k-ca"] |})))
     = [CallSerp "pension advice" (Some 2826%Z)].
Proof.
  split; [simpl; auto 10|].
  split; [vm_compute; reflexivity|].
  split; [vm_compute; reflexivity|].
  split; [vm_compute; reflexivity|].
  split; [vm_compute; reflexivity|].
  split; vm_compute; reflexivity.
Qed.
End Locations.

(** ** /enrich/keywords: the loops *)

Section KeywordLoops.
Import Errors Eff.

Lemma fetchDataForSEO_run w kws loc s :
  credentials_missing (env w) = false ->
  EnrichKeywords.fetchDataForSEO w kws loc s =
  (inr {| ProviderResponse.error :=
            outcome_error "API request failed"
              (fetch_search_volume w (length (calls s)) kws loc);
          ProviderResponse.results :=
            match outcome_error "API request failed"
                    (fetch_search_volume w (length (calls s)) kws loc) with
            | Some _ => None
            | None => Some (outcome_result
                              (fetch_search_volume w (length (calls s)) kws loc))
            end |},
   {| calls := calls s ++ [CallSearchVolume kws loc];
      writes := writes s; log := log s |}).
Proof.
  intros Hc. unfold EnrichKeywords.fetchDataForSEO. rewrite Hc.
  unfold mbind, M_bind, record_call, mret, M_ret. simpl.
  destruct (fetch_search_volume w (length (calls s)) kws loc) as [msg|sc sm res]; simpl;
    [done|].
  by destruct (sc =? 20000)%Z.
Qed.

Lemma process_result_run w c kws results r s :
  exists lg,
    EnrichKeywords.process_result w c kws results r s =
    (inr (results ++ [EnrichKeywords.enriched c r]),
     {| calls := calls s; writes := writes s ++ record_writes kws r; log := lg |}).
Proof.
  destruct s as [cs ws lg0].
  unfold EnrichKeywords.process_result, record_writes.
  unfold mbind, M_bind, mret, M_ret, insert.
  destruct (List.find _ kws) as [k|]; simpl.
  - destruct (Keyword.id k) as [i|]; simpl.
    + destruct (String.eqb i ""); simpl.
      * exists lg0. by rewrite app_nil_r.
      * eexists. reflexivity.
    + exists lg0. by rewrite app_nil_r.
  - exists lg0. by rewrite app_nil_r.
Qed.

Lemma process_results_run w c kws recs : forall results s,
  exists lg,
    foldM (EnrichKeywords.process_result w c kws) recs results s =
    (inr (results ++ List.map (EnrichKeywords.enriched c) recs),
     {| calls := calls s; writes := writes s ++ flat_map (record_writes kws) recs;
        log := lg |}).
Proof.
  induction recs as [|r recs IH]; intros results s; simpl.
  - exists (log s). rewrite !app_nil_r. by destruct s.
  - destruct (process_result_run w c kws results r s) as [lg1 H1].
    unfold mbind, M_bind at 1. rewrite H1.
    destruct (IH (results ++ [EnrichKeywords.enriched c r])
                 {| calls := calls s; writes := writes s ++ record_writes kws r;
                    log := lg1 |}) as [lg2 H2].
    exists lg2. rewrite H2. simpl. by rewrite <- !app_assoc.
Qed.

End KeywordLoops.

Section KeywordGroups.
Import Errors Eff.

Lemma process_group_fail w results g s :
  credentials_missing (env w) = false ->
  JS.str_truthy (outcome_error "API request failed"
                   (group_outcome w (length (calls s)) g)) = true ->
  EnrichKeywords.process_group w results g s =
  (inl (ThrowApp (ExternalApiError "DataForSEO"
          (default "" (outcome_error "API request failed"
                         (group_outcome w (length (calls s)) g))))),
   {| calls := calls s ++ [planned_call g]; writes := writes s; log := log s |}).
Proof.
  intros Hc Ht. destruct g as [c kws]. unfold EnrichKeywords.process_group.
  unfold mbind, M_bind at 1. rewrite fetchDataForSEO_run by done. simpl.
  unfold group_outcome in Ht. simpl in Ht. rewrite Ht. done.
Qed.

Lemma process_group_ok w results g s :
  credentials_missing (env w) = false ->
  JS.str_truthy (outcome_error "API request failed"
                   (group_outcome w (length (calls s)) g)) = false ->
  exists lg,
    EnrichKeywords.process_group w results g s =
    (inr (results ++ group_entries w (length (calls s)) g),
     {| calls := calls s ++ [planned_call g];
        writes := writes s ++ group_writes w (length (calls s)) g;
        log := lg |}).
Proof.
  intros Hc Ht. destruct g as [c kws]. unfold EnrichKeywords.process_group.
  unfold mbind, M_bind at 1. rewrite fetchDataForSEO_run by done. simpl.
  unfold group_outcome in Ht. simpl in Ht. rewrite Ht.
  unfold group_entries, group_writes, group_outcome. simpl.
  set (o := fetch_search_volume w (length (calls s)) _ _) in *.
  assert (Hres : default [] (match outcome_error "API request failed" o with
                             | Some _ => None
                             | None => Some (outcome_result o)
                             end) = outcome_result o).
  { destruct o as [msg|sc sm res]; simpl in *; [done|].
    destruct (sc =? 20000)%Z; simpl in *; done. }
  rewrite Hres.
  destruct (process_results_run w c kws (outcome_result o) results
              {| calls := calls s ++ [CallSearchVolume (List.map Keyword.keyword_text kws)
                                        (locationCode c)];
                 writes := writes s; log := log s |}) as [lg H].
  exists lg. rewrite H. done.
Qed.

Lemma imap_offset_cons {A B} (F : nat -> A -> B) n x l :
  imap (fun j a => F (n + j) a) (x :: l) = F n x :: imap (fun j a => F (S n + j) a) l.
Proof.
  simpl. rewrite Nat.add_0_r. f_equal. apply imap_ext. intros j a _. simpl.
  by rewrite Nat.add_succ_r.
Qed.

Lemma all_groups_ok_cons w n g gs :
  all_groups_ok w n (g :: gs) = true <->
  JS.str_truthy (outcome_error "API request failed" (group_outcome w n g)) = false
  /\ all_groups_ok w (S n) gs = true.
Proof.
  unfold all_groups_ok.
  rewrite (imap_offset_cons (fun n g0 => negb (JS.str_truthy
             (outcome_error "API request failed" (group_outcome w n g0))))).
  simpl. by rewrite andb_true_iff, negb_true_iff.
Qed.

Lemma process_groups_ok w gs : forall results s,
  credentials_missing (env w) = false ->
  all_groups_ok w (length (calls s)) gs = true ->
  exists lg,
    foldM (EnrichKeywords.process_group w) gs results s =
    (inr (results ++
          concat (imap (fun j g => group_entries w (length (calls s) + j) g) gs)),
     {| calls := calls s ++ List.map planned_call gs;
        writes := writes s ++
          concat (imap (fun j g => group_writes w (length (calls s) + j) g) gs);
        log := lg |}).
Proof.
  induction gs as [|g gs IH]; intros results s Hc Hok.
  - simpl. exists (log s). rewrite !app_nil_r. by destruct s.
  - cbn [foldM]. apply all_groups_ok_cons in Hok as [Hg Hrest].
    destruct (process_group_ok w results g s Hc Hg) as [lg1 H1].
    unfold mbind, M_bind at 1. rewrite H1.
    set (s1 := {| calls := calls s ++ [planned_call g];
                  writes := writes s ++ group_writes w (length (calls s)) g;
                  log := lg1 |}).
    assert (Hlen : length (calls s1) = S (length (calls s))).
    { simpl. rewrite length_app. simpl. lia. }
    destruct (IH (results ++ group_entries w (length (calls s)) g) s1 Hc) as [lg2 H2].
    { by rewrite Hlen. }
    exists lg2. rewrite H2, Hlen.
    rewrite (imap_offset_cons (fun n g => group_entries w n g)).
    rewrite (imap_offset_cons (fun n g => group_writes w n g)).
    subst s1. simpl. by rewrite <- !app_assoc.
Qed.

Lemma process_groups_fail w gs : forall results s j g,
  credentials_missing (env w) = false ->
  gs !! j = Some g ->
  JS.str_truthy (outcome_error "API request failed"
                   (group_outcome w (length (calls s) + j) g)) = true ->
  exists msg s',
    foldM (EnrichKeywords.process_group w) gs results s =
    (inl (ThrowApp (ExternalApiError "DataForSEO" msg)), s').
Proof.
  induction gs as [|g0 gs IH]; intros results s j g Hc Hj Hf; [done|].
  cbn [foldM]. unfold mbind, M_bind at 1.
  destruct (JS.str_truthy (outcome_error "API request failed"
              (group_outcome w (length (calls s)) g0))) eqn:E0.
  - rewrite process_group_fail by done. eauto.
  - destruct (process_group_ok w results g0 s Hc E0) as [lg1 H1]. rewrite H1.
    destruct j as [|j]; simpl in Hj.
    + simplify_eq. rewrite Nat.add_0_r in Hf. congruence.
    + eapply (IH _ _ j g Hc Hj). simpl. rewrite length_app. simpl.
      replace (length (calls s) + 1 + j) with (length (calls s) + S j) by lia. done.
Qed.

Lemma process_groups_calls w gs : forall results s r s',
  credentials_missing (env w) = false ->
  foldM (EnrichKeywords.process_group w) gs results s = (r, s') ->
  exists k, calls s' = calls s ++ List.map planned_call (take k gs)
            /\ ((exists v, r = inr v) -> k = length gs)
            /\ k <= length gs.
Proof.
  induction gs as [|g0 gs IH]; intros results s r s' Hc H.
  - simpl in H. inversion H; subst. exists 0. simpl. rewrite app_nil_r. auto.
  - cbn [foldM] in H. unfold mbind, M_bind at 1 in H.
    destruct (JS.str_truthy (outcome_error "API request failed"
                (group_outcome w (length (calls s)) g0))) eqn:E0.
    + rewrite process_group_fail in H by done. inversion H; subst.
      exists 1. simpl. split; [by destruct gs|]. split; [|lia].
      intros [v Hv]. discriminate.
    + destruct (process_group_ok w results g0 s Hc E0) as [lg1 H1]. rewrite H1 in H.
      apply IH in H as (k & Hk & Hin & Hle); [|done].
      exists (S k). simpl in *. rewrite Hk, <- app_assoc. simpl.
      split; [done|]. split; [|lia]. intros Hr. f_equal. by apply Hin.
Qed.

End KeywordGroups.

Section KeywordHandler.
Import Errors Eff.

Lemma validateMethod_post {B} (req : Request B) :
  method req = "POST" -> Validate.validateMethod req "POST" = inr tt.
Proof. unfold Validate.validateMethod. intros ->. reflexivity. Qed.

Lemma bind_lift_inr {A B} (a : A) (f : A -> M B) s : (lift (inr a) ≫= f) s = f a s.
Proof. reflexivity. Qed.

Lemma bind_lift_inl {A B} e (f : A -> M B) s : (lift (inl e) ≫= f) s = (inl e, s).
Proof. reflexivity. Qed.

Lemma bind_ret {A B} (a : A) (f : A -> M B) s : (mret a ≫= f) s = f a s.
Proof. reflexivity. Qed.

Lemma bind_throw {A B} e (f : A -> M B) s : (throw e ≫= f) s = (inl e, s).
Proof. reflexivity. Qed.

Lemma if_apply {A B} (b : bool) (f g : A -> B) s :
  (if b then f else g) s = if b then f s else g s.
Proof. by destruct b. Qed.

(** After authentication and the method check, the handler is driven by the
    working set alone. *)
Lemma EnrichKeywords_run_resolved w req s :
  Auth.verifyApiKey (env w) req = true ->
  method req = "POST" ->
  EnrichKeywords.run w req s =
  match resolution w (req_body req) with
  | Some ws =>
      if (length ws =? 0)%nat then
        (inl (ThrowApp (ValidationError "No keywords found to enrich" None)), s)
      else if (100 <? length ws)%nat then
        (inl (ThrowApp (ValidationError "Maximum 100 keywords per request"
                (Some (DReceivedMaximum (length ws) 100)))), s)
      else
        (byCountry ← lift (EnrichKeywords.byCountry ws);
         foldM (EnrichKeywords.process_group w) (JS.Object_entries byCountry) []) s
  | None =>
      match EnrichKeywords.keyword_ids (req_body req), EnrichKeywords.keywords (req_body req) with
      | None, None =>
          (inl (ThrowApp (ValidationError
                  "Must provide either keyword_ids or keywords array" None)), s)
      | Some ids, _ =>
          match select_keywords w ids with
          | inl dbError => (inl (ThrowApp (mapSupabaseError dbError "select")), s)
          | inr _ => (inl (ThrowApp (ValidationError "No keywords found to enrich" None)), s)
          end
      | _, _ => (inl (ThrowApp (ValidationError "No keywords found to enrich" None)), s)
      end
  end.
Proof.
  intros Hauth Hm. unfold EnrichKeywords.run, resolution.
  rewrite Hauth, (validateMethod_post req Hm). cbn [negb].
  rewrite bind_lift_inr.
  destruct (EnrichKeywords.keyword_ids (req_body req)) as [[|i ids]|],
           (EnrichKeywords.keywords (req_body req)) as [[|k ks]|];
    simpl (negb (bool_decide _) && _); cbv beta iota;
    try reflexivity.
  all: try change (0 <? length (@nil string))%nat with false.
  all: try change (0 <? length (@nil Inline.t))%nat with false.
  all: try change (0 <? length (i :: ids))%nat with true.
  all: try change (0 <? length (k :: ks))%nat with true.
  all: cbv beta iota.
  all: try (destruct (select_keywords w _) as [e|rows]; [reflexivity|]).
  all: rewrite bind_ret; cbv beta.
  all: destruct (length _ =? 0)%nat; [reflexivity|].
  all: destruct (100 <? length _)%nat; reflexivity.
Qed.

End KeywordHandler.

Section Partition.
Import Errors Eff.

Lemma eqb_decide (a b : string) : String.eqb a b = bool_decide (a = b).
Proof.
  destruct (String.eqb_spec a b); [by rewrite bool_decide_eq_true_2|
                                   by rewrite bool_decide_eq_false_2].
Qed.

Lemma own_get_own_set {V} (o : JS.obj V) k v k' :
  JS.own_get (JS.own_set o k v) k' = if bool_decide (k = k') then Some v else JS.own_get o k'.
Proof.
  induction o as [|[k0 v0] o IH]; simpl.
  - by rewrite eqb_decide.
  - destruct (String.eqb_spec k0 k) as [->|Hk0]; simpl.
    + rewrite eqb_decide. by case_bool_decide.
    + rewrite IH. destruct (String.eqb_spec k0 k') as [->|Hk0']; [|done].
      by rewrite bool_decide_eq_false_2 by congruence.
Qed.

Lemma own_get_tabulate {V} (F : string -> V) (L : list string) k :
  JS.own_get (List.map (fun c => (c, F c)) L) k =
  if bool_decide (k ∈ L) then Some (F k) else None.
Proof.
  induction L as [|c L IH]; [done|]. cbn [List.map JS.own_get].
  destruct (String.eqb_spec c k) as [->|Hc].
  - rewrite bool_decide_eq_true_2; [done|]. apply elem_of_cons. by left.
  - rewrite IH. destruct (decide (k ∈ L)) as [Hin|Hin].
    + rewrite !bool_decide_eq_true_2; [done| |done]. apply elem_of_cons. by right.
    + rewrite !bool_decide_eq_false_2; [done| |done].
      rewrite elem_of_cons. intros [->|?]; done.
Qed.

Lemma own_set_tabulate_new {V} (F : string -> V) (L : list string) k v :
  k ∉ L ->
  JS.own_set (List.map (fun c => (c, F c)) L) k v =
  List.map (fun c => (c, F c)) L ++ [(k, v)].
Proof.
  induction L as [|c L IH]; intros Hk; simpl; [done|].
  rewrite eqb_decide, bool_decide_eq_false_2 by set_solver.
  f_equal. apply IH. set_solver.
Qed.

Lemma own_set_tabulate_old {V} (F : string -> V) (L : list string) k v :
  NoDup L -> k ∈ L ->
  JS.own_set (List.map (fun c => (c, F c)) L) k v =
  List.map (fun c => (c, if bool_decide (c = k) then v else F c)) L.
Proof.
  induction L as [|c L IH]; intros Hnd Hk; simpl; [by apply elem_of_nil in Hk|].
  apply NoDup_cons in Hnd as [Hc Hnd].
  rewrite eqb_decide. case_bool_decide as E.
  - subst c. f_equal. apply map_ext_in. intros a Ha.
    apply list_elem_of_In in Ha.
    rewrite bool_decide_eq_false_2; [done|]. intros ->. done.
  - f_equal. apply IH; [done|]. set_solver.
Qed.

Lemma first_seen_snoc l c :
  first_seen (l ++ [c]) =
  if bool_decide (c ∈ first_seen l) then first_seen l else first_seen l ++ [c].
Proof. unfold first_seen. by rewrite fold_left_app. Qed.

Lemma first_seen_elem l : forall c, c ∈ first_seen l <-> c ∈ l.
Proof.
  induction l as [|x l IH] using rev_ind; intros c; [done|].
  rewrite first_seen_snoc. case_bool_decide as E; set_solver.
Qed.

Lemma first_seen_NoDup l : NoDup (first_seen l).
Proof.
  induction l as [|x l IH] using rev_ind; [constructor|].
  rewrite first_seen_snoc. case_bool_decide as E; [done|].
  apply NoDup_app. split; [done|]. split; [|apply NoDup_singleton].
  intros y Hy Hy'. apply list_elem_of_singleton in Hy'. by subst.
Qed.

Lemma members_snoc c p kw :
  members c (p ++ [kw]) =
  members c p ++ if bool_decide (effective_country kw = c) then [kw] else [].
Proof.
  unfold members. rewrite List.filter_app. simpl. rewrite eqb_decide.
  by case_bool_decide.
Qed.

Lemma members_absent c p :
  c ∉ List.map effective_country p -> members c p = [].
Proof.
  induction p as [|kw p IH]; intros Hc; [done|].
  unfold members in *. simpl in *. rewrite eqb_decide.
  rewrite bool_decide_eq_false_2 by set_solver. apply IH. set_solver.
Qed.

Lemma partition_by_country_snoc p kw :
  JS.inherited (effective_country kw) = false ->
  EnrichKeywords.byCountry_step (partition_by_country p) kw =
  inr (partition_by_country (p ++ [kw])).
Proof.
  intros Hinh. unfold EnrichKeywords.byCountry_step, js_get, partition_by_country.
  fold (effective_country kw).
  rewrite (map_app effective_country).
  change (List.map effective_country [kw]) with [effective_country kw].
  set (c := effective_country kw) in *.
  rewrite first_seen_snoc, own_get_tabulate.
  case_bool_decide as E.
  - rewrite own_set_tabulate_old by (done || apply first_seen_NoDup).
    f_equal. apply map_ext_in. intros c' _. f_equal.
    rewrite members_snoc. fold c.
    case_bool_decide as E1.
    + subst c'. by rewrite bool_decide_eq_true_2.
    + rewrite bool_decide_eq_false_2 by done. by rewrite app_nil_r.
  - rewrite Hinh. rewrite own_set_tabulate_new by done.
    rewrite map_app. simpl. f_equal. f_equal.
    + apply map_ext_in. intros c' Hc'. f_equal.
      rewrite members_snoc. fold c.
      rewrite bool_decide_eq_false_2; [by rewrite app_nil_r|].
      intros ->. apply E. by apply list_elem_of_In.
    + rewrite members_snoc. fold c. rewrite bool_decide_eq_true_2 by done.
      rewrite members_absent; [done|].
      intros H. apply E. by apply first_seen_elem.
Qed.

Lemma reduce_partition l : forall p,
  forallb (fun kw => negb (JS.inherited (effective_country kw))) l = true ->
  EnrichKeywords.reduce l (partition_by_country p) = inr (partition_by_country (p ++ l)).
Proof.
  induction l as [|kw l IH]; intros p Hl; simpl.
  - by rewrite app_nil_r.
  - simpl in Hl. apply andb_true_iff in Hl as [Hkw Hl].
    apply negb_true_iff in Hkw.
    rewrite partition_by_country_snoc by done.
    rewrite IH by done. by rewrite <- app_assoc.
Qed.

Lemma byCountry_partition ws :
  forallb (fun kw => negb (JS.inherited (effective_country kw))) ws = true ->
  EnrichKeywords.byCountry ws = inr (partition_by_country ws).
Proof. intros H. apply (reduce_partition ws [] H). Qed.

End Partition.

Section Entries.
Import Errors Eff.

Lemma Object_entries_named {V} (o : JS.obj V) :
  forallb (fun e => negb (bool_decide (is_Some (JS.array_index (fst e))))) o = true ->
  JS.Object_entries o = o.
Proof.
  intros H. unfold JS.Object_entries, JS.named_entries.
  assert (Hi : JS.index_entries o = []).
  { induction o as [|[k v] o IH]; [done|]. simpl in *.
    apply andb_true_iff in H as [Hk Ho]. apply negb_true_iff in Hk.
    destruct (JS.array_index k) as [n|]; [|by apply IH].
    rewrite bool_decide_eq_true_2 in Hk; [done|by eexists]. }
  rewrite Hi. simpl.
  induction o as [|e o IH]; [done|]. simpl in *.
  apply andb_true_iff in H as [He Ho]. rewrite He. f_equal. apply IH; [done|].
  clear -Ho. induction o as [|[k v] o IH]; [done|]. simpl in *.
  apply andb_true_iff in Ho as [Hk Ho]. apply negb_true_iff in Hk.
  destruct (JS.array_index k) as [n|]; [|by apply IH].
  rewrite bool_decide_eq_true_2 in Hk; [done|by eexists].
Qed.

Lemma partition_keys ws :
  List.map fst (partition_by_country ws) = first_seen (List.map effective_country ws).
Proof.
  unfold partition_by_country. rewrite List.map_map. simpl. apply List.map_id.
Qed.

Lemma first_seen_plain ws :
  forallb (fun kw => plain_country (effective_country kw)) ws = true ->
  forallb (fun e : string * list Keyword.t =>
             negb (bool_decide (is_Some (JS.array_index (fst e)))))
          (partition_by_country ws) = true.
Proof.
  intros H. apply forallb_forall. intros [c kws] Hin.
  apply (in_map fst) in Hin. rewrite partition_keys in Hin. simpl in Hin.
  apply list_elem_of_In, first_seen_elem, list_elem_of_In, in_map_iff in Hin
    as (kw & <- & Hkw).
  rewrite forallb_forall in H. specialize (H kw Hkw).
  unfold plain_country in H. apply andb_true_iff in H as [H _]. exact H.
Qed.

Lemma plain_not_inherited ws :
  forallb (fun kw => plain_country (effective_country kw)) ws = true ->
  forallb (fun kw => negb (JS.inherited (effective_country kw))) ws = true.
Proof.
  rewrite !forallb_forall. intros H kw Hkw. specialize (H kw Hkw).
  unfold plain_country in H. by apply andb_true_iff in H as [_ H].
Qed.

(** The partition is stable for country codes that a plain object treats as
    ordinary keys. *)
Lemma byCountry_entries ws :
  forallb (fun kw => plain_country (effective_country kw)) ws = true ->
  exists obj, EnrichKeywords.byCountry ws = inr obj
              /\ JS.Object_entries obj = partition_by_country ws.
Proof.
  intros H. exists (partition_by_country ws). split.
  - apply byCountry_partition. by apply plain_not_inherited.
  - apply Object_entries_named. by apply first_seen_plain.
Qed.

Lemma own_get_inherited_invariant (acc : JS.obj (list Keyword.t)) kw acc' :
  (forall k, JS.inherited k = true -> JS.own_get acc k = None) ->
  EnrichKeywords.byCountry_step acc kw = inr acc' ->
  forall k, JS.inherited k = true -> JS.own_get acc' k = None.
Proof.
  intros Hinv Hstep k Hk. unfold EnrichKeywords.byCountry_step, js_get in Hstep.
  fold (effective_country kw) in Hstep.
  destruct (JS.own_get acc (effective_country kw)) as [l|] eqn:E.
  - inversion Hstep; subst. rewrite own_get_own_set.
    case_bool_decide as Ek; [|by apply Hinv].
    subst k. rewrite Hinv in E; done.
  - destruct (JS.inherited (effective_country kw)) eqn:Ei; [done|].
    inversion Hstep; subst. rewrite own_get_own_set.
    case_bool_decide as Ek; [congruence|by apply Hinv].
Qed.

Lemma reduce_inherited l : forall acc,
  (forall k, JS.inherited k = true -> JS.own_get acc k = None) ->
  existsb (fun kw => JS.inherited (effective_country kw)) l = true ->
  EnrichKeywords.reduce l acc = inl (ThrowTypeError "acc[country].push is not a function").
Proof.
  induction l as [|kw l IH]; intros acc Hinv Hex; [done|].
  simpl in *. destruct (EnrichKeywords.byCountry_step acc kw) as [e|acc'] eqn:Es.
  - revert Es. unfold EnrichKeywords.byCountry_step, js_get.
    destruct (JS.own_get acc _); [done|]. destruct (JS.inherited _); [|done].
    by intros [= <-].
  - apply IH; [by eapply own_get_inherited_invariant|].
    apply orb_true_iff in Hex as [Hkw|Hl]; [|done].
    exfalso. revert Es. unfold EnrichKeywords.byCountry_step, js_get.
    fold (effective_country kw). rewrite (Hinv _ Hkw), Hkw. done.
Qed.

Lemma byCountry_inherited ws :
  existsb (fun kw => JS.inherited (effective_country kw)) ws = true ->
  EnrichKeywords.byCountry ws = inl (ThrowTypeError "acc[country].push is not a function").
Proof. intros H. by apply reduce_inherited. Qed.

End Entries.

Section KeywordTheorems.
Import Errors Eff.

Lemma EnrichKeywords_loop w req ws s :
  Auth.verifyApiKey (env w) req = true ->
  method req = "POST" ->
  resolution w (req_body req) = Some ws ->
  ws <> [] -> length ws <= 100 ->
  EnrichKeywords.run w req s =
  (byCountry ← lift (EnrichKeywords.byCountry ws);
   foldM (EnrichKeywords.process_group w) (JS.Object_entries byCountry) []) s.
Proof.
  intros Hauth Hm Hres Hne Hle. rewrite EnrichKeywords_run_resolved by done.
  rewrite Hres.
  destruct (Nat.eqb_spec (length ws) 0) as [E|_]; [by destruct ws|].
  destruct (Nat.ltb_spec 100 (length ws)); [lia|done].
Qed.

(** The working set is checked before anything is fetched or written: an
    empty one and one of more than 100 entries are refused with a
    validation error, the second naming the ceiling. *)
Theorem EnrichKeywords_working_set_limits w req ws :
  Auth.verifyApiKey (env w) req = true ->
  method req = "POST" ->
  resolution w (req_body req) = Some ws ->
  (ws = [] ->
     EnrichKeywords.handler w req =
     (Response.error (ThrowApp (ValidationError "No keywords found to enrich" None)),
      init))
  /\ (100 < length ws ->
        EnrichKeywords.handler w req =
        (Response.error (ThrowApp (ValidationError "Maximum 100 keywords per request"
                           (Some (DReceivedMaximum (length ws) 100)))),
         init)).
Proof.
  intros Hauth Hm Hres. unfold EnrichKeywords.handler.
  rewrite EnrichKeywords_run_resolved by done. rewrite Hres. split.
  - intros ->. reflexivity.
  - intros Hlen.
    destruct (Nat.eqb_spec (length ws) 0) as [E|_]; [lia|].
    destruct (Nat.ltb_spec 100 (length ws)); [done|lia].
Qed.

(** A provider call that reports an error for some country group fails the
    whole request with the upstream-service error. *)
Theorem EnrichKeywords_provider_failure w req ws obj j g :
  Auth.verifyApiKey (env w) req = true ->
  method req = "POST" ->
  resolution w (req_body req) = Some ws ->
  ws <> [] -> length ws <= 100 ->
  credentials_missing (env w) = false ->
  EnrichKeywords.byCountry ws = inr obj ->
  JS.Object_entries obj !! j = Some g ->
  JS.str_truthy (outcome_error "API request failed" (group_outcome w j g)) = true ->
  exists msg,
    fst (EnrichKeywords.handler w req) =
    {| Response.status := 502;
       Response.body := Response.Failure "EXTERNAL_API_ERROR"
                          ("DataForSEO API error: " +:+ msg) (Some None) |}.
Proof.
  intros Hauth Hm Hres Hne Hle Hc Hobj Hj Hf. unfold EnrichKeywords.handler.
  rewrite EnrichKeywords_loop with (ws := ws) by done.
  rewrite Hobj, bind_lift_inr.
  destruct (process_groups_fail w (JS.Object_entries obj) [] init j g Hc Hj Hf)
    as (msg & s' & ->).
  by exists msg.
Qed.

(** When no group's call reports an error, the answer is the flat list of
    the returned records, group by group in the order of the groups, each
    annotated with the country of its group; one call is issued per group
    and one insert per record matched to an entry with an identifier. *)
Theorem EnrichKeywords_success w req ws obj :
  Auth.verifyApiKey (env w) req = true ->
  method req = "POST" ->
  resolution w (req_body req) = Some ws ->
  ws <> [] -> length ws <= 100 ->
  credentials_missing (env w) = false ->
  EnrichKeywords.byCountry ws = inr obj ->
  all_groups_ok w 0 (JS.Object_entries obj) = true ->
  let gs := JS.Object_entries obj in
  let data := concat (imap (group_entries w) gs) in
  fst (EnrichKeywords.handler w req) =
    Response.success data {| EnrichKeywords.count := length data |}
  /\ calls (snd (EnrichKeywords.handler w req)) = List.map planned_call gs
  /\ writes (snd (EnrichKeywords.handler w req)) = concat (imap (group_writes w) gs).
Proof.
  intros Hauth Hm Hres Hne Hle Hc Hobj Hok. simpl. unfold EnrichKeywords.handler.
  rewrite EnrichKeywords_loop with (ws := ws) by done.
  rewrite Hobj, bind_lift_inr.
  destruct (process_groups_ok w (JS.Object_entries obj) [] init Hc Hok) as [lg ->].
  done.
Qed.

Lemma process_groups_throws w gs : forall results s e s',
  credentials_missing (env w) = false ->
  foldM (EnrichKeywords.process_group w) gs results s = (inl e, s') ->
  exists msg, e = ThrowApp (ExternalApiError "DataForSEO" msg).
Proof.
  induction gs as [|g0 gs IH]; intros results s e s' Hc H; [done|].
  cbn [foldM] in H. unfold mbind, M_bind at 1 in H.
  destruct (JS.str_truthy (outcome_error "API request failed"
              (group_outcome w (length (calls s)) g0))) eqn:E0.
  - rewrite process_group_fail in H by done. inversion H; subst. eauto.
  - destruct (process_group_ok w results g0 s Hc E0) as [lg1 H1]. rewrite H1 in H.
    by eapply IH.
Qed.

(** Whatever the provider does, the calls issued are an initial segment of
    one call per group, in the order of the groups, and all of them when the
    request succeeds. *)
Theorem EnrichKeywords_calls_one_per_group w req ws obj :
  Auth.verifyApiKey (env w) req = true ->
  method req = "POST" ->
  resolution w (req_body req) = Some ws ->
  ws <> [] -> length ws <= 100 ->
  credentials_missing (env w) = false ->
  EnrichKeywords.byCountry ws = inr obj ->
  exists k, k <= length (JS.Object_entries obj)
    /\ calls (snd (EnrichKeywords.handler w req)) =
       List.map planned_call (take k (JS.Object_entries obj))
    /\ (Response.status (fst (EnrichKeywords.handler w req)) = 200%Z ->
        k = length (JS.Object_entries obj)).
Proof.
  intros Hauth Hm Hres Hne Hle Hc Hobj. unfold EnrichKeywords.handler.
  rewrite EnrichKeywords_loop with (ws := ws) by done.
  rewrite Hobj, bind_lift_inr.
  destruct (foldM (EnrichKeywords.process_group w) (JS.Object_entries obj) [] init)
    as [r s'] eqn:E.
  destruct (process_groups_calls w _ _ _ _ _ Hc E) as (k & Hk & Hin & Hle').
  exists k. split; [done|]. destruct r as [e|data]; simpl; (split; [done|]).
  - destruct (process_groups_throws w _ _ _ _ _ Hc E) as [msg ->]. done.
  - intros _. apply Hin. by eexists.
Qed.

(** A country that names a member of [Object.prototype] cannot be grouped:
    the request ends in the generic internal error before any call. *)
Theorem EnrichKeywords_inherited_country w req ws :
  Auth.verifyApiKey (env w) req = true ->
  method req = "POST" ->
  resolution w (req_body req) = Some ws ->
  length ws <= 100 ->
  existsb (fun kw => JS.inherited (effective_country kw)) ws = true ->
  EnrichKeywords.handler w req =
  ({| Response.status := 500;
      Response.body := Response.Failure "INTERNAL_ERROR"
                         "An unexpected error occurred" None |}, init).
Proof.
  intros Hauth Hm Hres Hle Hex. unfold EnrichKeywords.handler.
  rewrite EnrichKeywords_loop with (ws := ws); [|done..| |done].
  - rewrite byCountry_inherited by done. reflexivity.
  - by destruct ws.
Qed.

End KeywordTheorems.

Section KeywordWitnesses.
Import Errors Eff.

Lemma EnrichKeywords_working_set_limits_witness :
  EnrichKeywords.handler (Fixtures.world_quiet Fixtures.env_configured)
    (Fixtures.authorized "POST"
       (Fixtures.inline_body (repeat (Fixtures.inline "pension advice" "UK") 101))) =
  (Response.error (ThrowApp (ValidationError "Maximum 100 keywords per request"
                     (Some (DReceivedMaximum 101 100)))),
   init).
Proof.
  apply (proj2 (EnrichKeywords_working_set_limits
                  (Fixtures.world_quiet Fixtures.env_configured)
                  (Fixtures.authorized "POST"
                     (Fixtures.inline_body
                        (repeat (Fixtures.inline "pension advice" "UK") 101)))
                  (List.map EnrichKeywords.inline_entry
                     (repeat (Fixtures.inline "pension advice" "UK") 101))
                  eq_refl eq_refl eq_refl)).
  vm_compute. lia.
Defined.

Lemma EnrichKeywords_provider_failure_witness :
  exists msg,
    fst (EnrichKeywords.handler Fixtures.world_second_call_down
           (Fixtures.authorized "POST" (Fixtures.inline_body Fixtures.three_inline))) =
    {| Response.status := 502;
       Response.body := Response.Failure "EXTERNAL_API_ERROR"
                          ("DataForSEO API error: " +:+ msg) (Some None) |}.
Proof.
  eapply (EnrichKeywords_provider_failure Fixtures.world_second_call_down
            (Fixtures.authorized "POST" (Fixtures.inline_body Fixtures.three_inline))
            (List.map EnrichKeywords.inline_entry Fixtures.three_inline)
            _ 1 _ eq_refl eq_refl eq_refl).
  - discriminate.
  - vm_compute. lia.
  - reflexivity.
  - vm_compute. reflexivity.
  - vm_compute. reflexivity.
  - vm_compute. reflexivity.
Defined.

Lemma EnrichKeywords_success_witness :
  List.map Enriched.country
    match Response.body
            (fst (EnrichKeywords.handler Fixtures.world_metrics
                    (Fixtures.authorized "POST"
                       (Fixtures.inline_body Fixtures.three_inline)))) with
    | Response.Success data _ => data
    | Response.Failure _ _ _ => []
    end = ["UK"; "UK"; "US"]
  /\ length (calls (snd (EnrichKeywords.handler Fixtures.world_metrics
                           (Fixtures.authorized "POST"
                              (Fixtures.inline_body Fixtures.three_inline))))) = 2.
Proof.
  destruct (EnrichKeywords_success Fixtures.world_metrics
              (Fixtures.authorized "POST" (Fixtures.inline_body Fixtures.three_inline))
              (List.map EnrichKeywords.inline_entry Fixtures.three_inline)
              (partition_by_country
                 (List.map EnrichKeywords.inline_entry Fixtures.three_inline))
              eq_refl eq_refl eq_refl)
    as (Hd & Hc & Hw).
  - discriminate.
  - vm_compute. lia.
  - reflexivity.
  - vm_compute. reflexivity.
  - vm_compute. reflexivity.
  - rewrite Hd, Hc. split; vm_compute; reflexivity.
Defined.

End KeywordWitnesses.

Section KeywordTheorems2.
Import Errors Eff.

Lemma EnrichKeywords_calls_one_per_group_witness :
  exists k, k <= 2
    /\ calls (snd (EnrichKeywords.handler Fixtures.world_second_call_down
                     (Fixtures.authorized "POST"
                        (Fixtures.inline_body Fixtures.three_inline)))) =
       List.map planned_call
         (take k (partition_by_country
                    (List.map EnrichKeywords.inline_entry Fixtures.three_inline))).
Proof.
  destruct (EnrichKeywords_calls_one_per_group Fixtures.world_second_call_down
              (Fixtures.authorized "POST" (Fixtures.inline_body Fixtures.three_inline))
              (List.map EnrichKeywords.inline_entry Fixtures.three_inline)
              (partition_by_country
                 (List.map EnrichKeywords.inline_entry Fixtures.three_inline))
              eq_refl eq_refl eq_refl)
    as (k & Hk & Hc & _).
  - discriminate.
  - vm_compute. lia.
  - reflexivity.
  - vm_compute. reflexivity.
  - exists k. split; [exact Hk|exact Hc].
Defined.

Lemma EnrichKeywords_inherited_country_witness :
  EnrichKeywords.handler Fixtures.world_metrics
    (Fixtures.authorized "POST"
       (Fixtures.inline_body [Fixtures.inline "pension advice" "constructor"])) =
  ({| Response.status := 500;
      Response.body := Response.Failure "INTERNAL_ERROR"
                         "An unexpected error occurred" None |}, init).
Proof.
  apply (EnrichKeywords_inherited_country Fixtures.world_metrics
           (Fixtures.authorized "POST"
              (Fixtures.inline_body [Fixtures.inline "pension advice" "constructor"]))
           [EnrichKeywords.inline_entry (Fixtures.inline "pension advice" "constructor")]
           eq_refl eq_refl eq_refl).
  - vm_compute. lia.
  - vm_compute. reflexivity.
Defined.

(** The country partition is stable. For country codes that a plain object
    treats as ordinary keys, the groups appear in the order in which their
    country first occurs in the working set, each country once, and the
    members of a group keep their original relative order. *)
Theorem byCountry_stable_partition ws :
  forallb (fun kw => plain_country (effective_country kw)) ws = true ->
  exists obj,
    EnrichKeywords.byCountry ws = inr obj
    /\ List.map fst (JS.Object_entries obj) = first_seen (List.map effective_country ws)
    /\ NoDup (List.map fst (JS.Object_entries obj))
    /\ (forall c kws, In (c, kws) (JS.Object_entries obj) -> kws = members c ws)
    /\ (forall kw, In kw ws ->
          exists kws, In (effective_country kw, kws) (JS.Object_entries obj)
                      /\ In kw kws).
Proof.
  intros H. destruct (byCountry_entries ws H) as (obj & Hobj & He).
  exists obj. rewrite He. split; [done|]. split; [apply partition_keys|].
  split; [rewrite partition_keys; apply first_seen_NoDup|]. split.
  - intros c kws Hin. unfold partition_by_country in Hin.
    apply in_map_iff in Hin as (c' & E & _). by inversion E.
  - intros kw Hkw. exists (members (effective_country kw) ws). split.
    + unfold partition_by_country. apply in_map_iff.
      exists (effective_country kw). split; [done|].
      apply list_elem_of_In, first_seen_elem, list_elem_of_In, in_map. done.
    + unfold members. apply filter_In. split; [done|]. apply String.eqb_refl.
Qed.

Lemma byCountry_stable_partition_witness :
  exists obj,
    EnrichKeywords.byCountry
      (List.map EnrichKeywords.inline_entry Fixtures.three_inline) = inr obj
    /\ List.map fst (JS.Object_entries obj) = ["UK"; "US"].
Proof.
  destruct (byCountry_stable_partition
              (List.map EnrichKeywords.inline_entry Fixtures.three_inline) eq_refl)
    as (obj & Hobj & Hk & _).
  exists obj. split; [exact Hobj|]. rewrite Hk. reflexivity.
Defined.

(** [fetchDataForSEO] refuses to call out without credentials; with them it
    issues exactly one call, never throws, and reports an error with a
    message that is never empty whenever the provider's status is not 20000
    (a missing status message is replaced by the default one). *)
Theorem fetchDataForSEO_contract w kws loc s :
  (credentials_missing (env w) = true ->
     EnrichKeywords.fetchDataForSEO w kws loc s =
     (inl (ThrowApp (ValidationError "DataForSEO credentials not configured" None)), s))
  /\ (credentials_missing (env w) = false ->
      exists resp,
        EnrichKeywords.fetchDataForSEO w kws loc s =
        (inr resp, {| calls := calls s ++ [CallSearchVolume kws loc];
                      writes := writes s; log := log s |})
        /\ (forall sc sm res,
              fetch_search_volume w (length (calls s)) kws loc = Resolved sc sm res ->
              sc <> 20000%Z ->
              JS.str_truthy (ProviderResponse.error resp) = true
              /\ ProviderResponse.results resp = None)
        /\ (forall sm res,
              fetch_search_volume w (length (calls s)) kws loc = Resolved 20000 sm res ->
              ProviderResponse.error resp = None
              /\ ProviderResponse.results resp = Some (default [] res))
        /\ (forall msg,
              fetch_search_volume w (length (calls s)) kws loc = Rejected msg ->
              ProviderResponse.error resp = Some msg)).
Proof.
  split.
  - intros Hc. unfold EnrichKeywords.fetchDataForSEO. by rewrite Hc.
  - intros Hc. eexists. split; [by apply fetchDataForSEO_run|]. simpl.
    split; [|split].
    + intros sc sm res -> Hsc. simpl.
      destruct (Z.eqb_spec sc 20000) as [?|_]; [done|]. simpl. split; [|done].
      destruct sm as [m|]; simpl; [|done].
      destruct (String.eqb m "") eqn:E; simpl; [done|by rewrite E].
    + intros sm res ->. done.
    + intros msg ->. done.
Qed.

Lemma fetchDataForSEO_contract_witness :
  EnrichKeywords.fetchDataForSEO
    (Fixtures.world_quiet
       {| API_KEY := Some "k"; DATAFORSEO_LOGIN := None; DATAFORSEO_PASSWORD := Some "p" |})
    ["pension advice"] (Some 2826%Z) init =
  (inl (ThrowApp (ValidationError "DataForSEO credentials not configured" None)), init).
Proof.
  apply (proj1 (fetchDataForSEO_contract _ _ _ _)). reflexivity.
Defined.

End KeywordTheorems2.

Section Reconciliation.
Import Errors Eff.

Lemma js_or_zero (v : JS.jsval) :
  JS.js_or v (JS.JNum 0) <> JS.JUndefined
  /\ JS.js_or v (JS.JNum 0) <> JS.JNull
  /\ (JS.truthy v = false -> JS.js_or v (JS.JNum 0) = JS.JNum 0)
  /\ (JS.truthy v = true -> JS.js_or v (JS.JNum 0) = v).
Proof.
  unfold JS.js_or. destruct (JS.truthy v) eqn:E; repeat split; try done;
    destruct v; done.
Qed.






(** The fields of a response entry and of the row written for it. The entry
    carries the record's own text and the country of the group, the row the
    identifier of the matched keyword. Each of the four numeric fields is the
    provider's value when that is truthy and 0 otherwise, hence never [null]
    or [undefined], in the entry and in the row alike. *)
Theorem numeric_fields_default_to_zero (c i : string) (r : MetricsResult.t) :
  let e := EnrichKeywords.enriched c r in
  let m := EnrichKeywords.metric_row i r in
  Enriched.keyword e = MetricsResult.keyword r
  /\ Enriched.country e = c
  /\ KeywordMetric.keyword_id m = i
  /\ defaulted (JS.JNum 0) (MetricsResult.search_volume r) (Enriched.search_volume e)
  /\ defaulted (JS.JNum 0) (MetricsResult.keyword_difficulty r) (Enriched.difficulty e)
  /\ defaulted (JS.JNum 0) (MetricsResult.cpc r) (Enriched.cpc e)
  /\ defaulted (JS.JNum 0) (MetricsResult.competition r) (Enriched.competition e)
  /\ defaulted (JS.JNum 0) (MetricsResult.search_volume r) (KeywordMetric.search_volume m)
  /\ defaulted (JS.JNum 0) (MetricsResult.keyword_difficulty r) (KeywordMetric.difficulty m)
  /\ defaulted (JS.JNum 0) (MetricsResult.cpc r) (KeywordMetric.cpc m)
  /\ defaulted (JS.JNum 0) (MetricsResult.competition r) (KeywordMetric.competition m)
  /\ Forall (fun v => v <> JS.JUndefined /\ v <> JS.JNull)
       [ Enriched.search_volume e; Enriched.difficulty e; Enriched.cpc e;
         Enriched.competition e;
         KeywordMetric.search_volume m; KeywordMetric.difficulty m;
         KeywordMetric.cpc m; KeywordMetric.competition m ].
Proof.
  assert (Hd : forall v, defaulted (JS.JNum 0) v (JS.js_or v (JS.JNum 0))).
  { intros v. split; intros H; by apply js_or_zero. }
  cbv zeta. unfold EnrichKeywords.enriched, EnrichKeywords.metric_row.
  cbn [Enriched.keyword Enriched.country Enriched.search_volume Enriched.difficulty
       Enriched.cpc Enriched.competition KeywordMetric.keyword_id
       KeywordMetric.search_volume KeywordMetric.difficulty KeywordMetric.cpc
       KeywordMetric.competition].
  do 3 (split; [done|]). do 8 (split; [apply Hd|]).
  repeat constructor; apply js_or_zero.
Qed.

Lemma numeric_fields_default_to_zero_witness :
  Enriched.search_volume (EnrichKeywords.enriched "UK" (Fixtures.volume "isa allowance"))
    = JS.JNum (Q2Qc 1900)
  /\ Enriched.difficulty (EnrichKeywords.enriched "UK" (Fixtures.volume "isa allowance"))
    = JS.JNum 0
  /\ KeywordMetric.cpc (EnrichKeywords.metric_row "k-1" (Fixtures.volume "isa allowance"))
    = JS.JNum (Q2Qc (5 # 2))
  /\ KeywordMetric.competition
       (EnrichKeywords.metric_row "k-1" (Fixtures.volume "isa allowance"))
    = JS.JNum 0.
Proof.
  destruct (numeric_fields_default_to_zero "UK" "k-1" (Fixtures.volume "isa allowance"))
    as (_ & _ & _ & [Hv _] & [_ Hd] & _ & _ & _ & _ & [Hc _] & [_ Hk] & _).
  split; [|split; [|split]].
  - rewrite Hv; reflexivity.
  - apply Hd. reflexivity.
  - rewrite Hc; reflexivity.
  - apply Hk. reflexivity.
Defined.

End Reconciliation.

Section SerpLoops.
Import Errors Eff.

Lemma fetchSERP_run w kw loc s :
  credentials_missing (env w) = false ->
  EnrichSerp.fetchSERP w kw loc s =
  (inr {| EnrichSerp.error :=
            outcome_error "SERP API request failed"
              (fetch_serp w (length (calls s)) kw loc);
          EnrichSerp.items :=
            match outcome_error "SERP API request failed"
                    (fetch_serp w (length (calls s)) kw loc) with
            | Some _ => None
            | None => Some (organic_items (fetch_serp w (length (calls s)) kw loc))
            end |},
   {| calls := calls s ++ [CallSerp kw loc]; writes := writes s; log := log s |}).
Proof.
  intros Hc. unfold EnrichSerp.fetchSERP. rewrite Hc.
  unfold mbind, M_bind, record_call, mret, M_ret, organic_items. simpl.
  destruct (fetch_serp w (length (calls s)) kw loc) as [msg|sc sm res]; simpl;
    [done|].
  by destruct (sc =? 20000)%Z.
Qed.

Lemma process_item_step w cd kw sr cr item :
  EnrichSerp.process_item w cd kw (sr, cr) item =
  (sr ++ [EnrichSerp.serp_record w kw item], cr ++ competitor_records w cd kw item).
Proof.
  unfold EnrichSerp.process_item, competitor_records.
  destruct (cd !! EnrichSerp.extractDomain w (EnrichSerp.url item)) as [cid|]; simpl.
  - destruct (String.eqb cid ""); simpl; [by rewrite app_nil_r|done].
  - by rewrite app_nil_r.
Qed.

Lemma process_items_run w cd kw items : forall sr cr,
  fold_left (EnrichSerp.process_item w cd kw) items (sr, cr) =
  (sr ++ List.map (EnrichSerp.serp_record w kw) items,
   cr ++ flat_map (competitor_records w cd kw) items).
Proof.
  induction items as [|item items IH]; intros sr cr.
  - simpl. by rewrite !app_nil_r.
  - cbn [fold_left List.map flat_map]. rewrite process_item_step, IH.
    by rewrite <- !app_assoc.
Qed.

Lemma process_keyword_run w cd acc kw s :
  credentials_missing (env w) = false ->
  EnrichSerp.process_keyword w cd acc kw s =
  (inr {| EnrichSerp.results :=
            EnrichSerp.results acc ++ [keyword_entry w (length (calls s)) kw];
          EnrichSerp.serpRecords :=
            EnrichSerp.serpRecords acc ++ keyword_serp_records w (length (calls s)) kw;
          EnrichSerp.competitorRecords :=
            EnrichSerp.competitorRecords acc ++
            keyword_competitor_records w cd (length (calls s)) kw |},
   {| calls := calls s ++ [serp_call kw]; writes := writes s; log := log s |}).
Proof.
  intros Hc. unfold EnrichSerp.process_keyword.
  unfold mbind, M_bind at 1. rewrite fetchSERP_run by done. cbv beta iota.
  unfold keyword_entry, keyword_serp_records, keyword_competitor_records,
    serp_error, serp_outcome, serp_call.
  cbn [EnrichSerp.error EnrichSerp.items].
  set (o := fetch_serp w (length (calls s)) _ _).
  destruct (JS.str_truthy (outcome_error "SERP API request failed" o)) eqn:Et.
  - rewrite !app_nil_r. reflexivity.
  - assert (Hi : default [] (match outcome_error "SERP API request failed" o with
                             | Some _ => None
                             | None => Some (organic_items o)
                             end) = organic_items o).
    { unfold organic_items. destruct o as [msg|sc sm res]; simpl in *; [done|].
      destruct (sc =? 20000)%Z; simpl in *; done. }
    assert (Hh : EnrichSerp.hoxton_position w
                   (match outcome_error "SERP API request failed" o with
                    | Some _ => None
                    | None => Some (organic_items o)
                    end) = EnrichSerp.hoxton_position w (Some (organic_items o))).
    { unfold organic_items. destruct o as [msg|sc sm res]; simpl in *; [done|].
      destruct (sc =? 20000)%Z; simpl in *; done. }
    rewrite Hi, Hh, process_items_run. reflexivity.
Qed.

Lemma process_keywords_run w cd kws : forall acc s,
  credentials_missing (env w) = false ->
  foldM (EnrichSerp.process_keyword w cd) kws acc s =
  (inr {| EnrichSerp.results :=
            EnrichSerp.results acc ++
            imap (fun j kw => keyword_entry w (length (calls s) + j) kw) kws;
          EnrichSerp.serpRecords :=
            EnrichSerp.serpRecords acc ++
            concat (imap (fun j kw => keyword_serp_records w (length (calls s) + j) kw) kws);
          EnrichSerp.competitorRecords :=
            EnrichSerp.competitorRecords acc ++
            concat (imap (fun j kw =>
                            keyword_competitor_records w cd (length (calls s) + j) kw) kws) |},
   {| calls := calls s ++ List.map serp_call kws; writes := writes s; log := log s |}).
Proof.
  induction kws as [|kw kws IH]; intros acc s Hc.
  - simpl. rewrite !app_nil_r. by destruct acc, s.
  - cbn [foldM]. unfold mbind, M_bind at 1. rewrite process_keyword_run by done.
    rewrite IH by done. cbn [calls writes log EnrichSerp.results
      EnrichSerp.serpRecords EnrichSerp.competitorRecords].
    rewrite length_app. cbn [length].
    rewrite (imap_offset_cons (fun n kw => keyword_entry w n kw)).
    rewrite (imap_offset_cons (fun n kw => keyword_serp_records w n kw)).
    rewrite (imap_offset_cons (fun n kw => keyword_competitor_records w cd n kw)).
    cbn [concat List.map]. rewrite <- !app_assoc. cbn [app].
    replace (length (calls s) + 1) with (S (length (calls s))) by lia.
    reflexivity.
Qed.

End SerpLoops.

Section SerpHandler.
Import Errors Eff.

Lemma insert_run w wr label s :
  insert w wr label s =
  (inr tt, {| calls := calls s; writes := writes s ++ [wr];
              log := match insert_error w (length (writes s)) wr with
                     | Some e => log s ++ [(label, e)]
                     | None => log s
                     end |}).
Proof. reflexivity. Qed.

(** The handler up to the lookup of the keywords. *)
Lemma EnrichSerp_run_validated w req ids s :
  Auth.verifyApiKey (env w) req = true ->
  method req = "POST" ->
  EnrichSerp.keyword_ids (req_body req) = EnrichSerp.Ids ids ->
  EnrichSerp.run w req s =
  if (length ids =? 0)%nat then
    (inl (ThrowApp (ValidationError "keyword_ids array cannot be empty" None)), s)
  else if (50 <? length ids)%nat then
    (inl (ThrowApp (ValidationError "Maximum 50 keywords per SERP request"
            (Some (DReceivedMaximum (length ids) 50)))), s)
  else
    match select_keywords w ids with
    | inl dbError => (inl (ThrowApp (mapSupabaseError dbError "select")), s)
    | inr keywords =>
        if (length keywords =? 0)%nat then
          (inl (ThrowApp (ValidationError "No keywords found with provided IDs" None)), s)
        else
          (acc ← foldM (EnrichSerp.process_keyword w
                          (EnrichSerp.competitor_map (select_competitors w)))
                  keywords
                  {| EnrichSerp.results := []; EnrichSerp.serpRecords := [];
                     EnrichSerp.competitorRecords := [] |};
           (if (0 <? length (EnrichSerp.serpRecords acc))%nat then
              insert w (WSerp (EnrichSerp.serpRecords acc)) "Failed to insert SERP records:"
            else mret tt);;
           (if (0 <? length (EnrichSerp.competitorRecords acc))%nat then
              insert w (WCompetitor (EnrichSerp.competitorRecords acc))
                     "Failed to insert competitor records:"
            else mret tt);;
           mret acc) s
    end.
Proof.
  intros Hauth Hm Hids. unfold EnrichSerp.run.
  rewrite Hauth, (validateMethod_post req Hm), Hids. cbn [negb].
  rewrite bind_lift_inr.
  change (Validate.validateRequired _ ["keyword_ids"]) with (@inr Thrown unit tt).
  rewrite bind_lift_inr.
  change (Validate.validateType _ "keyword_ids" "array") with (@inr Thrown unit tt).
  rewrite bind_lift_inr. cbv beta iota zeta.
  destruct (length ids =? 0)%nat; [reflexivity|].
  destruct (50 <? length ids)%nat; [reflexivity|].
  destruct (select_keywords w ids) as [e|kws]; [reflexivity|].
  destruct (length kws =? 0)%nat; reflexivity.
Qed.

End SerpHandler.

Section SerpTheorems.
Import Errors Eff.

(** /enrich/serp validates the identifiers before it touches the store or
    the provider: a missing field, an empty array and more than 50
    identifiers are each refused with their own validation error, with
    nothing fetched, written or logged. *)
Theorem EnrichSerp_limits w req :
  Auth.verifyApiKey (env w) req = true ->
  method req = "POST" ->
  (EnrichSerp.keyword_ids (req_body req) = EnrichSerp.Missing ->
     EnrichSerp.handler w req =
     (Response.error (ThrowApp (ValidationError "Missing required field(s): keyword_ids"
                        (Some (DMissing ["keyword_ids"])))), init))
  /\ (EnrichSerp.keyword_ids (req_body req) = EnrichSerp.Ids [] ->
        EnrichSerp.handler w req =
        (Response.error (ThrowApp (ValidationError "keyword_ids array cannot be empty"
                           None)), init))
  /\ (forall ids, EnrichSerp.keyword_ids (req_body req) = EnrichSerp.Ids ids ->
        50 < length ids ->
        EnrichSerp.handler w req =
        (Response.error (ThrowApp (ValidationError "Maximum 50 keywords per SERP request"
                           (Some (DReceivedMaximum (length ids) 50)))), init)).
Proof.
  intros Hauth Hm. split; [|split].
  - intros Hk. unfold EnrichSerp.handler, EnrichSerp.run.
    rewrite Hauth, (validateMethod_post req Hm), Hk. reflexivity.
  - intros Hk. unfold EnrichSerp.handler.
    rewrite (EnrichSerp_run_validated w req []) by done. reflexivity.
  - intros ids Hk Hlen. unfold EnrichSerp.handler.
    rewrite (EnrichSerp_run_validated w req ids) by done.
    destruct (Nat.eqb_spec (length ids) 0); [lia|].
    destruct (Nat.ltb_spec 50 (length ids)); [done|lia].
Qed.

Lemma EnrichSerp_limits_witness :
  EnrichSerp.handler Fixtures.world_metrics
    (Fixtures.authorized "POST"
       {| EnrichSerp.keyword_ids := EnrichSerp.Ids (repeat "k-1" 51) |}) =
  (Response.error (ThrowApp (ValidationError "Maximum 50 keywords per SERP request"
                     (Some (DReceivedMaximum 51 50)))), init).
Proof.
  destruct (EnrichSerp_limits Fixtures.world_metrics
              (Fixtures.authorized "POST"
                 {| EnrichSerp.keyword_ids := EnrichSerp.Ids (repeat "k-1" 51) |})
              eq_refl eq_refl) as (_ & _ & H).
  apply (H (repeat "k-1" 51) eq_refl). vm_compute. lia.
Defined.

(** Once the identifiers are accepted, three things still fail the whole
    request, each before any call to the provider: an error of the lookup
    (mapped by [mapSupabaseError]), a lookup that finds no row, and missing
    provider credentials. *)
Theorem EnrichSerp_request_wide_failures w req ids :
  Auth.verifyApiKey (env w) req = true ->
  method req = "POST" ->
  EnrichSerp.keyword_ids (req_body req) = EnrichSerp.Ids ids ->
  ids <> [] -> length ids <= 50 ->
  (forall e, select_keywords w ids = inl e ->
     EnrichSerp.handler w req =
     (Response.error (ThrowApp (mapSupabaseError e "select")), init))
  /\ (select_keywords w ids = inr [] ->
        EnrichSerp.handler w req =
        (Response.error (ThrowApp (ValidationError "No keywords found with provided IDs"
                           None)), init))
  /\ (forall kw kws, select_keywords w ids = inr (kw :: kws) ->
        credentials_missing (env w) = true ->
        EnrichSerp.handler w req =
        (Response.error (ThrowApp (ValidationError "DataForSEO credentials not configured"
                           None)), init)).
Proof.
  intros Hauth Hm Hk Hne Hle.
  assert (E0 : (length ids =? 0)%nat = false).
  { destruct ids; [done|reflexivity]. }
  assert (E1 : (50 <? length ids)%nat = false) by (apply Nat.ltb_ge; lia).
  split; [|split].
  - intros e He. unfold EnrichSerp.handler.
    rewrite (EnrichSerp_run_validated w req ids), E0, E1, He by done. reflexivity.
  - intros He. unfold EnrichSerp.handler.
    rewrite (EnrichSerp_run_validated w req ids), E0, E1, He by done. reflexivity.
  - intros kw kws He Hc. unfold EnrichSerp.handler.
    rewrite (EnrichSerp_run_validated w req ids), E0, E1, He by done.
    cbn [length Nat.eqb foldM]. unfold mbind, M_bind at 1. unfold mbind, M_bind at 1.
    unfold EnrichSerp.process_keyword at 1. unfold mbind, M_bind at 1.
    unfold EnrichSerp.fetchSERP. rewrite Hc. reflexivity.
Qed.

Lemma EnrichSerp_request_wide_failures_witness :
  EnrichSerp.handler
    (Fixtures.world_quiet
       {| API_KEY := Some "hw-seo-abc123xyz"; DATAFORSEO_LOGIN := Some "login";
          DATAFORSEO_PASSWORD := None |})
    (Fixtures.authorized "POST" {| EnrichSerp.keyword_ids := EnrichSerp.Ids ["k-1"] |}) =
  (Response.error (ThrowApp (ValidationError "DataForSEO credentials not configured"
                     None)), init).
Proof.
  destruct (EnrichSerp_request_wide_failures
              (Fixtures.world_quiet
                 {| API_KEY := Some "hw-seo-abc123xyz"; DATAFORSEO_LOGIN := Some "login";
                    DATAFORSEO_PASSWORD := None |})
              (Fixtures.authorized "POST"
                 {| EnrichSerp.keyword_ids := EnrichSerp.Ids ["k-1"] |})
              ["k-1"] eq_refl eq_refl eq_refl) as (_ & _ & H).
  - discriminate.
  - vm_compute. lia.
  - eapply H; reflexivity.
Defined.

Lemma EnrichSerp_handler_accepted w req ids kws :
  Auth.verifyApiKey (env w) req = true ->
  method req = "POST" ->
  EnrichSerp.keyword_ids (req_body req) = EnrichSerp.Ids ids ->
  ids <> [] -> length ids <= 50 ->
  select_keywords w ids = inr kws ->
  kws <> [] ->
  credentials_missing (env w) = false ->
  exists lg,
    EnrichSerp.handler w req =
    (Response.success (imap (keyword_entry w) kws)
       {| EnrichSerp.keywords_processed := length kws;
          EnrichSerp.serp_records := length (concat (imap (keyword_serp_records w) kws));
          EnrichSerp.competitor_records :=
            length (concat (imap (keyword_competitor_records w
                      (EnrichSerp.competitor_map (select_competitors w))) kws)) |},
     {| calls := List.map serp_call kws;
        writes := final_writes (concat (imap (keyword_serp_records w) kws))
                    (concat (imap (keyword_competitor_records w
                       (EnrichSerp.competitor_map (select_competitors w))) kws));
        log := lg |}).
Proof.
  intros Hauth Hm Hk Hne Hle Hsel Hkws Hc.
  assert (E0 : (length ids =? 0)%nat = false).
  { destruct ids; [done|reflexivity]. }
  assert (E1 : (50 <? length ids)%nat = false) by (apply Nat.ltb_ge; lia).
  assert (E2 : (length kws =? 0)%nat = false).
  { destruct kws; [done|reflexivity]. }
  unfold EnrichSerp.handler.
  rewrite (EnrichSerp_run_validated w req ids), E0, E1, Hsel, E2 by done.
  unfold mbind, M_bind. rewrite process_keywords_run by done.
  cbn [calls writes log init length Nat.add app EnrichSerp.results
       EnrichSerp.serpRecords EnrichSerp.competitorRecords].
  set (sr := concat (imap _ kws)). set (cr := concat (imap _ kws)).
  unfold final_writes.
  destruct (0 <? length sr)%nat; destruct (0 <? length cr)%nat;
    cbn [mret M_ret]; rewrite ?insert_run;
    cbn [calls writes log app mret M_ret EnrichSerp.results
         EnrichSerp.serpRecords EnrichSerp.competitorRecords];
    rewrite ?insert_run;
    cbn [calls writes log app mret M_ret EnrichSerp.results
         EnrichSerp.serpRecords EnrichSerp.competitorRecords];
    eexists; rewrite length_imap; reflexivity.
Qed.

(** The accepted request. With credentials configured nothing fails the
    request any more: every keyword gives exactly one entry, in order, an
    error entry when its call reported an error and a summary otherwise; the
    answer is a success; one call is issued per keyword; and the rows of all
    keywords are written in at most two inserts at the end. *)
Theorem EnrichSerp_success w req ids kws :
  Auth.verifyApiKey (env w) req = true ->
  method req = "POST" ->
  EnrichSerp.keyword_ids (req_body req) = EnrichSerp.Ids ids ->
  ids <> [] -> length ids <= 50 ->
  select_keywords w ids = inr kws ->
  kws <> [] ->
  credentials_missing (env w) = false ->
  let cd := EnrichSerp.competitor_map (select_competitors w) in
  let data := imap (keyword_entry w) kws in
  let sr := concat (imap (keyword_serp_records w) kws) in
  let cr := concat (imap (keyword_competitor_records w cd) kws) in
  fst (EnrichSerp.handler w req) =
    Response.success data
      {| EnrichSerp.keywords_processed := length kws;
         EnrichSerp.serp_records := length sr;
         EnrichSerp.competitor_records := length cr |}
  /\ calls (snd (EnrichSerp.handler w req)) = List.map serp_call kws
  /\ writes (snd (EnrichSerp.handler w req)) = final_writes sr cr.
Proof.
  intros Hauth Hm Hk Hne Hle Hsel Hkws Hc. cbv zeta.
  destruct (EnrichSerp_handler_accepted w req ids kws Hauth Hm Hk Hne Hle Hsel Hkws Hc)
    as [lg ->].
  done.
Qed.

End SerpTheorems.

Section SerpScope.
Import Errors Eff.

Lemma is_error_entry_keyword w j kw :
  is_error_entry (keyword_entry w j kw) = JS.str_truthy (serp_error w j kw).
Proof. unfold keyword_entry. by destruct (JS.str_truthy (serp_error w j kw)). Qed.

Lemma filter_imap_length {A B} (p : B -> bool) (l : list A) : forall (f : nat -> A -> B),
  length (List.filter p (imap f l)) =
  length (List.filter (fun b => b) (imap (fun j x => p (f j x)) l)).
Proof.
  induction l as [|x l IH]; intros f; [done|].
  cbn [imap List.filter]. destruct (p (f 0 x)); cbn [length]; rewrite IH; done.
Qed.

Lemma concat_imap_length_le {A B C} (l : list A) :
  forall (f : nat -> A -> list B) (g : nat -> A -> list C),
  (forall j x, length (f j x) <= length (g j x)) ->
  length (concat (imap f l)) <= length (concat (imap g l)).
Proof.
  induction l as [|x l IH]; intros f g H; [done|].
  cbn [imap concat]. rewrite !length_app.
  specialize (IH (f ∘ S) (g ∘ S) (fun j x => H (S j) x)). specialize (H 0 x). lia.
Qed.

Lemma competitor_records_at_most_one w cd kw item :
  length (competitor_records w cd kw item) <= 1.
Proof.
  unfold competitor_records. destruct (cd !! _) as [cid|]; [|simpl; lia].
  destruct (String.eqb cid ""); simpl; lia.
Qed.

Lemma flat_map_length_le {A B} (f : A -> list B) (l : list A) :
  (forall x, length (f x) <= 1) -> length (flat_map f l) <= length l.
Proof.
  intros H. induction l as [|x l IH]; [done|].
  cbn [flat_map]. rewrite length_app. specialize (H x). simpl. lia.
Qed.

Lemma keyword_records_le w cd j kw :
  length (keyword_competitor_records w cd j kw) <= length (keyword_serp_records w j kw).
Proof.
  unfold keyword_competitor_records, keyword_serp_records.
  destruct (JS.str_truthy (serp_error w j kw)); [done|].
  rewrite length_map. apply flat_map_length_le. intros x.
  apply competitor_records_at_most_one.
Qed.

(** A provider failure is scoped to its keyword. In an accepted request the
    answer is a success with one entry per keyword, in the order of the
    keywords; the entry of a keyword is an error entry exactly when the call
    for that keyword reported an error; and the summary counts agree: as
    many error entries as failed calls, and never more competitor rows than
    ranking rows. *)
Theorem EnrichSerp_failure_is_per_keyword w req ids kws :
  Auth.verifyApiKey (env w) req = true ->
  method req = "POST" ->
  EnrichSerp.keyword_ids (req_body req) = EnrichSerp.Ids ids ->
  ids <> [] -> length ids <= 50 ->
  select_keywords w ids = inr kws ->
  kws <> [] ->
  credentials_missing (env w) = false ->
  exists data meta,
    fst (EnrichSerp.handler w req) = Response.success data meta
    /\ length data = length kws
    /\ EnrichSerp.keywords_processed meta = length kws
    /\ (forall j kw, kws !! j = Some kw ->
          data !! j = Some (keyword_entry w j kw)
          /\ is_error_entry (keyword_entry w j kw) = JS.str_truthy (serp_error w j kw))
    /\ length (List.filter is_error_entry data) =
       length (List.filter (fun b => b)
                 (imap (fun j kw => JS.str_truthy (serp_error w j kw)) kws))
    /\ EnrichSerp.competitor_records meta <= EnrichSerp.serp_records meta.
Proof.
  intros Hauth Hm Hk Hne Hle Hsel Hkws Hc.
  destruct (EnrichSerp_handler_accepted w req ids kws Hauth Hm Hk Hne Hle Hsel Hkws Hc)
    as [lg Hd].
  eexists. eexists. split; [by rewrite Hd|]. cbn [EnrichSerp.keywords_processed
    EnrichSerp.serp_records EnrichSerp.competitor_records].
  split; [apply length_imap|]. split; [done|]. split; [|split].
  - intros j kw Hj. split; [|apply is_error_entry_keyword].
    rewrite list_lookup_imap, Hj. done.
  - rewrite filter_imap_length. f_equal. f_equal. apply imap_ext. intros j x _.
    apply is_error_entry_keyword.
  - apply concat_imap_length_le. intros j x. apply keyword_records_le.
Qed.

Lemma EnrichSerp_failure_is_per_keyword_witness :
  exists data meta,
    fst (EnrichSerp.handler Fixtures.world_second_call_down
           (Fixtures.authorized "POST"
              {| EnrichSerp.keyword_ids := EnrichSerp.Ids ["k-1"; "k-2"; "k-3"] |}))
    = Response.success data meta
    /\ length data = 3
    /\ length (List.filter is_error_entry data) = 1.
Proof.
  destruct (EnrichSerp_failure_is_per_keyword Fixtures.world_second_call_down
              (Fixtures.authorized "POST"
                 {| EnrichSerp.keyword_ids := EnrichSerp.Ids ["k-1"; "k-2"; "k-3"] |})
              ["k-1"; "k-2"; "k-3"]
              (List.map Fixtures.stored ["k-1"; "k-2"; "k-3"])
              eq_refl eq_refl eq_refl)
    as (data & meta & Hd & Hl & _ & _ & He & _).
  - discriminate.
  - vm_compute. lia.
  - reflexivity.
  - discriminate.
  - reflexivity.
  - exists data, meta. split; [exact Hd|]. split; [exact Hl|].
    rewrite He. vm_compute. reflexivity.
Defined.

Lemma EnrichSerp_success_witness :
  calls (snd (EnrichSerp.handler Fixtures.world_second_call_down
                (Fixtures.authorized "POST"
                   {| EnrichSerp.keyword_ids := EnrichSerp.Ids ["k-1"; "k-2"; "k-3"] |})))
  = List.map serp_call (List.map Fixtures.stored ["k-1"; "k-2"; "k-3"]).
Proof.
  destruct (EnrichSerp_success Fixtures.world_second_call_down
              (Fixtures.authorized "POST"
                 {| EnrichSerp.keyword_ids := EnrichSerp.Ids ["k-1"; "k-2"; "k-3"] |})
              ["k-1"; "k-2"; "k-3"]
              (List.map Fixtures.stored ["k-1"; "k-2"; "k-3"])
              eq_refl eq_refl eq_refl)
    as (_ & Hc & _).
  - discriminate.
  - vm_compute. lia.
  - reflexivity.
  - discriminate.
  - reflexivity.
  - exact Hc.
Defined.

End SerpScope.

Section Domains.
Import Errors Eff.

Lemma lower_char_idempotent c : JS.lower_char (JS.lower_char c) = JS.lower_char c.
Proof. destruct c as [[] [] [] [] [] [] [] []]; reflexivity. Qed.

Lemma toLowerCase_idempotent s : JS.toLowerCase (JS.toLowerCase s) = JS.toLowerCase s.
Proof.
  induction s as [|c s IH]; [done|]. unfold JS.toLowerCase in *. simpl.
  by rewrite lower_char_idempotent, IH.
Qed.

Lemma all_chars_drop p n : forall s,
  Url.all_chars p s = true -> Url.all_chars p (JS.drop_string n s) = true.
Proof.
  induction n as [|n IH]; intros s H; [done|].
  destruct s as [|c s]; [done|]. simpl in *.
  apply andb_true_iff in H as [_ H]. by apply IH.
Qed.

Lemma all_chars_substring p m : forall s,
  Url.all_chars p s = true -> Url.all_chars p (String.substring 0 m s) = true.
Proof.
  induction m as [|m IH]; intros s H; destruct s as [|c s]; try done.
  simpl in *. apply andb_true_iff in H as [Hc H]. by rewrite Hc, IH.
Qed.

Lemma host_char_lower c : Url.host_char c = true -> Url.host_char (JS.lower_char c) = true.
Proof. destruct c as [[] [] [] [] [] [] [] []]; vm_compute; done. Qed.

Lemma all_chars_lower s :
  Url.all_chars Url.host_char s = true ->
  Url.all_chars Url.host_char (JS.toLowerCase s) = true.
Proof.
  induction s as [|c s IH]; [done|]. unfold JS.toLowerCase in *. simpl.
  intros H. apply andb_true_iff in H as [Hc H]. by rewrite host_char_lower, IH.
Qed.

Lemma host_chars_no_scheme x :
  Url.all_chars Url.host_char x = true ->
  String.prefix "http://" x = false /\ String.prefix "https://" x = false.
Proof.
  intros H.
  assert (Hcolon : Url.host_char ":" = false) by reflexivity.
  destruct x as [|c1 [|c2 [|c3 [|c4 [|c5 [|c6 x]]]]]];
    cbn [String.prefix Url.all_chars] in *;
    rewrite ?andb_true_iff in H;
    (split;
     repeat (match goal with
             | |- context [ascii_dec ?a ?b] => destruct (ascii_dec a b) as [<-|]
             end; [|reflexivity]);
     try reflexivity);
    exfalso; destruct_and?; congruence.
Qed.

Lemma no_colon_lower_char c :
  negb (Ascii.eqb c ":") = true -> negb (Ascii.eqb (JS.lower_char c) ":") = true.
Proof. destruct c as [[] [] [] [] [] [] [] []]; vm_compute; done. Qed.

Lemma no_colon_lower s :
  Url.no_colon s = true -> Url.no_colon (JS.toLowerCase s) = true.
Proof.
  unfold Url.no_colon, JS.toLowerCase.
  induction s as [|c s IH]; [done|]. simpl.
  intros H. apply andb_true_iff in H as [Hc H].
  by rewrite (no_colon_lower_char c Hc), IH.
Qed.

Lemma no_colon_no_scheme x :
  Url.no_colon x = true ->
  String.prefix "http://" x = false /\ String.prefix "https://" x = false.
Proof.
  unfold Url.no_colon. intros H.
  destruct x as [|c1 [|c2 [|c3 [|c4 [|c5 [|c6 x]]]]]];
    cbn [String.prefix Url.all_chars] in *;
    rewrite ?andb_true_iff in H;
    (split;
     repeat (match goal with
             | |- context [ascii_dec ?a ?b] => destruct (ascii_dec a b) as [<-|]
             end; [|reflexivity]);
     try reflexivity);
    exfalso; destruct_and?; done.
Qed.

Lemma no_colon_unparsed s :
  Url.no_colon s = true -> Url.fragment_hostname s = None.
Proof.
  intros H. unfold Url.fragment_hostname, Url.after_scheme.
  destruct (no_colon_no_scheme (JS.toLowerCase (String.substring 0 7 s))) as [-> _].
  { by apply no_colon_lower, all_chars_substring. }
  destruct (no_colon_no_scheme (JS.toLowerCase (String.substring 0 8 s))) as [_ ->].
  { by apply no_colon_lower, all_chars_substring. }
  done.
Qed.

Lemma host_chars_no_colon d :
  Url.all_chars Url.host_char d = true -> Url.no_colon d = true.
Proof.
  unfold Url.no_colon. induction d as [|c d IH]; [done|]. simpl.
  intros H. apply andb_true_iff in H as [Hc H]. rewrite IH by done.
  rewrite andb_true_r. revert Hc.
  destruct c as [[] [] [] [] [] [] [] []]; vm_compute; done.
Qed.

Lemma fragment_hostname_host url h :
  Url.fragment_hostname url = Some h ->
  Url.all_chars Url.host_char h = true /\ JS.toLowerCase h = h.
Proof.
  unfold Url.fragment_hostname. destruct (Url.after_scheme url) as [rest|]; [|done].
  destruct (Url.host_in_fragment _) eqn:E; [|done]. intros [= <-].
  split; [|apply toLowerCase_idempotent].
  unfold Url.host_in_fragment in E. rewrite !andb_true_iff in E. by destruct E as [[E _] _].
Qed.

Lemma toLowerCase_drop n : forall s,
  JS.toLowerCase (JS.drop_string n s) = JS.drop_string n (JS.toLowerCase s).
Proof.
  induction n as [|n IH]; intros s; [done|]. destruct s as [|c s]; [done|].
  unfold JS.toLowerCase in *. simpl. apply IH.
Qed.

Lemma strip_www_prefixed rest : EnrichSerp.strip_www ("www." +:+ rest) = rest.
Proof.
  unfold EnrichSerp.strip_www, String.append.
  cbn [String.prefix JS.drop_string].
  repeat (match goal with
          | |- context [ascii_dec ?a ?b] => destruct (ascii_dec a b); [|done]
          end).
  by destruct rest.
Qed.

Lemma fragment_parser_standard e :
  standard_parser (Fixtures.world_quiet e).
Proof. split; [done|]. intros s. apply no_colon_unparsed. Qed.

(** [extractDomain] asks the runtime's URL parser. When the parser gives a
    host name, the result is that name without one leading [www.]; when the
    constructor throws, it is the string itself. For a parser that follows
    the URL standard on the fragment described by [Url.fragment_hostname]
    and throws on a string without a colon, a URL of the fragment gives its
    host in lower case, made of host characters only (no scheme, slash, port
    or query is left), and extracting again from that result changes
    nothing, so a domain stored from one SERP item compares equal to the
    domain of the next. *)
Theorem extractDomain_bare_and_idempotent (w : World) (url : string) :
  (forall h, URL_hostname w url = Some h ->
     (forall rest, h = "www." +:+ rest -> EnrichSerp.extractDomain w url = rest)
     /\ (String.prefix "www." h = false -> EnrichSerp.extractDomain w url = h))
  /\ (URL_hostname w url = None -> EnrichSerp.extractDomain w url = url)
  /\ (standard_parser w ->
      forall h, Url.fragment_hostname url = Some h ->
        let d := EnrichSerp.extractDomain w url in
        (forall rest, h = "www." +:+ rest -> d = rest)
        /\ (String.prefix "www." h = false -> d = h)
        /\ h = JS.toLowerCase h
        /\ JS.toLowerCase d = d
        /\ Url.all_chars Url.host_char d = true
        /\ EnrichSerp.extractDomain w d = d).
Proof.
  assert (Hp : forall h, URL_hostname w url = Some h ->
     (forall rest, h = "www." +:+ rest -> EnrichSerp.extractDomain w url = rest)
     /\ (String.prefix "www." h = false -> EnrichSerp.extractDomain w url = h)).
  { intros h Hh. unfold EnrichSerp.extractDomain. rewrite Hh. split.
    - intros rest ->. apply strip_www_prefixed.
    - intros Hw. unfold EnrichSerp.strip_www. by rewrite Hw. }
  split; [exact Hp|]. split.
  { intros Hn. unfold EnrichSerp.extractDomain. by rewrite Hn. }
  intros [Hfrag Hthrow] h Hf. cbv zeta.
  destruct (Hp h (Hfrag url h Hf)) as [Hwww Hbare].
  destruct (fragment_hostname_host url h Hf) as [Hc Hl].
  assert (Hd : EnrichSerp.extractDomain w url = EnrichSerp.strip_www h).
  { unfold EnrichSerp.extractDomain. by rewrite (Hfrag url h Hf). }
  assert (Hs : Url.all_chars Url.host_char (EnrichSerp.strip_www h) = true).
  { unfold EnrichSerp.strip_www. destruct (String.prefix "www." h); [|done].
    by apply all_chars_drop. }
  split; [exact Hwww|]. split; [exact Hbare|]. split; [done|].
  rewrite Hd. split; [|split; [done|]].
  - unfold EnrichSerp.strip_www. destruct (String.prefix "www." h); [|done].
    by rewrite toLowerCase_drop, Hl.
  - unfold EnrichSerp.extractDomain at 1.
    by rewrite (Hthrow _ (host_chars_no_colon _ Hs)).
Qed.

Lemma extractDomain_bare_and_idempotent_witness :
  EnrichSerp.extractDomain (Fixtures.world_quiet Fixtures.env_configured)
    "HTTPS://www.HoxtonWealth.com/pensions?ref=serp" = "hoxtonwealth.com"
  /\ EnrichSerp.extractDomain (Fixtures.world_quiet Fixtures.env_configured)
       "www.Example.com/" = "www.Example.com/".
Proof.
  destruct (extractDomain_bare_and_idempotent
              (Fixtures.world_quiet Fixtures.env_configured)
              "HTTPS://www.HoxtonWealth.com/pensions?ref=serp") as (_ & _ & H).
  destruct (extractDomain_bare_and_idempotent
              (Fixtures.world_quiet Fixtures.env_configured)
              "www.Example.com/") as (_ & H' & _).
  destruct (H (fragment_parser_standard Fixtures.env_configured)
              "www.hoxtonwealth.com" eq_refl) as (Hw & _).
  split; [apply (Hw "hoxtonwealth.com")|apply H']; reflexivity.
Defined.

End Domains.

Section SerpItems.
Import Errors Eff.

(** Reconciliation of the items of one keyword: every item gives exactly one
    ranking row, whose domain is the bare domain of its URL and whose
    [is_hoxton] flag says whether that domain contains the first-party
    domain; an item gives one competitor row when its bare domain is, as it
    stands, the domain of a tracked competitor with a non-empty identifier,
    and none otherwise. *)
Theorem SERP_items_reconciliation w cd kw items sr cr :
  fold_left (EnrichSerp.process_item w cd kw) items (sr, cr) =
    (sr ++ List.map (EnrichSerp.serp_record w kw) items,
     cr ++ flat_map (competitor_records w cd kw) items)
  /\ (forall item,
        SerpRanking.domain (EnrichSerp.serp_record w kw item) =
          EnrichSerp.extractDomain w (EnrichSerp.url item)
        /\ SerpRanking.is_hoxton (EnrichSerp.serp_record w kw item) =
             JS.includes "hoxtonwealth.com" (EnrichSerp.extractDomain w (EnrichSerp.url item))
        /\ (forall cid, cd !! EnrichSerp.extractDomain w (EnrichSerp.url item) = Some cid ->
              cid <> "" ->
              competitor_records w cd kw item =
              [ {| CompetitorRanking.keyword_id := Keyword.id kw;
                   CompetitorRanking.competitor_id := cid;
                   CompetitorRanking.position := EnrichSerp.rank_absolute item;
                   CompetitorRanking.url := EnrichSerp.url item |} ])
        /\ (cd !! EnrichSerp.extractDomain w (EnrichSerp.url item) = None ->
              competitor_records w cd kw item = [])).
Proof.
  split; [apply process_items_run|]. intros item.
  split; [done|]. split; [done|]. unfold competitor_records. split.
  - intros cid -> Hcid. by destruct (String.eqb_spec cid "").
  - by intros ->.
Qed.

Lemma competitor_map_snoc cs c :
  EnrichSerp.competitor_map (Some (cs ++ [c])) =
  <[Competitor.domain c := Competitor.id c]> (EnrichSerp.competitor_map (Some cs)).
Proof. unfold EnrichSerp.competitor_map. simpl. by rewrite foldl_app. Qed.

(** The competitor map answers, for a domain, the identifier of the last
    selected competitor that carries exactly that domain, and nothing for
    any other string; when the select gives no data, the map is empty. *)
Theorem competitor_map_lookup (cs : list Competitor.t) (d : string) :
  EnrichSerp.competitor_map (Some cs) !! d =
    Competitor.id <$> last (List.filter (fun c => String.eqb (Competitor.domain c) d) cs)
  /\ EnrichSerp.competitor_map None !! d = None.
Proof.
  split; [|done].
  induction cs as [|c cs IH] using rev_ind; [done|].
  rewrite competitor_map_snoc, List.filter_app. cbn [List.filter].
  destruct (String.eqb_spec (Competitor.domain c) d) as [->|Hd].
  - rewrite lookup_insert_eq, last_snoc. done.
  - rewrite lookup_insert_ne by done. by rewrite app_nil_r.
Qed.

Lemma SERP_items_reconciliation_witness :
  competitor_records (Fixtures.world_quiet Fixtures.env_configured)
    (EnrichSerp.competitor_map
       (Some [ {| Competitor.id := "c-1"; Competitor.domain := "example.com" |} ]))
    (Fixtures.stored "k-1")
    {| EnrichSerp.rank_absolute := JS.JNum (Q2Qc 1);
       EnrichSerp.url := "https://www.Example.com/";
       EnrichSerp.domain := JS.JUndefined;
       EnrichSerp.title := JS.JStr "Example" |} =
  [ {| CompetitorRanking.keyword_id := Some "k-1";
       CompetitorRanking.competitor_id := "c-1";
       CompetitorRanking.position := JS.JNum (Q2Qc 1);
       CompetitorRanking.url := "https://www.Example.com/" |} ].
Proof.
  destruct (SERP_items_reconciliation
              (Fixtures.world_quiet Fixtures.env_configured)
              (EnrichSerp.competitor_map
                 (Some [ {| Competitor.id := "c-1"; Competitor.domain := "example.com" |} ]))
              (Fixtures.stored "k-1") [] [] []) as [_ H].
  destruct (H {| EnrichSerp.rank_absolute := JS.JNum (Q2Qc 1);
                 EnrichSerp.url := "https://www.Example.com/";
                 EnrichSerp.domain := JS.JUndefined;
                 EnrichSerp.title := JS.JStr "Example" |}) as (_ & _ & Hc & _).
  apply (Hc "c-1"); [vm_compute; reflexivity|discriminate].
Defined.

End SerpItems.

Section Normalisation.
Import Errors.

Lemma is_ws_lower c : JS.is_ws (JS.lower_char c) = JS.is_ws c.
Proof. destruct c as [[] [] [] [] [] [] [] []]; reflexivity. Qed.

Lemma map_string_empty f s : String.eqb (JS.map_string f s) "" = String.eqb s "".
Proof. by destruct s. Qed.

Lemma trimStart_lower s : JS.trimStart (JS.toLowerCase s) = JS.toLowerCase (JS.trimStart s).
Proof.
  induction s as [|c s IH]; [done|]. unfold JS.toLowerCase in *.
  cbn [JS.map_string JS.trimStart]. rewrite is_ws_lower.
  by destruct (JS.is_ws c).
Qed.

Lemma trimEnd_lower s : JS.trimEnd (JS.toLowerCase s) = JS.toLowerCase (JS.trimEnd s).
Proof.
  induction s as [|c s IH]; [done|]. unfold JS.toLowerCase in *.
  cbn [JS.map_string JS.trimEnd]. rewrite is_ws_lower, IH, map_string_empty.
  by destruct (JS.is_ws c && String.eqb (JS.trimEnd s) "").
Qed.

Lemma trim_lower s : JS.trim (JS.toLowerCase s) = JS.toLowerCase (JS.trim s).
Proof. unfold JS.trim. by rewrite trimStart_lower, trimEnd_lower. Qed.

Lemma trimEnd_idempotent s : JS.trimEnd (JS.trimEnd s) = JS.trimEnd s.
Proof.
  induction s as [|c s IH]; [done|]. cbn [JS.trimEnd].
  destruct (JS.is_ws c && String.eqb (JS.trimEnd s) "") eqn:E; [done|].
  cbn [JS.trimEnd]. by rewrite IH, E.
Qed.

Lemma trimStart_trimEnd s :
  JS.trimStart (JS.trimEnd (JS.trimStart s)) = JS.trimEnd (JS.trimStart s).
Proof.
  induction s as [|c s IH]; [done|]. cbn [JS.trimStart].
  destruct (JS.is_ws c) eqn:E; [done|].
  cbn [JS.trimEnd]. rewrite E. cbn [andb JS.trimStart]. by rewrite E.
Qed.

Lemma trim_idempotent s : JS.trim (JS.trim s) = JS.trim s.
Proof. unfold JS.trim. by rewrite trimStart_trimEnd, trimEnd_idempotent. Qed.

Lemma upper_char_idempotent c : JS.upper_char (JS.upper_char c) = JS.upper_char c.
Proof. destruct c as [[] [] [] [] [] [] [] []]; reflexivity. Qed.

Lemma toUpperCase_idempotent s : JS.toUpperCase (JS.toUpperCase s) = JS.toUpperCase s.
Proof.
  induction s as [|c s IH]; [done|]. unfold JS.toUpperCase in *. simpl.
  by rewrite upper_char_idempotent, IH.
Qed.

Lemma all_chars_map p f s :
  (forall c, p c = true -> p (f c) = true) ->
  Url.all_chars p s = true -> Url.all_chars p (JS.map_string f s) = true.
Proof.
  intros Hf. induction s as [|c s IH]; [done|]. simpl.
  intros H. apply andb_true_iff in H as [Hc H]. by rewrite Hf, IH.
Qed.

Lemma all_chars_trimStart p s :
  Url.all_chars p s = true -> Url.all_chars p (JS.trimStart s) = true.
Proof.
  induction s as [|c s IH]; [done|]. cbn [JS.trimStart].
  destruct (JS.is_ws c); [|done]. simpl.
  intros H. apply andb_true_iff in H as [_ H]. by apply IH.
Qed.

Lemma all_chars_trimEnd p s :
  Url.all_chars p s = true -> Url.all_chars p (JS.trimEnd s) = true.
Proof.
  induction s as [|c s IH]; [done|]. cbn [JS.trimEnd]. simpl.
  intros H. apply andb_true_iff in H as [Hc H].
  destruct (JS.is_ws c && _); [done|]. simpl. by rewrite Hc, IH.
Qed.

Lemma is_ascii_lower_char c :
  (N_of_ascii c <? 128)%N = true -> (N_of_ascii (JS.lower_char c) <? 128)%N = true.
Proof. destruct c as [[] [] [] [] [] [] [] []]; vm_compute; done. Qed.

Lemma is_ascii_upper_char c :
  (N_of_ascii c <? 128)%N = true -> (N_of_ascii (JS.upper_char c) <? 128)%N = true.
Proof. destruct c as [[] [] [] [] [] [] [] []]; vm_compute; done. Qed.

Lemma no_upper_toLowerCase s : no_upper (JS.toLowerCase s) = true.
Proof.
  unfold no_upper, JS.toLowerCase. induction s as [|c s IH]; [done|]. simpl.
  rewrite IH, andb_true_r.
  destruct c as [[] [] [] [] [] [] [] []]; reflexivity.
Qed.

Lemma no_lower_toUpperCase s : no_lower (JS.toUpperCase s) = true.
Proof.
  unfold no_lower, JS.toUpperCase. induction s as [|c s IH]; [done|]. simpl.
  rewrite IH, andb_true_r.
  destruct c as [[] [] [] [] [] [] [] []]; reflexivity.
Qed.

Lemma first_not_ws_trimStart s : first_not_ws (JS.trimStart s) = true.
Proof.
  induction s as [|c s IH]; [done|]. cbn [JS.trimStart].
  destruct (JS.is_ws c) eqn:E; [done|]. simpl. by rewrite E.
Qed.

Lemma first_not_ws_trimEnd s :
  first_not_ws s = true -> first_not_ws (JS.trimEnd s) = true.
Proof.
  destruct s as [|c s]; [done|]. cbn [first_not_ws JS.trimEnd].
  intros H. apply negb_true_iff in H. rewrite H. simpl. by rewrite H.
Qed.

Lemma last_not_ws_trimEnd s : last_not_ws (JS.trimEnd s) = true.
Proof.
  induction s as [|c s IH]; [done|]. cbn [JS.trimEnd].
  destruct (JS.trimEnd s) as [|c' r'] eqn:E.
  - cbn [String.eqb]. rewrite andb_true_r.
    destruct (JS.is_ws c) eqn:Ec; [done|]. simpl. by rewrite Ec.
  - cbn [String.eqb]. rewrite andb_false_r. exact IH.
Qed.

Lemma first_not_ws_lower s : first_not_ws (JS.toLowerCase s) = first_not_ws s.
Proof. destruct s as [|c s]; [done|]. simpl. by rewrite is_ws_lower. Qed.

Lemma last_not_ws_lower s : last_not_ws (JS.toLowerCase s) = last_not_ws s.
Proof.
  unfold JS.toLowerCase. induction s as [|c s IH]; [done|].
  destruct s as [|c' s]; [simpl; by rewrite is_ws_lower|].
  exact IH.
Qed.

(** The row /keywords/batch prepares, for a keyword and a country made of
    ASCII characters. The text holds no upper-case letter and neither starts
    nor ends with white space, and the country holds no lower-case letter;
    the row is a fixed point of the preparation, so submitting a stored text
    and country again, in any case and with any surrounding white space,
    meets the same (keyword_text, country) key of the upsert. *)
Theorem prepare_is_idempotent (country kw : string) (cluster page_id : option string) :
  is_ascii kw = true ->
  is_ascii country = true ->
  let p := KeywordsBatch.prepare country cluster page_id kw in
  KeywordsBatch.prepare (PreparedKeyword.country p) cluster page_id
                        (PreparedKeyword.keyword_text p) = p
  /\ is_ascii (PreparedKeyword.keyword_text p) = true
  /\ is_ascii (PreparedKeyword.country p) = true
  /\ no_upper (PreparedKeyword.keyword_text p) = true
  /\ first_not_ws (PreparedKeyword.keyword_text p) = true
  /\ last_not_ws (PreparedKeyword.keyword_text p) = true
  /\ no_lower (PreparedKeyword.country p) = true
  /\ PreparedKeyword.cluster p = cluster
  /\ PreparedKeyword.page_id p = page_id
  /\ JS.trim (PreparedKeyword.keyword_text p) = PreparedKeyword.keyword_text p
  /\ JS.toLowerCase (PreparedKeyword.keyword_text p) = PreparedKeyword.keyword_text p
  /\ JS.toUpperCase (PreparedKeyword.country p) = PreparedKeyword.country p.
Proof.
  intros Hk Hc. cbv zeta. unfold KeywordsBatch.prepare.
  cbn [PreparedKeyword.keyword_text PreparedKeyword.country PreparedKeyword.cluster
       PreparedKeyword.page_id].
  assert (Ht : JS.trim (JS.toLowerCase (JS.trim kw)) = JS.toLowerCase (JS.trim kw)).
  { by rewrite trim_lower, trim_idempotent. }
  rewrite Ht, toLowerCase_idempotent, toUpperCase_idempotent.
  split; [done|]. split; [|split; [|split; [|split; [|split; [|split]]]]].
  - apply all_chars_map; [apply is_ascii_lower_char|].
    by apply all_chars_trimEnd, all_chars_trimStart.
  - by apply all_chars_map; [apply is_ascii_upper_char|].
  - apply no_upper_toLowerCase.
  - rewrite first_not_ws_lower. apply first_not_ws_trimEnd, first_not_ws_trimStart.
  - rewrite last_not_ws_lower. apply last_not_ws_trimEnd.
  - apply no_lower_toUpperCase.
  - done.
Qed.

Lemma prepare_is_idempotent_witness :
  KeywordsBatch.prepare "UK" (Some "Pensions") None "pension transfer" =
  KeywordsBatch.prepare "uk" (Some "Pensions") None "  Pension Transfer ".
Proof.
  exact (proj1 (prepare_is_idempotent "uk" "  Pension Transfer " (Some "Pensions") None
                  eq_refl eq_refl)).
Defined.

End Normalisation.

Section Batch.
Import Errors.

Lemma KeywordsBatch_run_valid upsert e req l c :
  Auth.verifyApiKey e req = true ->
  method req = "POST" ->
  KeywordsBatch.keywords (req_body req) = KeywordsBatch.Keywords l ->
  KeywordsBatch.country (req_body req) = Some c ->
  JS.array_includes KeywordsBatch.VALID_COUNTRIES (JS.toUpperCase c) = true ->
  KeywordsBatch.run upsert e req =
  if (length l =? 0)%nat then
    inl (ThrowApp (ValidationError "Keywords array cannot be empty" None))
  else if (1000 <? length l)%nat then
    inl (ThrowApp (ValidationError "Maximum 1000 keywords per batch"
           (Some (DReceivedMaximum (length l) 1000))))
  else
    match upsert (List.map (KeywordsBatch.prepare c
                              (KeywordsBatch.cluster (req_body req))
                              (KeywordsBatch.page_id (req_body req))) l) with
    | inl dbError => inl (ThrowApp (mapSupabaseError dbError "upsert"))
    | inr data => inr data
    end.
Proof.
  intros Hauth Hm Hk Hc Hv. unfold KeywordsBatch.run.
  rewrite Hauth, (validateMethod_post req Hm), Hk, Hc. cbn [negb].
  unfold mbind at 1, result_bind at 1.
  change (Validate.validateRequired _ ["keywords"; "country"]) with (@inr Thrown unit tt).
  unfold mbind at 1, result_bind at 1.
  change (Validate.validateType _ "keywords" "array") with (@inr Thrown unit tt).
  unfold mbind at 1, result_bind at 1. cbv zeta.
  change (default "" (Some c)) with c.
  unfold Validate.validateEnum. rewrite Hv. cbn [negb].
  unfold mbind at 1, result_bind at 1. reflexivity.
Qed.

(** /keywords/batch refuses an empty batch and one of more than 1000
    keywords before it consults the store: the answer is the same validation
    error whatever the store would do. *)
Theorem KeywordsBatch_limits upsert e req l c :
  Auth.verifyApiKey e req = true ->
  method req = "POST" ->
  KeywordsBatch.keywords (req_body req) = KeywordsBatch.Keywords l ->
  KeywordsBatch.country (req_body req) = Some c ->
  JS.array_includes KeywordsBatch.VALID_COUNTRIES (JS.toUpperCase c) = true ->
  (l = [] ->
     KeywordsBatch.handler upsert e req =
     Response.error (ThrowApp (ValidationError "Keywords array cannot be empty" None)))
  /\ (1000 < length l ->
        KeywordsBatch.handler upsert e req =
        Response.error (ThrowApp (ValidationError "Maximum 1000 keywords per batch"
                          (Some (DReceivedMaximum (length l) 1000))))).
Proof.
  intros Hauth Hm Hk Hc Hv. unfold KeywordsBatch.handler.
  rewrite (KeywordsBatch_run_valid upsert e req l c) by done. split.
  - intros ->. reflexivity.
  - intros Hl. destruct (Nat.eqb_spec (length l) 0); [lia|].
    destruct (Nat.ltb_spec 1000 (length l)); [done|lia].
Qed.

Lemma KeywordsBatch_limits_witness :
  KeywordsBatch.handler (Store.upsert []) Fixtures.env_configured
    (Fixtures.authorized "POST"
       {| KeywordsBatch.keywords := KeywordsBatch.Keywords (repeat "pension advice" 1001);
          KeywordsBatch.country := Some "uk";
          KeywordsBatch.cluster := None;
          KeywordsBatch.page_id := None |}) =
  Response.error (ThrowApp (ValidationError "Maximum 1000 keywords per batch"
                    (Some (DReceivedMaximum 1001 1000)))).
Proof.
  apply (proj2 (KeywordsBatch_limits (Store.upsert []) Fixtures.env_configured
                  (Fixtures.authorized "POST"
                     {| KeywordsBatch.keywords :=
                          KeywordsBatch.Keywords (repeat "pension advice" 1001);
                        KeywordsBatch.country := Some "uk";
                        KeywordsBatch.cluster := None;
                        KeywordsBatch.page_id := None |})
                  (repeat "pension advice" 1001) "uk"
                  eq_refl eq_refl eq_refl eq_refl eq_refl)).
  rewrite repeat_length. lia.
Defined.



End Batch.

Section PagesAndCompetitors.
Import Errors.

(** /pages never answers with a mapped store error. After authentication a
    store error of either method, and the validation error of a POST with a
    missing field, leave [handleGet] or [handlePost] as a rejection that the
    [catch] of the handler does not see: no response is written. What the
    handler does write is a 200, the 401 of a wrong key or the 400 of a
    method other than GET and POST. *)
Theorem Pages_errors_escape_the_handler st e (req : Request Pages.Req) :
  Auth.verifyApiKey e req = true ->
  (forall err, method req = "GET" ->
     Pages.handleGet st req = inl err -> Pages.handler st e req = Unhandled err)
  /\ (forall err, method req = "POST" ->
        Pages.handlePost st req = inl err -> Pages.handler st e req = Unhandled err)
  /\ (method req = "POST" ->
      JS.str_truthy (Pages.page_name (Pages.body (req_body req))) = false ->
      Pages.handler st e req =
      Unhandled (ThrowApp (ValidationError "Missing required fields"
                   (Some (DRequired ["page_name"; "url"; "cluster"])))))
  /\ (forall err, Pages.handleGet st req = inl err ->
        exists dbError, err = ThrowStore dbError)
  /\ (forall r, Pages.handler st e req = Responded r ->
        Response.status r = 200%Z \/
        (Response.status r = 400%Z /\ method req <> "GET" /\ method req <> "POST")).
Proof.
  intros Hauth. unfold Pages.handler. rewrite Hauth. cbn [negb].
  split; [|split; [|split; [|split]]].
  - intros err -> Hg. cbn. by rewrite Hg.
  - intros err -> Hp. cbn. by rewrite Hp.
  - intros -> Hn. cbn. unfold Pages.handlePost. by rewrite Hn.
  - intros err. unfold Pages.handleGet. destruct (Pages.select_pages _ _ _); [|done].
    intros [= <-]. eauto.
  - intros r. destruct (String.eqb_spec (method req) "GET") as [Hg|Hg].
    { unfold settle, Pages.handleGet. destruct (Pages.select_pages _ _ _); [done|].
      intros [= <-]. by left. }
    destruct (String.eqb_spec (method req) "POST") as [Hp|Hp].
    { unfold settle, Pages.handlePost.
      destruct (_ || _); [done|]. destruct (Pages.insert_page _ _); [done|].
      intros [= <-]. by left. }
    intros [= <-]. right. done.
Qed.

Lemma Pages_errors_escape_the_handler_witness :
  Pages.handler Fixtures.pages_store_taken Fixtures.env_configured Fixtures.post_page =
  Unhandled (ThrowStore Fixtures.unique_violation).
Proof.
  destruct (Pages_errors_escape_the_handler Fixtures.pages_store_taken
              Fixtures.env_configured Fixtures.post_page eq_refl) as (_ & H & _).
  apply H; reflexivity.
Defined.

Lemma slash_lower c : Ascii.eqb (JS.lower_char c) "/" = Ascii.eqb c "/".
Proof. destruct c as [[] [] [] [] [] [] [] []]; reflexivity. Qed.

Lemma strip_trailing_slashes_lower s :
  Competitors.strip_trailing_slashes (JS.toLowerCase s) =
  JS.toLowerCase (Competitors.strip_trailing_slashes s).
Proof.
  induction s as [|c s IH]; [done|]. unfold JS.toLowerCase in *.
  cbn [JS.map_string Competitors.strip_trailing_slashes].
  rewrite slash_lower, IH, map_string_empty.
  by destruct (Ascii.eqb c "/" && String.eqb (Competitors.strip_trailing_slashes s) "").
Qed.

Lemma strip_trailing_slashes_idempotent s :
  Competitors.strip_trailing_slashes (Competitors.strip_trailing_slashes s) =
  Competitors.strip_trailing_slashes s.
Proof.
  induction s as [|c s IH]; [done|]. cbn [Competitors.strip_trailing_slashes].
  destruct (Ascii.eqb c "/" && String.eqb (Competitors.strip_trailing_slashes s) "")
    eqn:E; [done|].
  cbn [Competitors.strip_trailing_slashes]. by rewrite IH, E.
Qed.

Lemma strip_protocol_https rest : Competitors.strip_protocol ("https://" +:+ rest) = rest.
Proof.
  unfold Competitors.strip_protocol, String.append.
  cbn [String.prefix JS.drop_string].
  repeat match goal with
         | |- context [ascii_dec ?a ?b] => destruct (ascii_dec a b); try done
         end.
  by destruct rest.
Qed.

Lemma strip_protocol_http rest : Competitors.strip_protocol ("http://" +:+ rest) = rest.
Proof.
  unfold Competitors.strip_protocol, String.append.
  cbn [String.prefix JS.drop_string].
  repeat match goal with
         | |- context [ascii_dec ?a ?b] => destruct (ascii_dec a b); try done
         end.
  by destruct rest.
Qed.

(** The domain /competitors stores is in lower case and has no trailing
    slash; a lower-case [http://] or [https://] in front is removed once. A
    leading [www.] stays, and so does a protocol written in upper case,
    which is only lower-cased. *)
Theorem cleanDomain_normal_form (domain : string) :
  JS.toLowerCase (Competitors.cleanDomain domain) = Competitors.cleanDomain domain
  /\ Competitors.strip_trailing_slashes (Competitors.cleanDomain domain) =
     Competitors.cleanDomain domain
  /\ (forall rest, domain = "https://" +:+ rest ->
        Competitors.cleanDomain domain =
        JS.toLowerCase (Competitors.strip_trailing_slashes rest))
  /\ (forall rest, domain = "http://" +:+ rest ->
        Competitors.cleanDomain domain =
        JS.toLowerCase (Competitors.strip_trailing_slashes rest))
  /\ (String.prefix "http://" domain = false -> String.prefix "https://" domain = false ->
        Competitors.cleanDomain domain =
        JS.toLowerCase (Competitors.strip_trailing_slashes domain)).
Proof.
  unfold Competitors.cleanDomain. split; [apply toLowerCase_idempotent|].
  split; [by rewrite strip_trailing_slashes_lower, strip_trailing_slashes_idempotent|].
  split; [|split].
  - intros rest ->. by rewrite strip_protocol_https.
  - intros rest ->. by rewrite strip_protocol_http.
  - intros H1 H2. unfold Competitors.strip_protocol. by rewrite H1, H2.
Qed.

Lemma cleanDomain_normal_form_witness :
  Competitors.cleanDomain "https://MoneySupermarket.com/" = "moneysupermarket.com"
  /\ Competitors.cleanDomain "HTTPS://www.Example.com//" = "https://www.example.com".
Proof.
  destruct (cleanDomain_normal_form "https://MoneySupermarket.com/") as (_ & _ & H & _).
  destruct (cleanDomain_normal_form "HTTPS://www.Example.com//") as (_ & _ & _ & _ & H').
  split; [apply (H "MoneySupermarket.com/")|apply H']; reflexivity.
Defined.

(** POST /competitors inserts the cleaned domain. A store error is mapped by
    [mapSupabaseError], and so is a missing field turned into a validation
    error, but both leave [handlePost] as a rejection that the [catch] of
    the handler does not see: the 409 of a duplicate domain is never
    written. *)
Theorem Competitors_post st e (req : Request Competitors.Body) d n :
  Auth.verifyApiKey e req = true ->
  method req = "POST" ->
  Competitors.domain (req_body req) = Some d ->
  Competitors.name (req_body req) = Some n ->
  let row := {| Competitors.r_domain := Competitors.cleanDomain d;
                Competitors.r_name := n;
                Competitors.r_notes :=
                  default_undefined (Competitors.notes (req_body req)) JS.JNull |} in
  Competitors.handler st e req =
  match Competitors.insert_competitor st row with
  | inr data => Responded (Response.success (Competitors.OneCompetitor data) None)
  | inl dbError => Unhandled (ThrowApp (mapSupabaseError dbError "insert"))
  end.
Proof.
  intros Hauth Hm Hd Hn. cbv zeta. unfold Competitors.handler.
  rewrite Hauth, Hm. cbn [negb String.eqb]. change ("POST" =? "GET")%string with false.
  change ("POST" =? "POST")%string with true. cbv iota.
  unfold Competitors.handlePost. rewrite Hd, Hn.
  change (Validate.validateRequired _ ["domain"; "name"]) with (@inr Thrown unit tt).
  unfold mbind, result_bind. cbn [default from_option id].
  by destruct (Competitors.insert_competitor st _).
Qed.

Lemma Competitors_post_witness :
  Competitors.handler
    {| Competitors.select_competitors_by_name := inr [];
       Competitors.insert_competitor := fun _ => inl Fixtures.unique_violation |}
    Fixtures.env_configured
    (Fixtures.authorized "POST" Fixtures.competitor_body) =
  Unhandled (ThrowApp (DuplicateError "Record")).
Proof.
  rewrite (Competitors_post
             {| Competitors.select_competitors_by_name := inr [];
                Competitors.insert_competitor := fun _ => inl Fixtures.unique_violation |}
             Fixtures.env_configured
             (Fixtures.authorized "POST" Fixtures.competitor_body)
             "https://MoneySupermarket.com/" "MoneySupermarket"
             eq_refl eq_refl eq_refl eq_refl).
  reflexivity.
Defined.

End PagesAndCompetitors.

(** ** /pages/import *)

Section PagesImportFacts.
Import Errors.

Lemma js_or_idem a d : JS.js_or (JS.js_or a d) d = JS.js_or a d.
Proof.
  unfold JS.js_or. destruct (JS.truthy a) eqn:E; [by rewrite E|].
  by destruct (JS.truthy d).
Qed.

Lemma js_or_settled a d : settled d (JS.js_or a d).
Proof.
  unfold settled, JS.js_or. destruct (JS.truthy a) eqn:E; auto.
Qed.

Lemma check_fields_first_missing p i :
  PagesImport.check_fields p i PagesImport.requiredFields =
  match first_missing p with
  | Some f => inl (ThrowApp (ValidationError
                ("Page at index " +:+ pretty i +:+
                 " missing required field: " +:+ f) None))
  | None => inr tt
  end.
Proof.
  unfold first_missing, PagesImport.requiredFields.
  cbn [PagesImport.check_fields].
  change (PagesImport.get p "page_name") with (PagesImport.page_name p).
  change (PagesImport.get p "url") with (PagesImport.url p).
  change (PagesImport.get p "cluster") with (PagesImport.cluster p).
  by repeat destruct (negb _).
Qed.

Lemma check_pages_complete l i :
  Forall (fun q => first_missing q = None) l ->
  PagesImport.check_pages i l = inr tt.
Proof.
  intros H. revert i. induction H as [|q l Hq _ IH]; intros i; [done|].
  cbn [PagesImport.check_pages]. rewrite check_fields_first_missing, Hq. apply IH.
Qed.

Lemma check_pages_first l1 p l2 f i :
  Forall (fun q => first_missing q = None) l1 ->
  first_missing p = Some f ->
  PagesImport.check_pages i (l1 ++ p :: l2) =
  inl (ThrowApp (ValidationError
         ("Page at index " +:+ pretty (i + length l1) +:+
          " missing required field: " +:+ f) None)).
Proof.
  intros H Hp. revert i. induction H as [|q l Hq _ IH]; intros i.
  - cbn [app length PagesImport.check_pages].
    rewrite check_fields_first_missing, Hp. by rewrite Nat.add_0_r.
  - cbn [app length PagesImport.check_pages].
    rewrite check_fields_first_missing, Hq, IH. by rewrite Nat.add_succ_r.
Qed.

Lemma PagesImport_run_array upsert e (req : Request PagesImport.Body) l :
  Auth.verifyApiKey e req = true ->
  method req = "POST" ->
  PagesImport.pages (req_body req) = PagesImport.Pages l ->
  l <> [] ->
  PagesImport.run upsert e req =
  match PagesImport.check_pages 0 l with
  | inl err => inl err
  | inr _ =>
      match upsert (List.map PagesImport.prepare l) with
      | inl dbError => inl (ThrowApp (mapSupabaseError dbError "upsert"))
      | inr data => inr data
      end
  end.
Proof.
  intros Hauth Hm Hp Hl. unfold PagesImport.run.
  rewrite Hauth. cbn [negb]. rewrite validateMethod_post by done.
  unfold mbind, result_bind. rewrite Hp.
  change (Validate.validateRequired _ ["pages"]) with (@inr Thrown unit tt).
  change (Validate.validateType _ "pages" "array") with (@inr Thrown unit tt).
  cbv iota beta.
  destruct l as [|p l]; [done|]. cbn [length Nat.eqb].
  by destruct (PagesImport.check_pages 0 (p :: l)) as [?|[]].
Qed.

(** An import is refused at the first page, in array order, that lacks one
    of [page_name], [url], [cluster], and the message names that index and
    the first such field of that page; the store is not consulted, whatever
    the later pages hold. *)
Theorem PagesImport_first_incomplete_page
    upsert e (req : Request PagesImport.Body) l1 p l2 f :
  Auth.verifyApiKey e req = true ->
  method req = "POST" ->
  PagesImport.pages (req_body req) = PagesImport.Pages (l1 ++ p :: l2) ->
  Forall (fun q => first_missing q = None) l1 ->
  first_missing p = Some f ->
  PagesImport.handler upsert e req =
    {| Response.status := 400;
       Response.body :=
         Response.Failure "VALIDATION_ERROR"
           ("Page at index " +:+ pretty (length l1) +:+
            " missing required field: " +:+ f) (Some None) |}
  /\ forall upsert', PagesImport.handler upsert' e req = PagesImport.handler upsert e req.
Proof.
  intros Hauth Hm Hp Hl Hf.
  assert (Hrun : forall u, PagesImport.run u e req =
            inl (ThrowApp (ValidationError
              ("Page at index " +:+ pretty (length l1) +:+
               " missing required field: " +:+ f) None))).
  { intros u. rewrite (PagesImport_run_array u e req (l1 ++ p :: l2)); try done.
    - by rewrite (check_pages_first l1 p l2 f 0 Hl Hf).
    - by destruct l1. }
  unfold PagesImport.handler. split; [by rewrite Hrun|].
  intros u. by rewrite !Hrun.
Qed.

Lemma PagesImport_first_incomplete_page_witness :
  Response.status
    (PagesImport.handler (fun rows => inr []) Fixtures.env_configured
       (Fixtures.authorized "POST"
          {| PagesImport.pages :=
               PagesImport.Pages [Fixtures.import_page; Fixtures.import_page_no_url;
                                  Fixtures.import_page_no_name] |})) = 400%Z
  /\ Response.body
       (PagesImport.handler (fun rows => inr []) Fixtures.env_configured
          (Fixtures.authorized "POST"
             {| PagesImport.pages :=
                  PagesImport.Pages [Fixtures.import_page; Fixtures.import_page_no_url;
                                     Fixtures.import_page_no_name] |})) =
     Response.Failure (D := list PagesImport.StoredPage) (Mt := PagesImport.Meta)
       "VALIDATION_ERROR"
       "Page at index 1 missing required field: url" (Some None).
Proof.
  destruct (PagesImport_first_incomplete_page
              (fun rows => inr []) Fixtures.env_configured
              (Fixtures.authorized "POST"
                 {| PagesImport.pages :=
                      PagesImport.Pages [Fixtures.import_page; Fixtures.import_page_no_url;
                                         Fixtures.import_page_no_name] |})
              [Fixtures.import_page] Fixtures.import_page_no_url
              [Fixtures.import_page_no_name] "url"
              eq_refl eq_refl eq_refl
              ltac:(by repeat constructor) eq_refl) as [H _].
  rewrite H. split; reflexivity.
Defined.

Lemma js_or_defaulted a d : defaulted d a (JS.js_or a d).
Proof. unfold defaulted, JS.js_or. by destruct (JS.truthy a). Qed.

(** An import whose pages all carry the three required fields sends one
    upsert holding one row per page, in order; the answer is the stored rows
    with their count, or the store's error mapped by [mapSupabaseError]. The
    row sent for a page repeats its [page_name], [url] and [cluster]; its
    [level] is the given one when that is truthy and 2 otherwise, and each
    other optional field is the given one when truthy and [null] otherwise.
    Preparing a row again changes nothing. *)
Theorem PagesImport_complete_pages upsert e (req : Request PagesImport.Body) l :
  Auth.verifyApiKey e req = true ->
  method req = "POST" ->
  PagesImport.pages (req_body req) = PagesImport.Pages l ->
  l <> [] ->
  Forall (fun q => first_missing q = None) l ->
  let rows := List.map PagesImport.prepare l in
  PagesImport.handler upsert e req =
    match upsert rows with
    | inr data => Response.success data {| PagesImport.count := length data |}
    | inl dbError => Response.error (ThrowApp (mapSupabaseError dbError "upsert"))
    end
  /\ Forall2 (fun p r =>
       PagesImport.page_name r = PagesImport.page_name p
       /\ PagesImport.url r = PagesImport.url p
       /\ PagesImport.cluster r = PagesImport.cluster p
       /\ defaulted (JS.JNum (Q2Qc 2)) (PagesImport.level p) (PagesImport.level r)
       /\ defaulted JS.JNull (PagesImport.parent_page p) (PagesImport.parent_page r)
       /\ defaulted JS.JNull (PagesImport.sibling_links p) (PagesImport.sibling_links r)
       /\ defaulted JS.JNull (PagesImport.cross_cluster_links p)
                    (PagesImport.cross_cluster_links r)
       /\ defaulted JS.JNull (PagesImport.content_focus p)
                    (PagesImport.content_focus r)) l rows
  /\ length rows = length l
  /\ Forall (fun r =>
       PagesImport.prepare r = r
       /\ first_missing r = None
       /\ settled (JS.JNum (Q2Qc 2)) (PagesImport.level r)
       /\ settled JS.JNull (PagesImport.parent_page r)
       /\ settled JS.JNull (PagesImport.sibling_links r)
       /\ settled JS.JNull (PagesImport.cross_cluster_links r)
       /\ settled JS.JNull (PagesImport.content_focus r)) rows.
Proof.
  intros Hauth Hm Hp Hl Hall rows. split; [|split; [|split]].
  - unfold PagesImport.handler.
    rewrite (PagesImport_run_array upsert e req l) by done.
    rewrite check_pages_complete by done. fold rows.
    by destruct (upsert rows).
  - unfold rows. clear. induction l as [|p l IH]; [constructor|].
    cbn [List.map]. constructor; [|exact IH].
    unfold PagesImport.prepare.
    cbn [PagesImport.page_name PagesImport.url PagesImport.cluster PagesImport.level
         PagesImport.parent_page PagesImport.sibling_links
         PagesImport.cross_cluster_links PagesImport.content_focus].
    do 3 (split; [done|]). repeat split; apply js_or_defaulted.
  - apply length_map.
  - unfold rows. apply Forall_map. eapply Forall_impl; [exact Hall|].
    intros q Hq. cbn beta. split; [|split].
    + unfold PagesImport.prepare. cbn. by rewrite !js_or_idem.
    + exact Hq.
    + unfold PagesImport.prepare. cbn. repeat split; apply js_or_settled.
Qed.

Lemma PagesImport_complete_pages_witness :
  PagesImport.handler
    (fun rows => inr (imap (fun i r => {| PagesImport.id := pretty i;
                                          PagesImport.row := r |}) rows))
    Fixtures.env_configured
    (Fixtures.authorized "POST"
       {| PagesImport.pages :=
            PagesImport.Pages [Fixtures.import_page; Fixtures.import_page_level_zero] |}) =
  Response.success
    [ {| PagesImport.id := "0";
         PagesImport.row :=
           {| PagesImport.page_name := JS.JStr "Retirement Calculator";
              PagesImport.url := JS.JStr "/tools/retirement-calculator";
              PagesImport.cluster := JS.JStr "Tools";
              PagesImport.level := JS.JNum (Q2Qc 3);
              PagesImport.parent_page := JS.JStr "/tools";
              PagesImport.sibling_links := JS.JNull;
              PagesImport.cross_cluster_links := JS.JNull;
              PagesImport.content_focus := JS.JNull |} |};
      {| PagesImport.id := "1";
         PagesImport.row :=
           {| PagesImport.page_name := JS.JStr "Pension Transfer";
              PagesImport.url := JS.JStr "/pensions/transfer";
              PagesImport.cluster := JS.JStr "Pensions";
              PagesImport.level := JS.JNum (Q2Qc 2);
              PagesImport.parent_page := JS.JNull;
              PagesImport.sibling_links := JS.JNull;
              PagesImport.cross_cluster_links := JS.JNull;
              PagesImport.content_focus := JS.JNull |} |} ]
    {| PagesImport.count := 2 |}.
Proof.
  destruct (PagesImport_complete_pages
              (fun rows => inr (imap (fun i r => {| PagesImport.id := pretty i;
                                                    PagesImport.row := r |}) rows))
              Fixtures.env_configured
              (Fixtures.authorized "POST"
                 {| PagesImport.pages :=
                      PagesImport.Pages [Fixtures.import_page;
                                         Fixtures.import_page_level_zero] |})
              [Fixtures.import_page; Fixtures.import_page_level_zero]
              eq_refl eq_refl eq_refl ltac:(discriminate)
              ltac:(by repeat constructor))
    as [H _].
  rewrite H. vm_compute. reflexivity.
Defined.

End PagesImportFacts.

(** ** GET /keywords *)

Section KeywordsListFacts.
Import Errors.

Lemma KeywordsList_handler_get {Row} (select : KeywordsList.Select -> StoreError + list Row)
    e (req : Request KeywordsList.Query) :
  Auth.verifyApiKey e req = true ->
  method req = "GET" ->
  KeywordsList.handler select e req =
  match select (KeywordsList.build (req_body req)) with
  | inl dbError => Response.error (ThrowStore dbError)
  | inr data =>
      Response.success data
        {| KeywordsList.count := length data;
           KeywordsList.m_limit := KeywordsList.parse_or (KeywordsList.limit (req_body req)) 100;
           KeywordsList.m_offset := KeywordsList.parse_or (KeywordsList.offset (req_body req)) 0 |}
  end.
Proof.
  intros Hauth Hm. unfold KeywordsList.handler. rewrite Hauth, Hm.
  change ("GET" =? "GET")%string with true. by cbn [negb].
Qed.

Lemma of_Z_exact z :
  (Z.abs z <= Num.exact_bound)%Z -> Num.of_Z z = Num.Int z.
Proof. intros H. unfold Num.of_Z. by rewrite (proj2 (Z.leb_le _ _) H). Qed.

(** The window asked of the store. When [limit] and [offset] parse to the
    integers [n] and [m] and [m + n] stays within the integers a double
    holds exactly, the rows asked for are [m .. m + n - 1], both ends
    included, and [0 .. 99] when neither parameter is sent; [country] is
    compared in upper case and an empty filter is not applied. *)
Theorem KeywordsList_window (q : KeywordsList.Query) (n m : Z) :
  KeywordsList.parse_or (KeywordsList.limit q) 100 = Num.Int n ->
  KeywordsList.parse_or (KeywordsList.offset q) 0 = Num.Int m ->
  (- Num.exact_bound < m + n <= Num.exact_bound)%Z ->
  KeywordsList.range_from (KeywordsList.build q) = Num.Int m
  /\ KeywordsList.range_to (KeywordsList.build q) = Num.Int (m + n - 1)%Z
  /\ (KeywordsList.limit q = None -> KeywordsList.offset q = None ->
      m = 0%Z /\ (m + n - 1 = 99)%Z)
  /\ (forall c, KeywordsList.country q = Some c -> c <> "" ->
      KeywordsList.eq_country (KeywordsList.build q) = Some (JS.toUpperCase c))
  /\ (KeywordsList.country q = Some "" \/ KeywordsList.country q = None ->
      KeywordsList.eq_country (KeywordsList.build q) = None).
Proof.
  intros Hl Ho Hsum. split; [|split; [|split; [|split]]].
  - unfold KeywordsList.build. cbn [KeywordsList.range_from]. exact Ho.
  - unfold KeywordsList.build. cbn [KeywordsList.range_to]. rewrite Hl, Ho.
    unfold Num.add. rewrite of_Z_exact by (unfold Num.exact_bound in *; lia).
    rewrite of_Z_exact by (unfold Num.exact_bound in *; lia).
    f_equal.
  - intros H H0. rewrite H in Hl. rewrite H0 in Ho.
    unfold KeywordsList.parse_or in Hl, Ho. vm_compute in Hl, Ho.
    simplify_eq. done.
  - intros c Hc Hne. unfold KeywordsList.build. cbn [KeywordsList.eq_country].
    rewrite Hc. cbn [JS.str_truthy default from_option id].
    by destruct (String.eqb_spec c "").
  - intros [H | H]; unfold KeywordsList.build; cbn [KeywordsList.eq_country];
      by rewrite H.
Qed.

Lemma KeywordsList_window_witness :
  KeywordsList.range_from
    (KeywordsList.build
       {| KeywordsList.country := Some "uk"; KeywordsList.cluster := None;
          KeywordsList.page_id := None; KeywordsList.limit := Some "20";
          KeywordsList.offset := Some "40" |}) = Num.Int 40
  /\ KeywordsList.range_to
       (KeywordsList.build
          {| KeywordsList.country := Some "uk"; KeywordsList.cluster := None;
             KeywordsList.page_id := None; KeywordsList.limit := Some "20";
             KeywordsList.offset := Some "40" |}) = Num.Int 59.
Proof.
  destruct (KeywordsList_window
              {| KeywordsList.country := Some "uk"; KeywordsList.cluster := None;
                 KeywordsList.page_id := None; KeywordsList.limit := Some "20";
                 KeywordsList.offset := Some "40" |} 20 40 eq_refl eq_refl)
    as (H1 & H2 & _).
  - vm_compute. split; [reflexivity|discriminate].
  - split; [exact H1|exact H2].
Defined.

(** Past 2^53 the bounds are those of double arithmetic: an offset of
    2^53 + 1 is read as 2^53, and with a limit of 2 the upper bound is 2^53
    again. *)
Example KeywordsList_window_rounds :
  let q := {| KeywordsList.country := None; KeywordsList.cluster := None;
              KeywordsList.page_id := None; KeywordsList.limit := Some "2";
              KeywordsList.offset := Some "9007199254740993" |} in
  KeywordsList.range_from (KeywordsList.build q) = Num.Int 9007199254740992
  /\ KeywordsList.range_to (KeywordsList.build q) = Num.Int 9007199254740992
  /\ ParseInt.parseInt "  -12px" = Num.Int (-12)
  /\ ParseInt.parseInt "px" = Num.NaN.
Proof. vm_compute. repeat split. Qed.

(** What GET /keywords answers. Only a missing or wrong key gives 401 and
    only another method gives 400: [limit] and [offset] are never validated,
    so a value that does not parse reaches the store as a [NaN] bound. A
    store error is thrown as it is and leaves as the generic 500, without
    its code or message. *)
Theorem KeywordsList_statuses {Row} (select : KeywordsList.Select -> StoreError + list Row)
    e (req : Request KeywordsList.Query) :
  let r := KeywordsList.handler select e req in
  (Response.status r = 401%Z <-> Auth.verifyApiKey e req = false)
  /\ (Response.status r = 400%Z <->
      Auth.verifyApiKey e req = true /\ method req <> "GET")
  /\ (Response.status r = 500%Z <->
      Auth.verifyApiKey e req = true /\ method req = "GET"
      /\ exists dbError, select (KeywordsList.build (req_body req)) = inl dbError)
  /\ (Response.status r = 500%Z ->
      Response.body r =
        Response.Failure "INTERNAL_ERROR" "An unexpected error occurred" None)
  /\ (Response.status r = 200%Z \/ Response.status r = 400%Z
      \/ Response.status r = 401%Z \/ Response.status r = 500%Z).
Proof.
  cbv zeta. unfold KeywordsList.handler.
  destruct (Auth.verifyApiKey e req); cbn [negb].
  2:{ cbn. repeat split; try done; try (intros; naive_solver); auto. }
  destruct (String.eqb_spec (method req) "GET") as [Hm|Hm]; cbn [negb].
  2:{ cbn. repeat split; try done; try (intros; naive_solver); auto. }
  destruct (select _) as [dbError|data] eqn:E; cbn.
  - repeat split; try done; try (intros; naive_solver); auto.
  - repeat split; try done; try (intros; naive_solver); auto.
Qed.

Lemma KeywordsList_statuses_witness :
  Response.status
    (KeywordsList.handler (Row := unit)
       (fun _ => inl Fixtures.unique_violation) Fixtures.env_configured
       (Fixtures.authorized "GET"
          {| KeywordsList.country := None; KeywordsList.cluster := None;
             KeywordsList.page_id := None; KeywordsList.limit := Some "lots";
             KeywordsList.offset := None |})) = 500%Z
  /\ Response.body
       (KeywordsList.handler (Row := unit)
          (fun _ => inl Fixtures.unique_violation) Fixtures.env_configured
          (Fixtures.authorized "GET"
             {| KeywordsList.country := None; KeywordsList.cluster := None;
                KeywordsList.page_id := None; KeywordsList.limit := Some "lots";
                KeywordsList.offset := None |})) =
     Response.Failure "INTERNAL_ERROR" "An unexpected error occurred" None.
Proof.
  destruct (KeywordsList_statuses (Row := unit)
              (fun _ => inl Fixtures.unique_violation) Fixtures.env_configured
              (Fixtures.authorized "GET"
                 {| KeywordsList.country := None; KeywordsList.cluster := None;
                    KeywordsList.page_id := None; KeywordsList.limit := Some "lots";
                    KeywordsList.offset := None |}))
    as (_ & _ & [_ H500] & Hbody & _).
  assert (H : Response.status
    (KeywordsList.handler (Row := unit)
       (fun _ => inl Fixtures.unique_violation) Fixtures.env_configured
       (Fixtures.authorized "GET"
          {| KeywordsList.country := None; KeywordsList.cluster := None;
             KeywordsList.page_id := None; KeywordsList.limit := Some "lots";
             KeywordsList.offset := None |})) = 500%Z).
  { apply H500. split; [reflexivity|]. split; [reflexivity|].
    exists Fixtures.unique_violation. reflexivity. }
  split; [exact H|exact (Hbody H)].
Defined.

End KeywordsListFacts.

(** ** lib/dataforseo.js *)

Section DataForSEOFacts.
Import DataForSEO.

Variable fetch : string -> AuthHeader -> Payload -> Err + Reply.
Variable env : Env.

(** The outcomes of a provider request. Without both credentials nothing is
    sent. Rows are returned exactly when the reply and its first task both
    carry status 20000, an absent [result] counting as no rows. A reply
    with status 20000 and no task does not give one of the two described
    errors but the [TypeError] of reading [status_code] of [undefined]. *)
Theorem dataforseoRequest_outcomes (endpoint : string) (data : Payload) :
  (JS.str_truthy (DATAFORSEO_LOGIN env) = false
   \/ JS.str_truthy (DATAFORSEO_PASSWORD env) = false ->
   forall fetch', dataforseoRequest fetch' env endpoint data =
                  inl (Error "DataForSEO credentials not configured"))
  /\ (forall rows,
        dataforseoRequest fetch env endpoint data = inr rows <->
        exists auth reply task rest,
          getAuthHeader env = inr auth
          /\ fetch (BASE_URL +:+ endpoint) auth data = inr reply
          /\ status_code reply = 20000%Z
          /\ tasks reply = Some (task :: rest)
          /\ t_status_code task = 20000%Z
          /\ rows = default [] (t_result task))
  /\ (forall auth reply,
        getAuthHeader env = inr auth ->
        fetch (BASE_URL +:+ endpoint) auth data = inr reply ->
        status_code reply = 20000%Z ->
        tasks reply = None \/ tasks reply = Some [] ->
        dataforseoRequest fetch env endpoint data = inl TypeError).
Proof.
  split; [|split].
  - intros H fetch'. unfold dataforseoRequest, getAuthHeader.
    destruct H as [-> | ->]; cbn [negb orb]; [done|].
    by rewrite orb_true_r.
  - intros rows. unfold dataforseoRequest. split.
    + destruct (getAuthHeader env) as [?|auth]; [done|].
      destruct (fetch _ auth data) as [?|reply] eqn:Ef; [done|].
      destruct (Z.eqb_spec (status_code reply) 20000) as [Hs|Hs]; cbn [negb]; [|done].
      destruct (tasks reply) as [[|task rest]|] eqn:Et; cbn [default head from_option id];
        try done.
      destruct (Z.eqb_spec (t_status_code task) 20000) as [Ht|Ht]; cbn [negb]; [|done].
      intros [= <-]. by exists auth, reply, task, rest.
    + intros (auth & reply & task & rest & Ha & Hf & Hs & Htk & Ht & ->).
      rewrite Ha, Hf, Hs, Htk. change (negb (20000 =? 20000)%Z) with false. cbv iota.
      cbn [default from_option id head]. rewrite Ht. done.
  - intros auth reply Ha Hf Hs Ht. unfold dataforseoRequest. rewrite Ha, Hf, Hs.
    change (negb (20000 =? 20000)%Z) with false. cbv iota.
    by destruct Ht as [-> | ->].
Qed.



End DataForSEOFacts.

(** ** Instances *)

Section Instances.
Import Errors.

Lemma dataforseoRequest_outcomes_witness :
  DataForSEO.dataforseoRequest (fun _ _ _ => inr Fixtures.reply_no_tasks)
    Fixtures.env_no_password "/v3/serp/google/organic/live/regular"
    Fixtures.serp_payload =
  inl (DataForSEO.Error "DataForSEO credentials not configured")
  /\ DataForSEO.dataforseoRequest (fun _ _ _ => inr Fixtures.reply_no_tasks)
       Fixtures.env_configured "/v3/serp/google/organic/live/regular"
       Fixtures.serp_payload =
     inl DataForSEO.TypeError
  /\ DataForSEO.dataforseoRequest (fun _ _ _ => inr Fixtures.reply_null_result)
       Fixtures.env_configured "/v3/serp/google/organic/live/regular"
       Fixtures.serp_payload =
     inr [].
Proof.
  split; [|split].
  - apply (proj1 (dataforseoRequest_outcomes
                    (fun _ _ _ => inr Fixtures.reply_no_tasks)
                    Fixtures.env_no_password
                    "/v3/serp/google/organic/live/regular" Fixtures.serp_payload)).
    right. reflexivity.
  - apply (proj2 (proj2 (dataforseoRequest_outcomes
                    (fun _ _ _ => inr Fixtures.reply_no_tasks)
                    Fixtures.env_configured
                    "/v3/serp/google/organic/live/regular" Fixtures.serp_payload))
             (DataForSEO.Basic "login:password") Fixtures.reply_no_tasks);
      [reflexivity|reflexivity|reflexivity|right; reflexivity].
  - apply (proj1 (proj2 (dataforseoRequest_outcomes
                    (fun _ _ _ => inr Fixtures.reply_null_result)
                    Fixtures.env_configured
                    "/v3/serp/google/organic/live/regular" Fixtures.serp_payload))).
    eexists (DataForSEO.Basic "login:password"), Fixtures.reply_null_result, _, [].
    repeat split.
Defined.


Lemma mapSupabaseError_taxonomy_witness :
  mapSupabaseError Fixtures.unique_violation "insert" = DuplicateError "Record"
  /\ status (mapSupabaseError Fixtures.unique_violation "insert") = 409%Z.
Proof.
  apply (proj1 (mapSupabaseError_taxonomy Fixtures.unique_violation "insert")).
  reflexivity.
Defined.

End Instances.
